(* ===== verification/_CoqProject ===== *)
-Q . S2P
Prelude.v
ReadCache.v
Messages.v
MessageIds.v
Optimistic.v
Posts.v
LikeQueue.v
News.v
NewsArray.v
ArchiveTypes.v
Users.v
Meals.v
SingleFlight.v
FlightLiveness.v
FlightBudget.v
ImagePicker.v
Pages.v
ArchiveCache.v
ArchiveLinks.v
Revalidation.v
