(* ===== verification/Prelude.v ===== *)
(** * Verification of the next-js-procodrr exercises

    The repository is a sequence of Next.js exercises.  Its server side reads
    and writes SQLite tables through better-sqlite3 (lib/messages.js,
    lib/news.js, lib/meals.js, lib/user.js); its pages are React components
    that call those accessors and return JSX; one client component
    (components/posts.js) keeps speculative state with [useOptimistic].
    The specification singles out, as the core, the pattern
    read cache + invalidation + optimistic mutation: reads go through a
    cache keyed by the query, a successful mutation invalidates the scopes
    it touched, and the client shows the expected result of a mutation
    before the server confirms it.

    ** Files, in dependency order, and what they model

    - [Prelude] (this file): what every component shares.  JavaScript
      values as far as the sources observe them ([JsVal], [truthy],
      [js_not], [template] for template literals), the array and string
      primitives the sources call ([findIndex], [includes], [split]), the
      SQL primitives of the statements ([SqlVal] and [bind] for the values
      bound to a statement, the class [Driver] for what the driver does
      with [undefined] there, [sql_equal], [rowid_after] for the rowid of
      an insert, [str_le], the byte order ORDER BY uses on TEXT, [distinct]
      for SELECT DISTINCT), the outcome of a server component or action
      ([Outcome]: a value, [notFound()], [redirect(path)] or a thrown
      error), the monad [Act] of calls that thread a state and end in an
      outcome (with stdpp's [x ← m; k]), the tree a component returns
      ([Html], [Attr]), the types of values ([js_type], [bindable]), the
      tactics [js_cases] and [act_run] and the hint databases [js] and
      [js_rw].

    - [ReadCache]: the Read Cache and the Invalidation Controller of the
      specification (sections 4.1, 4.2).  The contract of a cache is the
      class [ReadCache] (lookup, fill, and the two laws that relate them);
      [get key tags loader] is written once against the class.  Two
      instances discharge it: [memo_cache], the per-request memo that
      React's [cache] gives lib/messages.js, and [tagged_cache], a table of
      entries with scope tags and a stale flag, on which [invalidate],
      [invalidate_subtree], [onMutationSuccess] and [end_cycle] work.
      [cache_blind] relates two programs that cannot tell their caches
      apart; its lemmas, in the hint database [cache], prove it of every
      program built from [get], steps on the store and the monad.  None of
      this is code of the repository: it is modelled from the
      specification.

    - [Messages]: src/3 Udemy/6-caching/lib/messages.js ([initDb],
      [addMessage], [getMessages] = [get] around the query
      [fetchMessages]) and src/6-caching/app/messages (layout.js as
      [MessagesLayout], page.js as [MessagesPage], new/page.js as
      [NewMessagePage] and the server action [createMessage]).  The state is
      [Env]: the table [messages], absent until created, as the list of its
      rows in rowid order, and the console.  Above it, [Server] adds the
      route cache; [serve_messages] is GET /messages, [submit] the form
      post, [reachable] the states a server gets into from [boot].

    - [MessageIds]: the rowids of the table [messages]: what requests add
      to the table a server started with ([initial_rows], [added]), and the
      bounds on the ids ([ids_upto], [consecutive], [max_rowid]).

    - [Optimistic]: the Optimistic Mutation Coordinator (specification 4.3
      and 6) as the state of a [useOptimistic] hook: the authoritative value
      and the queue of pending actions, each under its handle;
      [addOptimistic], [settle], [revert], [rerender], and [answer_all] for
      the answers to a queue of actions.  Generic in the reducer; modelled
      from the specification.

    - [Posts]: src/7-next-optimization/components/posts.js ([imageLoader],
      [Post], [Posts] with its [reducer] and [updatePost], split at its
      [await] into [updatePost_begin] and [updatePost_resume]) and
      src/3 Udemy/7-next-optimization/app/feed/page.js.  [ui_step] is what a
      user can do to the rendered feed: submit one of its forms, or have it
      rendered again.

    - [LikeQueue]: [updatePost] of components/posts.js with several likes
      in flight: [begin_all] and [resume_all] run its two halves for a list
      of likes and a list of answers; [within_one] is what the feed can show
      for a post of the authoritative list.

    - [News]: src/4-routing-and-page-rendering/lib/news.js (the seven
      queries, as functions of the table) and the pages of
      app/(content)/archive and app/(content)/news ([FilterHeader],
      [FilteredNews], [FilteredNewsPage], [ArchiveLayout], [NewsPage],
      [NewsDetailPage], [NewsNotFoundPage], [ImagePage],
      [InterceptedImagePage]).

    - [NewsArray]: the version of the queries that lib/news.js keeps in its
      comments (lines 3 to 46), over the array [DUMMY_NEWS]:
      [getAllNews_array] to [getNewsForYearAndMonth_array].  This code does
      not run; it is the reference the statements are compared with.  A
      number is an integer or NaN; [Date] and the conversion of a text to a
      number are arguments of the functions ([getFullYear], [getMonth],
      [to_number]), with [iso_getFullYear], [iso_getMonth] and
      [iso_to_number] as their instances for dates written YYYY-MM-DD.

    - [ArchiveTypes]: which props make a component of the archive page hand
      a value to a statement that the driver does not bind
      ([header_ill_typed], [news_ill_typed]), for either [Driver], and what
      a route gives ([route_typed]).

    - [Users]: src/3 Udemy/8-auth/lib/user.js ([createUser],
      [getUserByEmail]); the state is the table [users].

    - [Meals]: src/3 Udemy/3-foodies-udemy/lib/meals.js ([getAllMeals],
      [getMeal], [saveMeal]) and src/3-foodies-udemy/app/meals/page.js
      ([Meals], [MealsPage]).  The state is [MealsEnv]: the table, the files
      under public/, the console of the verbose driver and the time waited;
      [saveMeal] also works on the object it is given.

    - [SingleFlight]: the single-flight requirement of the specification
      (4.1 and 5) for loaders that await, as [getAllMeals] does.  The state
      [Flight] holds the store, a [Slot] per key (a load in flight or a
      value), the [Caller]s of the request and the keys loaded so far;
      [flight_step] runs one event: a caller calls ([call]), the load of a
      key lands ([land]), or another request writes to the store.  Modelled
      from the specification and applied to [getAllMeals] with the two
      callers of app/meals/page.js.

    - [FlightLiveness]: the loads in flight of a single-flight state
      ([flying]) and their landing ([lands], [drain]).

    - [FlightBudget]: single-flight schedules with invalidation events
      ([CacheEvent], [invalidate_slot], [cache_run]) and with loaders that
      fail ([failures]).

    - [ImagePicker]: src/3-foodies-udemy/components/meals/image-picker.js
      as a state machine: [Picker] is the state of the hook with the
      [FileReader]s that are running, [step] runs the handler of an event
      ([handlePickImage], [handleImageChange], [onload]).

    - [Pages]: the static pages of src/2-basic-with-js/app and
      src/7-next-optimization/components/header.js as trees, with the
      resolution of their links ([links], [resolve]) and the path of a
      route ([route_path], [segments]).

    - [ArchiveCache]: the archive pages read through the tagged cache, one
      entry per route ([archive_filter] for the catch-all route,
      [serve_archive]), and a publication that persists a row and
      invalidates a scope with what is nested under it ([publish]);
      [site_reachable] are the sites visits and publications lead to.  The pages are those of [News]; the cache around them and
      the publication are modelled from the specification (4.2 and
      scenario 4), the sources having no mutation of the news table.

    - [ArchiveLinks]: the links of the header of an archive page
      ([link_href] of page.js), followed with [resolve] to the route they
      lead to.

    - [Revalidation]: the calls that src/6-caching/app/messages/new/page.js
      keeps in comments between the insert and the redirect (lines 12 to
      17), each as the call it is when restored ([line_12] to [line_17],
      [revalidate]), the action with a list of them
      ([createMessage_with]), and GET /messages with the tags of its reads
      ([serve_tagged]).  Paths are read with [segments] of [Pages].

    ** What the theorems show

    - Read cache: within one render pass of /messages the query runs once
      and layout and page agree, for every cache that meets the class
      ([render_messages_single_fetch], [page_agrees_with_layout]).
      Refinement: [get] cannot tell apart two caches that answer alike
      ([get_simulation]), the tagged table answers as the memo table of its
      fresh entries ([get_tagged_refines_memo]), and a client written
      against the class is blind to the cache ([feed_request_blind], by the
      lemmas on [cache_blind]).  The load of [getMessages] never throws on
      a server that ran, since [initDb] creates the table
      ([reachable_has_table]).
    - Invalidation: [createMessage] as written invalidates nothing, so a
      route cached until invalidated stays stale after a post
      ([stale_page_after_createMessage]); with the commented-out call
      restored the next GET shows the new row
      ([revalidation_shows_new_message]); under the per-cycle policy the
      action as written suffices ([per_cycle_policy_is_fresh]).  Of the
      calls in the comments of the action, restored in any combination,
      the next GET shows the new row exactly when one of them reaches the
      tags of the page ([revalidation_shows_iff_reached]; [lines_reach]
      says which of the four calls reach the page as written).
    - The messages table: inserts append one row with a fresh rowid and keep
      the primary key; on every reachable server GET returns a page that is
      a prefix of the table and the post redirects
      ([reachable_serve_returns], [reachable_submit_redirects], by rule
      induction on [reachable] through the invariant [server_inv]).  Bounds:
      after n posts no rowid exceeds the largest initial one by more than
      n, and on a fresh database the ids are 1, ..., n
      ([reachable_rowids_bounded], [fresh_rowids_consecutive]).
    - Optimistic updates: the reducer toggles the first post of the id and
      nothing else, is the identity on an unknown id, undoes itself up to
      the spelling of the flag ([posts_equiv], with [Proper] instances);
      [updatePost] shows the speculative list until the server answers,
      then the server's list or, on an error, the list from before; two
      likes in flight queue up.  [imageLoader] puts its transformations
      behind the first "upload/" of the source
      ([imageLoader_inserts_transformations], over the lemmas on [split]).  As written, [Post] ignores the [action]
      prop, so no sequence of submissions ever makes an action pending
      ([ui_never_speculates]).  A request for /feed reads the posts twice:
      behind the request memo the title counts the posts the page lists
      ([feed_title_matches_list]), with a plain accessor it can miss one.
    - Likes in flight: every answer shortens the queue by one
      ([updatePost_resume_shortens], the measure of termination); once
      every like has its answer, in any order, the hook is settled on the
      list of the last answer that resolved ([likes_eventually_settle]); a
      count that is shown is within one of the authoritative count and a
      safe integer ([shown_likes_within_one]).
    - News: each query returns the rows its WHERE clause selects, ordered
      and limited as its statement says; [FilterHeader] returns exactly on a
      valid filter; the archive page returns or throws the invalid-filter
      error for every route; the links of a header lead to valid filters;
      the detail page answers [notFound()] exactly when no row has the id;
      the two image pages agree on the same rows but read different ones.
    - News, array version: on dates written YYYY-MM-DD, for every table and
      every year of four digits, the statement returns the rows the array
      version selects, ordered ([getNewsForYear_refines_array], over the
      injectivity of the value of a text of digits, [digits_from_inj]); for
      a year written otherwise the two part
      ([getNewsForYear_padded_year]).  For any [Date] and [strftime] that
      read the dates of the table alike, the statements select the rows and
      list the years the array version does ([getNewsForYear_agrees],
      [getNewsForYearAndMonth_refines_array],
      [getAvailableNewsYears_refines_array], [getLatestNews_refines_array]);
      the months differ: the array version lists a month once per article
      and leaves out a month that follows one already listed
      ([getAvailableNewsMonths_array_repeats],
      [getAvailableNewsMonths_array_skips]).
    - Types: whichever way the driver treats [undefined], the components of
      the archive page end in its [TypeError] exactly on the props that are
      ill typed for it, and never on the props of a route
      ([archive_type_errors]); on a route the news never throw, so the page
      ends as its header does ([FilteredNewsPage_boundaries]).
    - The archive behind the route cache: the page of a year reads the
      rows of that year only, the page without a filter the years of the
      table ([FilteredNewsPage_year_frame], [FilteredNewsPage_root_frame]);
      so on every site reached by visits and by publications that
      invalidate the archive, or the year of the row when the year is not
      new, a visit is answered with the page of the table as it is
      ([serve_archive_current], by rule induction through [site_inv]); the
      scope of a new year is not enough ([year_scope_misses_new_year]).
      Subtree invalidation of the archive leaves the messages alone
      ([archive_subtree_invalidation], scenario 4 of the specification).
    - Links of the archive: the path of a route is read back as its
      segments ([segments_route_path], [resolve_route_path]); when
      [strftime] reads every date, each link of an archive page that
      renders leads to an archive page that renders
      ([archive_links_lead_to_pages]); a row with a date it does not read
      puts a link to /archive/null into the header, whose page throws
      ([undated_row_breaks_link]).
    - Users: [createUser] keeps the table well formed, returns a fresh
      rowid or throws without a change; with the UNIQUE constraint a stored
      user is the one the lookup finds, without it a duplicate is stored
      and never found.
    - Meals: [saveMeal] as written throws for every meal and stores
      nothing ([saveMeal_never_inserts]); with the write made on the created
      stream it stores file and row ([saveMeal_to_file_inserts]); a request
      for /meals runs the query twice and waits twice
      ([render_meals_waits_twice]).
    - Single-flight: for a loader that always returns, on every schedule of
      calls, landings and concurrent writes the loader runs at most once for
      a key and all callers get the value of the slot
      ([single_flight_one_load], [single_flight_same_result], through the
      invariant [key_inv]); a call followed by the landing returns
      ([call_land_returns]); a failed load leaves no slot.  Behind such a
      cache the meals are queried once and waited for once, on every
      schedule ([getAllMeals_single_flight]).  Liveness: a landing leaves
      one load less in flight and starts none, and once the loads in flight
      have landed every caller is answered ([drain_answers_every_caller],
      [getAllMeals_every_caller_returns]).  With invalidations and loaders
      that fail, the loader runs for a key once and at most once more per
      invalidation of the key and per failed load of it ([load_budget], by
      a credit that every event keeps: [step_budget]); the meals are
      queried once more per invalidation at most
      ([getAllMeals_invalidated_bounds]), and a caller that calls after an
      invalidation has the outcome of the loader on the store as it is then
      ([invalidate_call_land_fresh]).
    - Image picker: the preview is always unset or a file that was chosen
      ([preview_is_a_chosen_file], an invariant of [run]); it follows the input when reads finish in
      order, and can show another file when they do not
      ([preview_can_be_stale]).
    - Static pages: the links of the header are the same from every page,
      those of the blog index lead to posts that show their slug, those of
      the services page are relative.

    ** Bounds and assumptions

    - A JavaScript number that the sources only use as an integer (row ids,
      like counts, list lengths) is a [Z]: the sources stay in the range in
      which doubles are exact integers (below 2^53) unless a table holds
      that many rows.  Nothing in the sources wraps around.  The two places
      where a number grows are bounded by theorems: like counts
      ([shown_likes_within_one]) and rowids ([reachable_rowids_bounded],
      with SQLite's limit 2^63 - 1 as [max_rowid]).  In [NewsArray] a number
      is an [option Z], [None] for NaN.
    - Schedules, queues of likes and lists of answers are arbitrary finite
      lists; the measures that decrease are the number of loads in flight
      and the number of pending actions.
    - The paths that are visited in [ArchiveCache] are arbitrary texts.
      A path splits into segments ([is_segment]: not empty, no slash;
      [segments_are_segments]), and on lists of segments the key of a
      route determines the route ([archive_key_inj]); /archive//2024/ and
      /archive/2024 share an entry.
    - No definition needs fuel: every loop of the sources is a pass over a
      list or a string, and is structural here.
    - In [ReadCache], [Messages] and [Posts] the calls of one render pass
      run one after the other; calls that overlap are the subject of
      [SingleFlight], whose schedules are arbitrary finite lists of events.
      Its invariant is proved for loaders that always return a value; a
      loader that fails frees the slot and may run again, within the budget
      of [FlightBudget].
    - The schemas of the tables [news], [users] and [meals] and the SQL
      function [strftime] are not in the sources.  News ids are text and
      [strftime] is a parameter of the queries; whether [users.email] is
      UNIQUE is a parameter of [Users]; values are stored as they are bound,
      and no constraint is assumed on [meals].
    - better-sqlite3 is not in the sources either.  [bind] takes texts,
      numbers and [null] and refuses booleans; what it does with
      [undefined] is the field of the class [Driver] (bound as NULL by
      [lenient_driver], refused by [strict_driver]), and every query and
      theorem over a query holds for both.  The numbers the sources bind
      are integers and are bound as such; a rowid is a [Z], which is what
      SQLite does below 2^63 - 1 ([reachable_rowids_bounded]).
    - React's [cache] is not in the sources: [getMessages] is the [get] of
      the specification, which keeps nothing of a load that threw.  What
      React keeps of a thrown error within a request is not modelled; no
      server of [Messages] reaches a load that throws.
    - The answer of the server action in [updatePost_resume] carries the
      list of posts: line 105 of components/posts.js awaits the action and
      discards its result, and the list is the [posts] prop of the render
      that follows, folded into the answer as the specification's
      [settle(authoritative)].
    - [slugify], [xss], the date formatter of the feed, the encoding of a
      data URL, and [Date] and the conversion of a text to a number in
      [NewsArray] are parameters.  The claims on the array version are
      proved for the instances on dates written YYYY-MM-DD, without a
      hypothesis on the table; in general the versions agree under
      [dates_agree] (the server's [Date] and SQLite's [strftime] give the
      same year and month for every date of the table) and [names_year]
      (the filter is written as [strftime] writes it).
    - The map of definitions to lines holds the definitions that translate
      lines of the sources, and those modelled from the specification.  The
      predicates, invariants and observers the theorems are stated with,
      and the monad and the trees of [Prelude], are not in it.  The lines
      of lib/news.js 3 to 46, of new/page.js 12 to 17 and of
      messages/page.js 21 to 23 are comments; the definitions mapped to
      them say so.

    ** Not modelled

    - React, Next.js, better-sqlite3 and the other libraries: their
      behaviour enters as the meaning of the calls the sources make
      (statements, [cache], [useOptimistic], [Suspense], [FileReader]).
    - Timers and [console.log] calls are modelled where a property reads
      them (the console of lib/messages.js and lib/meals.js, the timers of
      lib/meals.js) and left out elsewhere (lib/news.js and the pages).
    - The callback that [saveMeal] hands to [write] runs after the call
      returned and is not part of it.

    ** Conventions

    - A JSX element is a [Node] carrying its tag, its attributes in source
      order and its children; a component that is not part of the sources is
      a [Node] named after it whose props are its attributes.
    - Definitions keep the names of the functions they translate; in each
      file the definitions come first, then the lemmas, then the
      properties with their examples. *)

From stdpp Require Import prelude strings list sorting pretty.

(** ** JavaScript values *)

(** The values of the properties the sources branch on or print: booleans,
    integral numbers, strings, [null] and [undefined]. *)
Inductive JsVal : Type :=
| JUndefined
| JNull
| JBool (b : bool)
| JNum (n : Z)
| JStr (s : string).

#[export] Instance JsVal_eq_dec : EqDecision JsVal.
Proof. solve_decision. Defined.

(** ToBoolean: [false], [0], the empty string, [null] and [undefined] are
    falsy. *)
Definition truthy (v : JsVal) : bool :=
  match v with
  | JUndefined | JNull => false
  | JBool b => b
  | JNum n => negb (n =? 0)%Z
  | JStr s => negb (bool_decide (s = ""))
  end.

(** The unary [!]. *)
Definition js_not (v : JsVal) : JsVal := JBool (negb (truthy v)).

(** ToString, as a template literal applies it to an interpolated value. *)
Definition template (v : JsVal) : string :=
  match v with
  | JUndefined => "undefined"
  | JNull => "null"
  | JBool true => "true"
  | JBool false => "false"
  | JNum n => pretty n
  | JStr s => s
  end.

(** The type of a value, of the five the sources handle. *)
Inductive JsType := TUndefined | TNull | TBoolean | TNumber | TString.

#[export] Instance JsType_eq_dec : EqDecision JsType.
Proof. solve_decision. Defined.

Definition js_type (v : JsVal) : JsType :=
  match v with
  | JUndefined => TUndefined
  | JNull => TNull
  | JBool _ => TBoolean
  | JNum _ => TNumber
  | JStr _ => TString
  end.

(** Two values are interchangeable in a condition when ToBoolean agrees. *)
Definition same_truth (v w : JsVal) : Prop := truthy v = truthy w.

(** ** Array primitives *)

Section arrays.
Context {A : Type}.

Fixpoint findIndex_from (p : A → bool) (l : list A) (i : Z) : Z :=
  match l with
  | [] => (-1)%Z
  | x :: l' => if p x then i else findIndex_from p l' (i + 1)%Z
  end.

(** [Array.prototype.findIndex]: the index of the first element that
    satisfies [p], or -1. *)
Definition findIndex (p : A → bool) (l : list A) : Z := findIndex_from p l 0.

(** [Array.prototype.includes] for elements compared by [===]. *)
Definition includes `{EqDecision A} (l : list A) (x : A) : bool :=
  bool_decide (x ∈ l).

End arrays.

(** ** String primitives *)

(** [String.prototype.split] with a non-empty separator: [skip] counts the
    characters of a matched separator that are still to be dropped, [cur] is
    the piece being read. *)
Fixpoint split_from (sep : string) (skip : nat) (cur : string) (s : string)
  : list string :=
  match s with
  | EmptyString => [cur]
  | String c s' =>
      match skip with
      | S k => split_from sep k cur s'
      | O =>
          if String.prefix sep s
          then cur :: split_from sep (String.length sep - 1) "" s'
          else split_from sep 0 (cur +:+ String c "") s'
      end
  end.

Definition split (sep : string) (s : string) : list string :=
  split_from sep 0 "" s.

(** [sep] starts nowhere within the characters of [a], read in front of
    [rest]. *)
Fixpoint absent_in (sep a rest : string) : Prop :=
  match a with
  | "" => True
  | String c a' => String.prefix sep (String c (a' +:+ rest)) = false ∧ absent_in sep a' rest
  end.

#[export] Instance absent_in_dec sep a rest : Decision (absent_in sep a rest).
Proof. induction a as [|c a IH]; simpl; apply _. Defined.

(** The order of SQLite's BINARY collation on TEXT, which [ORDER BY] uses:
    strings compare byte by byte, a proper prefix first. *)
Definition str_le (s t : string) : Prop := String.leb s t = true.

#[export] Instance str_le_dec s t : Decision (str_le s t).
Proof. unfold str_le. apply _. Defined.

(** ** Outcomes of server components and server actions *)

(** A server component or action returns, calls [notFound()], calls
    [redirect(path)] or throws; the last three all unwind the caller. *)
Inductive Outcome (A : Type) : Type :=
| Done (a : A)
| NotFound
| Redirect (path : string)
| Throw (msg : string).
Arguments Done {A} a.
Arguments NotFound {A}.
Arguments Redirect {A} path.
Arguments Throw {A} msg.

(** [Outcome] is a monad: the continuation runs only after a normal return. *)
#[export] Instance Outcome_ret : MRet Outcome := @Done.
#[export] Instance Outcome_bind : MBind Outcome := λ A B k m,
  match m with
  | Done a => k a
  | NotFound => NotFound
  | Redirect p => Redirect p
  | Throw e => Throw e
  end.

Definition is_done {A} (m : Outcome A) : bool :=
  match m with Done _ => true | _ => false end.

(** An effectful call: it reads and writes a state of type [S] (a database,
    a log, a cache) and ends in an outcome.  A call that unwinds keeps the
    state changes made before it did. *)
Definition Act (S A : Type) : Type := S → Outcome A * S.

#[export] Instance Act_ret {S} : MRet (Act S) := λ A a s, (Done a, s).
#[export] Instance Act_bind {S} : MBind (Act S) := λ A B k m s,
  match m s with
  | (Done a, s') => k a s'
  | (NotFound, s') => (NotFound, s')
  | (Redirect p, s') => (Redirect p, s')
  | (Throw e, s') => (Throw e, s')
  end.

Definition get_state {S} : Act S S := λ s, (Done s, s).
Definition modify_state {S} (f : S → S) : Act S () := λ s, (Done (), f s).
Definition unwind {S A} (o : Outcome A) : Act S A := λ s, (o, s).

(** Run a call on a part of the state, selected by a getter and a setter. *)
Definition zoom {S T A} (get : S → T) (set : T → S → S) (m : Act T A) : Act S A :=
  λ s, let '(o, t) := m (get s) in (o, set t s).

(** ** Query primitives *)

(** The values of SQLite that the sources store and read back. *)
Inductive SqlVal : Type :=
| SNull
| SInt (n : Z)
| SText (s : string).

#[export] Instance SqlVal_eq_dec : EqDecision SqlVal.
Proof. solve_decision. Defined.

Definition bind_error : string :=
  "SQLite3 can only bind numbers, strings, bigints, buffers, and null".

(** The driver, better-sqlite3, is not among the sources, and the sources
    do not show what it does with [undefined] as a parameter of a
    statement: binds it as NULL, or refuses it like a boolean.  The
    queries and what is proved of them are stated over both. *)
Class Driver := { binds_undefined : bool }.

(** The driver that binds [undefined] as NULL, the one the examples run
    on, and the driver that refuses it. *)
#[export] Instance lenient_driver : Driver := {| binds_undefined := true |}.

Definition strict_driver : Driver := {| binds_undefined := false |}.

(** A JavaScript value bound to a parameter of a statement.  The driver
    binds numbers, texts and [null] and refuses booleans. *)
Definition bind {driver : Driver} (v : JsVal) : Outcome SqlVal :=
  match v with
  | JStr s => Done (SText s)
  | JNum n => Done (SInt n)
  | JNull => Done SNull
  | JUndefined => if binds_undefined then Done SNull else Throw bind_error
  | JBool _ => Throw bind_error
  end.

(** The types the driver binds. *)
Definition bindable {driver : Driver} (t : JsType) : bool :=
  match t with
  | TNull | TNumber | TString => true
  | TUndefined => binds_undefined
  | TBoolean => false
  end.

(** A column value as the driver hands it to JavaScript. *)
Definition sql_js (v : SqlVal) : JsVal :=
  match v with
  | SNull => JNull
  | SInt n => JNum n
  | SText s => JStr s
  end.

(** [a = b] in a WHERE clause, between values compared as they are stored:
    NULL equals nothing, itself included. *)
Definition sql_equal (a b : SqlVal) : Prop := a ≠ SNull ∧ a = b.

#[export] Instance sql_equal_dec a b : Decision (sql_equal a b).
Proof. unfold sql_equal. apply _. Defined.

(** The rowid SQLite gives a row inserted without one, from the rowids in
    use: 1 in an empty table, else one more than the largest.  That is what
    SQLite does while the largest is below 2^63 - 1; once it is in use
    SQLite tries unused rowids at random, which is not modelled. *)
Definition rowid_after (ids : list Z) : Z :=
  match ids with
  | [] => 1
  | i :: ids => foldr Z.max i ids + 1
  end.

Section distinct.
Context `{EqDecision A}.

Fixpoint distinct_from (seen l : list A) : list A :=
  match l with
  | [] => []
  | x :: l' =>
      if decide (x ∈ seen) then distinct_from seen l'
      else x :: distinct_from (x :: seen) l'
  end.

(** [SELECT DISTINCT]: each value once, at its first occurrence. *)
Definition distinct (l : list A) : list A := distinct_from [] l.

End distinct.

(** ** Rendered trees *)

(** The value of a JSX attribute or of an interpolated expression: a
    string, a number, a boolean, or data of the component's own ([D]: rows,
    callbacks, actions). *)
Inductive Attr (D : Type) : Type :=
| AStr (s : string)
| ANum (n : Z)
| ABool (b : bool)
| AData (d : D).
Arguments AStr {D} s.
Arguments ANum {D} n.
Arguments ABool {D} b.
Arguments AData {D} d.

(** The tree a component returns: literal text, an interpolated value, or
    an element (a fragment is the element with the empty tag). *)
#[warnings="-register-all"]
Inductive Html (D : Type) : Type :=
| Text (s : string)
| Val (v : Attr D)
| Node (tag : string) (attrs : list (string * Attr D)) (children : list (Html D)).
Arguments Text {D} s.
Arguments Val {D} v.
Arguments Node {D} tag attrs children.

Definition Fragment {D} (children : list (Html D)) : Html D := Node "" [] children.

(** The first attribute of that name, as JSX props resolve it. *)
Fixpoint attr {D} (name : string) (attrs : list (string * Attr D)) : option (Attr D) :=
  match attrs with
  | [] => None
  | (n, v) :: rest => if bool_decide (n = name) then Some v else attr name rest
  end.

(** Every element of the tree with the given tag, in document order, as
    pairs of attributes and children. *)
Fixpoint elements {D} (tag : string) (h : Html D)
  : list (list (string * Attr D) * list (Html D)) :=
  match h with
  | Text _ | Val _ => []
  | Node t a cs =>
      (if bool_decide (t = tag) then [(a, cs)] else [])
        ++ mjoin (elements tag <$> cs)
  end.

(** ** Tactics and hints *)

Create HintDb js discriminated.
Create Rewrite HintDb js_rw.

(** Case analysis on the conditions of a translated function body. *)
Ltac js_cases :=
  repeat (simplify_eq/=;
          match goal with
          | |- context [if ?b then _ else _] => destruct b eqn:?
          | |- context [match ?x with _ => _ end] => destruct x eqn:?
          end);
  simplify_eq/=.

(** Runs the monadic steps of a call on the state in the goal. *)
Ltac act_run :=
  cbv [mbind mret Act_bind Act_ret Outcome_bind Outcome_ret
       modify_state get_state unwind zoom];
  simpl.

(** ** Facts shared by the components *)

Lemma truthy_js_not v : truthy (js_not v) = negb (truthy v).
Proof. done. Qed.

Lemma js_not_involutive_truth v : same_truth (js_not (js_not v)) v.
Proof. unfold same_truth. rewrite !truthy_js_not. apply negb_involutive. Qed.

#[export] Instance same_truth_equiv : Equivalence same_truth.
Proof. unfold same_truth. split; [done | by intros ?? | by intros ??? -> ->]. Qed.

#[export] Instance truthy_proper : Proper (same_truth ==> eq) truthy.
Proof. by intros ?? ?. Qed.

#[export] Instance js_not_proper : Proper (same_truth ==> eq) js_not.
Proof. intros v w H. unfold js_not. by rewrite H. Qed.

Section array_facts.
Context {A : Type} (p : A → bool).
Implicit Types (l : list A) (i : Z).

Lemma findIndex_from_miss l i :
  findIndex_from p l i = (-1)%Z → (0 ≤ i)%Z → Forall (λ x, p x = false) l.
Proof.
  revert i. induction l as [|x l IH]; intros i; simpl; [done|].
  destruct (p x) eqn:E; [lia|]. intros H Hi. constructor; [done|].
  apply (IH (i + 1)%Z); [done | lia].
Qed.

Lemma findIndex_from_hit l i j :
  findIndex_from p l i = j → j ≠ (-1)%Z → (0 ≤ i)%Z →
  ∃ x, l !! Z.to_nat (j - i) = Some x ∧ p x = true ∧
       Forall (λ y, p y = false) (take (Z.to_nat (j - i)) l) ∧ (i ≤ j)%Z.
Proof.
  revert i. induction l as [|x l IH]; intros i; simpl; [done|].
  destruct (p x) eqn:E.
  - intros <- _ _. exists x. rewrite Z.sub_diag. simpl.
    repeat split; [done | constructor | lia].
  - intros H Hj Hi.
    destruct (IH (i + 1)%Z H Hj) as (y & Hy & Hp & Hall & Hle); [lia|].
    exists y. replace (Z.to_nat (j - i)) with (S (Z.to_nat (j - (i + 1)))) by lia.
    simpl. repeat split; [done | done | by constructor | lia].
Qed.

(** [findIndex] answers -1 exactly when no element satisfies the test. *)
Lemma findIndex_none l :
  findIndex p l = (-1)%Z ↔ Forall (λ x, p x = false) l.
Proof.
  split; [intros H; by apply (findIndex_from_miss l 0)|].
  unfold findIndex. intros H. generalize 0%Z.
  induction H as [|x l Hx _ IH]; intros i; simpl; [done|]. by rewrite Hx.
Qed.

(** Otherwise it answers the position of the first element that does. *)
Lemma findIndex_some l j :
  findIndex p l = j → j ≠ (-1)%Z →
  ∃ x, l !! Z.to_nat j = Some x ∧ p x = true ∧
       Forall (λ y, p y = false) (take (Z.to_nat j) l) ∧ (0 ≤ j)%Z.
Proof.
  intros H Hj. destruct (findIndex_from_hit l 0 j H Hj) as (x & ? & ? & ? & ?); [done|].
  exists x. by rewrite Z.sub_0_r in *.
Qed.

(** The list splits at the index found. *)
Lemma findIndex_split l j :
  findIndex p l = j → j ≠ (-1)%Z →
  ∃ l1 x l2, l = l1 ++ x :: l2 ∧ j = Z.of_nat (length l1) ∧ p x = true ∧
             Forall (λ y, p y = false) l1.
Proof.
  intros H Hj. destruct (findIndex_some l j H Hj) as (x & Hx & Hp & Hall & Hpos).
  exists (take (Z.to_nat j) l), x, (drop (S (Z.to_nat j)) l).
  pose proof (lookup_lt_Some _ _ _ Hx).
  split_and!; [|rewrite length_take; lia|done|done].
  by rewrite <-(take_drop_middle l (Z.to_nat j) x) at 1.
Qed.

(** The first element that satisfies the test is the one found. *)
Lemma findIndex_app_hit l1 x l2 :
  Forall (λ y, p y = false) l1 → p x = true →
  findIndex p (l1 ++ x :: l2) = Z.of_nat (length l1).
Proof.
  intros Hall Hx. unfold findIndex.
  enough (∀ i, findIndex_from p (l1 ++ x :: l2) i = (i + Z.of_nat (length l1))%Z) as ->
    by done.
  induction Hall as [|y l1 Hy _ IH]; intros i; simpl.
  - rewrite Hx. lia.
  - rewrite Hy, IH. lia.
Qed.

Lemma findIndex_range l :
  findIndex p l = (-1)%Z ∨ (0 ≤ findIndex p l < Z.of_nat (length l))%Z.
Proof.
  destruct (decide (findIndex p l = (-1)%Z)) as [|Hj]; [by left|right].
  destruct (findIndex_some l _ eq_refl Hj) as (x & Hx & _ & _ & ?).
  apply lookup_lt_Some in Hx. lia.
Qed.

End array_facts.

(** A partial map that succeeds on every image is a map. *)
Lemma omap_fmap_Some {A B C} (f : B → option C) (g : A → B) (h : A → C) (l : list A) :
  (∀ x, f (g x) = Some (h x)) → omap f (g <$> l) = h <$> l.
Proof.
  intros H. induction l as [|x l IH]; [done|]. csimpl. by rewrite H, IH.
Qed.

(** The elements found under a list of children each holding one. *)
Lemma mjoin_singletons {A B} (f : A → list B) (g : A → B) (l : list A) :
  (∀ x, f x = [g x]) → mjoin (f <$> l) = g <$> l.
Proof.
  intros H. induction l as [|x l IH]; [done|]. csimpl. by rewrite H, IH.
Qed.

(** A selection is non-empty exactly when some element is selected. *)
Lemma filter_nonempty {A} (P : A → Prop) `{∀ x, Decision (P x)} (l : list A) :
  filter P l ≠ [] ↔ Exists P l.
Proof.
  induction l as [|x l IH]; [by rewrite Exists_nil|].
  rewrite Exists_cons, <-IH. destruct (decide (P x)).
  - rewrite filter_cons_True by done. split; [by left | done].
  - rewrite filter_cons_False by done. tauto.
Qed.

Lemma filter_is_nil {A} (P : A → Prop) `{∀ x, Decision (P x)} (l : list A) :
  filter P l = [] ↔ ¬ Exists P l.
Proof.
  rewrite <-filter_nonempty. split; [by intros -> ?|].
  intros Hn. by destruct (filter P l); [|destruct Hn].
Qed.

Lemma filter_all {A} (P : A → Prop) `{∀ x, Decision (P x)} (l : list A) :
  Forall P l → filter P l = l.
Proof.
  induction 1 as [|x l Hx _ IH]; [done|]. by rewrite filter_cons_True, IH.
Qed.

Lemma filter_none {A} (P : A → Prop) `{∀ x, Decision (P x)} (l : list A) :
  Forall (λ x, ¬ P x) l → filter P l = [].
Proof.
  intros Hl. apply filter_is_nil. rewrite Exists_exists. rewrite Forall_forall in Hl.
  naive_solver.
Qed.

(** The driver binds a value exactly when its type is one it binds, and
    refuses any other with its [TypeError]. *)
Lemma bind_typed {driver : Driver} v :
  if bindable (js_type v) then is_done (bind v) = true else bind v = Throw bind_error.
Proof. destruct v; simpl; try done. by destruct binds_undefined. Qed.

(** What was bound comes back as it was, [undefined] as [null]. *)
Lemma bind_sql_js {driver : Driver} v w :
  bind v = Done w → sql_js w = if decide (v = JUndefined) then JNull else v.
Proof. destruct v; simpl; try destruct binds_undefined; intros; by simplify_eq/=. Qed.

(** The two drivers differ on [undefined] only. *)
Lemma bind_defined {driver : Driver} v :
  v ≠ JUndefined → bind v = @bind strict_driver v.
Proof. by destruct v. Qed.

(** Filters that agree on the elements of a list select the same. *)
Lemma filter_ext_in {A} (P Q : A → Prop) `{∀ x, Decision (P x), ∀ x, Decision (Q x)}
    (l : list A) :
  (∀ x, x ∈ l → P x ↔ Q x) → filter P l = filter Q l.
Proof.
  induction l as [|x l IH]; intros HPQ; [done|].
  rewrite !filter_cons, IH by (intros; apply HPQ; by right).
  apply decide_ext, HPQ. by left.
Qed.

(** A list without duplicates whose elements are all the same has at most
    one. *)
Lemma NoDup_all_eq_length {A} (a : A) (l : list A) :
  NoDup l → Forall (λ x, x = a) l → length l ≤ 1.
Proof.
  intros Hnd Hl. destruct l as [|x [|y l]]; simpl; [lia..|].
  apply Forall_cons in Hl as [-> [-> _]%Forall_cons].
  apply NoDup_cons in Hnd as [Hn _]. set_solver.
Qed.

(** An element of another tag contributes what its children hold. *)
Lemma elements_other {D} (tag t : string) a (cs : list (Html D)) :
  t ≠ tag → elements tag (Node t a cs) = mjoin (elements tag <$> cs).
Proof. intros H. cbn [elements]. by rewrite bool_decide_eq_false_2. Qed.

Lemma includes_true `{EqDecision A} (l : list A) x : includes l x = true ↔ x ∈ l.
Proof. unfold includes. by rewrite bool_decide_eq_true. Qed.

Lemma includes_false `{EqDecision A} (l : list A) x : includes l x = false ↔ x ∉ l.
Proof. unfold includes. by rewrite bool_decide_eq_false. Qed.

#[export] Hint Rewrite truthy_js_not : js_rw.
#[export] Hint Resolve findIndex_range : js.

(** ** Splitting strings *)

Lemma string_app_cons c (s t : string) : String c s +:+ t = String c (s +:+ t).
Proof. done. Qed.

Lemma string_app_assoc (s t u : string) : (s +:+ t) +:+ u = s +:+ (t +:+ u).
Proof. induction s as [|c s IH]; [done|]. by rewrite !string_app_cons, IH. Qed.

Lemma string_app_nil_r (s : string) : s +:+ "" = s.
Proof. induction s as [|c s IH]; [done|]. by rewrite string_app_cons, IH. Qed.

Lemma prefix_app (sep rest : string) : String.prefix sep (sep +:+ rest) = true.
Proof.
  induction sep as [|c sep IH]; [by destruct rest|].
  rewrite string_app_cons. simpl. by destruct (Ascii.ascii_dec c c).
Qed.

(** The characters of a matched separator are dropped. *)
Lemma split_from_skip sep skipped cur s :
  split_from sep (String.length skipped) cur (skipped +:+ s) = split_from sep 0 cur s.
Proof.
  induction skipped as [|c skipped IH]; [done|]. by rewrite string_app_cons.
Qed.

(** Where the separator does not start, characters join the piece being
    read. *)
Lemma split_from_absent sep a rest cur :
  absent_in sep a rest →
  split_from sep 0 cur (a +:+ rest) = split_from sep 0 (cur +:+ a) rest.
Proof.
  revert cur. induction a as [|c a IH]; intros cur.
  { intros _. by rewrite string_app_nil_r. }
  intros [Hp Ha]. rewrite string_app_cons. cbn [split_from]. rewrite Hp, (IH _ Ha).
  by rewrite string_app_assoc.
Qed.

(** At a separator the piece ends and the next one starts empty. *)
Lemma split_from_sep sep rest cur :
  sep ≠ "" → split_from sep 0 cur (sep +:+ rest) = cur :: split_from sep 0 "" rest.
Proof.
  intros Hne. pose proof (prefix_app sep rest) as Hp.
  destruct sep as [|c sep]; [done|]. rewrite string_app_cons in *. cbn [split_from].
  rewrite Hp. f_equal. cbn [String.length]. rewrite Nat.sub_1_r. simpl.
  apply split_from_skip.
Qed.

(** [split] at the first occurrence of the separator. *)
Lemma split_first sep a rest :
  sep ≠ "" → absent_in sep a (sep +:+ rest) →
  split sep (a +:+ sep +:+ rest) = a :: split sep rest.
Proof.
  intros Hne Ha. unfold split. by rewrite split_from_absent, split_from_sep.
Qed.

(** [split] of a string that does not hold the separator. *)
Lemma split_absent sep s : absent_in sep s "" → split sep s = [s].
Proof.
  intros Ha. unfold split. rewrite <-(string_app_nil_r s) at 1.
  by rewrite split_from_absent.
Qed.

(** ** The order on strings *)

Lemma ascii_compare_lt_trans a b c :
  Ascii.compare a b = Lt → Ascii.compare b c = Lt → Ascii.compare a c = Lt.
Proof. unfold Ascii.compare. rewrite !N.compare_lt_iff. lia. Qed.

Lemma string_compare_lt_trans s t u :
  String.compare s t = Lt → String.compare t u = Lt → String.compare s u = Lt.
Proof.
  revert t u. induction s as [|a s IH]; intros [|b t] [|c u]; simpl; try done.
  destruct (Ascii.compare a b) eqn:Eab; [|intros _|done].
  - apply Ascii.compare_eq_iff in Eab as ->.
    destruct (Ascii.compare b c) eqn:Ebc; [apply IH|done|done].
  - destruct (Ascii.compare b c) eqn:Ebc; [|intros _|done].
    + apply Ascii.compare_eq_iff in Ebc as ->. by rewrite Eab.
    + by rewrite (ascii_compare_lt_trans a b c).
Qed.

Lemma string_compare_refl s : String.compare s s = Eq.
Proof.
  induction s as [|a s IH]; simpl; [done|].
  unfold Ascii.compare. by rewrite N.compare_refl.
Qed.

#[export] Instance str_le_refl : Reflexive str_le.
Proof. intros s. unfold str_le, String.leb. by rewrite string_compare_refl. Qed.

#[export] Instance str_le_trans : Transitive str_le.
Proof.
  intros s t u. unfold str_le, String.leb.
  destruct (String.compare s t) eqn:Est; [|intros _|done].
  - by apply String.compare_eq_iff in Est as ->.
  - destruct (String.compare t u) eqn:Etu; [|intros _|done].
    + apply String.compare_eq_iff in Etu as ->. by rewrite Est.
    + by rewrite (string_compare_lt_trans s t u).
Qed.

#[export] Instance str_le_total : Total str_le.
Proof. intros s t. apply String.leb_total. Qed.

#[export] Instance str_le_antisym : AntiSymm eq str_le.
Proof. intros s t. apply String.leb_antisym. Qed.

(** ** Rowids *)

Lemma foldr_max_ge (i : Z) (ids : list Z) :
  (i ≤ foldr Z.max i ids)%Z ∧ Forall (λ j, j ≤ foldr Z.max i ids)%Z ids.
Proof.
  induction ids as [|j ids [IH1 IH2]]; simpl; [by split|]. split; [lia|].
  constructor; [lia|]. eapply Forall_impl; [done|]. simpl. lia.
Qed.

(** The rowid of an insert is above every rowid in use. *)
Lemma rowid_after_above ids : Forall (λ i, i < rowid_after ids)%Z ids.
Proof.
  destruct ids as [|i ids]; [done|]. simpl.
  destruct (foldr_max_ge i ids) as [H1 H2].
  constructor; [lia|]. eapply Forall_impl; [done|]. simpl. lia.
Qed.

Lemma rowid_after_pos ids : Forall (λ i, 0 < i)%Z ids → (0 < rowid_after ids)%Z.
Proof.
  destruct ids as [|i ids]; [done|]. intros [Hi _]%Forall_cons. simpl.
  destruct (foldr_max_ge i ids) as [H1 _]. lia.
Qed.

Lemma foldr_max_le (m i : Z) (ids : list Z) :
  (i ≤ m)%Z → Forall (λ j, j ≤ m)%Z ids → (foldr Z.max i ids ≤ m)%Z.
Proof. intros Hi. induction 1; simpl; lia. Qed.

(** The rowid of an insert is at most one above a bound on the rowids in
    use. *)
Lemma rowid_after_le (m : Z) (ids : list Z) :
  (0 ≤ m)%Z → Forall (λ i, i ≤ m)%Z ids → (rowid_after ids ≤ m + 1)%Z.
Proof.
  intros Hm Hids. destruct ids as [|i ids]; simpl; [lia|].
  apply Forall_cons in Hids as [Hi Hids]. pose proof (foldr_max_le m i ids Hi Hids). lia.
Qed.

(** After the rowids 1, ..., n comes n + 1. *)
Lemma rowid_after_seq (n : nat) :
  rowid_after (Z.of_nat <$> seq 1 n) = (Z.of_nat n + 1)%Z.
Proof.
  apply Z.le_antisymm.
  - apply rowid_after_le; [lia|]. apply Forall_fmap, Forall_forall.
    intros i Hi%elem_of_seq. simpl. lia.
  - destruct n as [|n]; [done|]. pose proof (rowid_after_above (Z.of_nat <$> seq 1 (S n))) as H.
    rewrite Forall_fmap, Forall_forall in H.
    assert (S n ∈ seq 1 (S n)) as Hin by (apply elem_of_seq; lia).
    apply H in Hin. cbn [compose] in Hin. lia.
Qed.

(** A key above all keys of an increasing column extends it. *)
Lemma increasing_snoc (ids : list Z) (i : Z) :
  StronglySorted Z.lt ids → Forall (λ j, j < i)%Z ids → StronglySorted Z.lt (ids ++ [i]).
Proof.
  intros Hs Hlt. apply StronglySorted_app_2; [|done|repeat constructor].
  intros j k Hj [->|[]%elem_of_nil]%elem_of_cons. rewrite Forall_forall in Hlt. auto.
Qed.

(** ** DISTINCT *)

Section distinct_facts.
Context `{EqDecision A}.
Implicit Types (l seen : list A) (x : A).

Lemma elem_of_distinct_from seen l x :
  x ∈ distinct_from seen l ↔ x ∈ l ∧ x ∉ seen.
Proof.
  revert seen. induction l as [|y l IH]; intros seen; simpl.
  { rewrite elem_of_nil. tauto. }
  destruct (decide (y ∈ seen)) as [Hy|Hy]; rewrite ?elem_of_cons, IH, ?elem_of_cons.
  - split; [tauto|]. intros [[->|?] ?]; tauto.
  - destruct (decide (x = y)) as [->|]; tauto.
Qed.

Lemma NoDup_distinct_from seen l : NoDup (distinct_from seen l).
Proof.
  revert seen. induction l as [|y l IH]; intros seen; simpl; [constructor|].
  destruct (decide (y ∈ seen)); [done|]. constructor; [|done].
  rewrite elem_of_distinct_from, elem_of_cons. tauto.
Qed.

(** The values selected are those of the column, each once. *)
(** Only the elements seen matter, not how they are listed. *)
Lemma distinct_from_seen seen seen' l :
  (∀ x, x ∈ seen ↔ x ∈ seen') → distinct_from seen l = distinct_from seen' l.
Proof.
  revert seen seen'. induction l as [|x l IH]; intros seen seen' H; [done|]. simpl.
  destruct (decide (x ∈ seen)), (decide (x ∈ seen')); [by apply IH|by destruct (H x); tauto..|].
  f_equal. apply IH. intros y. rewrite !elem_of_cons, H. done.
Qed.

(** The loop that appends what it has not collected yet collects the
    distinct elements, in the order of their first appearance. *)
Lemma foldl_push_distinct {B} (f : B → A) (l : list B) (acc : list A) :
  foldl (λ acc b, if bool_decide (f b ∈ acc) then acc else acc ++ [f b]) acc l
  = acc ++ distinct_from acc (f <$> l).
Proof.
  revert acc. induction l as [|b l IH]; intros acc; simpl; [by rewrite app_nil_r|].
  rewrite IH. case_bool_decide as Hb.
  - by rewrite decide_True.
  - rewrite decide_False by done. rewrite <-app_assoc. simpl. do 2 f_equal.
    apply distinct_from_seen. set_solver.
Qed.

Lemma elem_of_distinct l x : x ∈ distinct l ↔ x ∈ l.
Proof. unfold distinct. rewrite elem_of_distinct_from, elem_of_nil. tauto. Qed.

(** One more occurrence of an element at the end adds nothing. *)
Lemma distinct_from_snoc_old seen l x :
  x ∈ seen ∨ x ∈ l → distinct_from seen (l ++ [x]) = distinct_from seen l.
Proof.
  revert seen. induction l as [|y l IH]; intros seen H; simpl.
  { rewrite decide_True; [done|]. set_solver. }
  destruct (decide (y ∈ seen)); [|f_equal]; apply IH; set_solver.
Qed.

Lemma distinct_snoc_old l x : x ∈ l → distinct (l ++ [x]) = distinct l.
Proof. intros H. apply distinct_from_snoc_old. by right. Qed.

Lemma NoDup_distinct l : NoDup (distinct l).
Proof. apply NoDup_distinct_from. Qed.

End distinct_facts.

#[export] Hint Resolve NoDup_distinct : js.

Section monad_facts.
Context {S A B C : Type}.
Implicit Types (s : S) (m : Act S A) (k : A → Act S B) (h : B → Act S C).

Lemma act_bind_ret a k s : (mret a ≫= k) s = k a s.
Proof. done. Qed.

Lemma act_ret_bind m s : (m ≫= mret) s = m s.
Proof. unfold mbind, Act_bind. by destruct (m s) as [[] ?]. Qed.

Lemma act_bind_assoc m k h s : ((m ≫= k) ≫= h) s = (m ≫= λ a, k a ≫= h) s.
Proof. unfold mbind, Act_bind. by destruct (m s) as [[] ?]. Qed.

(** A bind steps over a first part that returned ... *)
Lemma act_bind_done m k s a s1 : m s = (Done a, s1) → (m ≫= k) s = k a s1.
Proof. intros H. unfold mbind, Act_bind. by rewrite H. Qed.

(** ... and stops at one that unwound, keeping its state. *)
Lemma act_bind_unwind m k s (o : Outcome A) s1 :
  m s = (o, s1) → is_done o = false →
  ∃ o' : Outcome B, (m ≫= k) s = (o', s1) ∧ is_done o' = false ∧
    match o, o' with
    | NotFound, NotFound => True
    | Redirect p, Redirect q => p = q
    | Throw e, Throw e' => e = e'
    | _, _ => False
    end.
Proof.
  intros H Hd. unfold mbind, Act_bind. rewrite H.
  destruct o; [done | by exists NotFound | by eexists (Redirect _) | by eexists (Throw _)].
Qed.

(** A bound call that returned ran its first part to a normal return. *)
Lemma act_bind_done_inv m k s b s2 :
  (m ≫= k) s = (Done b, s2) → ∃ a s1, m s = (Done a, s1) ∧ k a s1 = (Done b, s2).
Proof. unfold mbind, Act_bind. destruct (m s) as [[] ?]; naive_solver. Qed.

End monad_facts.
