(* ===== verification/ReadCache.v ===== *)
(** * Read cache and invalidation controller

    The memoised read path of specification sections 3, 4.1 and 4.2.  The
    repository gets it from its framework ([cache] of React for
    lib/messages.js, the route cache and [revalidatePath]/[revalidateTag] of
    Next.js for the pages), so nothing here maps to lines of the sources:
    the file states the contract once, as the class [ReadCache], proves the
    laws of [get] against the class, and gives the two caches the sources
    rely on as instances:

    - [memo]: the per-cycle memo table (no tags, dropped at the end of the
      request);
    - [tagged]: entries that carry scope tags and a stale flag, with the
      invalidation controller ([invalidate], [invalidate_subtree],
      [onMutationSuccess]) and the end-of-cycle policy ([end_cycle]).

    Clients (Messages.v, Posts.v) are proved against the class.  Caches
    are compared by what they answer ([same_view]); [fresh_view] is the memo
    table a tagged table stands for, and [get] on the tagged table refines
    [get] on that memo table.  Two programs over two caches are compared
    by [cache_blind]; the lemmas of the hint database [cache] prove it of
    every program built from [get], steps on the store, and the monad. *)

From stdpp Require Import prelude strings list gmap.
From S2P Require Import Prelude.

(** A query key names a read; a tag is a scope path, one segment per
    element ([["archive"; "2024"]] for archive/2024). *)
Definition QueryKey : Type := string.
Definition Tag : Type := list string.

(** ** The contract *)

(** What a cache promises to [get]: the value it holds for a key, if it
    holds a fresh one, and how a loaded value is recorded. *)
Class ReadCache (C V : Type) := {
  rc_find : QueryKey → C → option V;
  rc_fill : QueryKey → list Tag → V → C → C;
  rc_find_fill k ts v c : rc_find k (rc_fill k ts v c) = Some v;
  rc_find_fill_ne k k' ts v c : k ≠ k' → rc_find k' (rc_fill k ts v c) = rc_find k' c
}.

Section get.
Context {C V S : Type} `{!ReadCache C V}.
Implicit Types (k : QueryKey) (ts : list Tag) (c : C) (s : S) (loader : Act S V).

(** [get(key, scopeTags, loader)]: a fresh entry is returned without
    running the loader; otherwise the loader runs against the store and a
    normal result is recorded.  A loader that unwinds records nothing. *)
Definition get k ts loader : Act (C * S) V := λ '(c, s),
  match rc_find k c with
  | Some v => (Done v, (c, s))
  | None =>
      match loader s with
      | (Done v, s') => (Done v, (rc_fill k ts v c, s'))
      | (o, s') => (o, (c, s'))
      end
  end.

Lemma get_hit k ts loader c s v :
  rc_find k c = Some v → get k ts loader (c, s) = (Done v, (c, s)).
Proof. intros H. unfold get. by rewrite H. Qed.

Lemma get_miss k ts loader c s v s' :
  rc_find k c = None → loader s = (Done v, s') →
  get k ts loader (c, s) = (Done v, (rc_fill k ts v c, s')).
Proof. intros H1 H2. unfold get. by rewrite H1, H2. Qed.

(** No negative caching: after a failed load the cache is as it was. *)
Lemma get_failure_not_cached k ts loader c s o c' s' :
  get k ts loader (c, s) = (o, (c', s')) → is_done o = false → c' = c.
Proof.
  unfold get. destruct (rc_find k c); [naive_solver|].
  destruct (loader s) as [[] ?]; naive_solver.
Qed.

(** After a [get] that returned, the key is held with the value returned. *)
Lemma get_done_find k ts loader c s v c' s' :
  get k ts loader (c, s) = (Done v, (c', s')) → rc_find k c' = Some v.
Proof.
  unfold get. destruct (rc_find k c) eqn:E; [naive_solver|].
  destruct (loader s) as [[] ?]; intros; simplify_eq. apply rc_find_fill.
Qed.

(** Memoisation: a second [get] of the key returns the value of the first
    and leaves the store alone, whatever happened to the store in between
    and whatever loader it is given. *)
Lemma get_get k ts ts' loader loader' c s v c' s' s'' :
  get k ts loader (c, s) = (Done v, (c', s')) →
  get k ts' loader' (c', s'') = (Done v, (c', s'')).
Proof. intros H. apply get_hit. eauto using get_done_find. Qed.

End get.

(** ** The per-cycle memo table *)

(** One table per request: a key maps to the value loaded for it. *)
Abbreviation memo V := (gmap string V) (only parsing).

#[export] Program Instance memo_cache {V} : ReadCache (memo V) V := {|
  rc_find k c := c !! k;
  rc_fill k _ v c := <[k:=v]> c
|}.
Next Obligation. intros. apply lookup_insert_eq. Qed.
Next Obligation. intros. by apply lookup_insert_ne. Qed.

(** A request starts with an empty table and drops it when it ends. *)
Definition with_fresh_memo {V S A} (m : Act (memo V * S) A) : Act S A :=
  λ s, let '(o, (_, s')) := m (∅, s) in (o, s').

(** ** Tagged entries and the invalidation controller *)

Record Entry (V : Type) := mkEntry {
  value : V;
  createdAt : nat;
  scopeTags : list Tag;
  stale : bool
}.
Arguments mkEntry {V}.
Arguments value {V}.
Arguments createdAt {V}.
Arguments scopeTags {V}.
Arguments stale {V}.

(** The entry table and the number of the running cycle. *)
Record tagged (V : Type) := mkTagged {
  entries : gmap string (Entry V);
  cycle : nat
}.
Arguments mkTagged {V}.
Arguments entries {V}.
Arguments cycle {V}.

Inductive Policy := PerCycle | UntilInvalidated.

Section tagged.
Context {V : Type}.
Implicit Types (c : tagged V) (e : Entry V) (t : Tag) (k : QueryKey).

Definition empty_tagged : tagged V := mkTagged ∅ 0.

Definition fresh_value e : option V := if stale e then None else Some (value e).

Definition find_tagged k c : option V := entries c !! k ≫= fresh_value.

Definition fill_tagged k (ts : list Tag) (v : V) c : tagged V :=
  mkTagged (<[k := mkEntry v (cycle c) ts false]> (entries c)) (cycle c).

Definition mark_stale e : Entry V :=
  mkEntry (value e) (createdAt e) (scopeTags e) true.

(** The entry carries exactly this tag. *)
Definition carries t e : bool := bool_decide (t ∈ scopeTags e).

(** The entry carries the scope or a tag nested under it. *)
Definition under t e : bool :=
  bool_decide (Exists (λ t', t `prefix_of` t') (scopeTags e)).

Definition mark_if (p : Entry V → bool) c : tagged V :=
  mkTagged ((λ e, if p e then mark_stale e else e) <$> entries c) (cycle c).

(** Exact-scope invalidation. *)
Definition invalidate t c : tagged V := mark_if (carries t) c.

(** Subtree invalidation. *)
Definition invalidate_subtree t c : tagged V := mark_if (under t) c.

(** The trigger mutation handlers call once the mutation is persisted. *)
Definition onMutationSuccess (ts : list Tag) c : tagged V := foldr invalidate c ts.

(** The end of a cycle: the per-cycle policy clears the table. *)
Definition end_cycle (p : Policy) c : tagged V :=
  match p with
  | PerCycle => mkTagged ∅ (S (cycle c))
  | UntilInvalidated => mkTagged (entries c) (S (cycle c))
  end.

End tagged.

#[export] Program Instance tagged_cache {V} : ReadCache (tagged V) V := {|
  rc_find := find_tagged;
  rc_fill := fill_tagged
|}.
Next Obligation.
  intros. unfold find_tagged, fill_tagged. simpl. by rewrite lookup_insert_eq.
Qed.
Next Obligation.
  intros. unfold find_tagged, fill_tagged. simpl. by rewrite lookup_insert_ne.
Qed.

(** ** Caches up to what they answer *)

(** Two caches, of one or of two implementations, that answer every key
    alike. *)
Definition same_view {C D V} `{!ReadCache C V, !ReadCache D V} (c : C) (d : D) : Prop :=
  ∀ k, rc_find k c = rc_find k d.

(** Two programs, one over each of two caches, that cannot be told apart:
    run from caches that answer alike, on the same store, they end in the
    same outcome on the same store, with caches that answer alike. *)
Definition cache_blind {C D V S A} `{!ReadCache C V, !ReadCache D V}
    (m : Act (C * S) A) (m' : Act (D * S) A) : Prop :=
  ∀ c d s, same_view c d →
    ∃ o c' d' s', m (c, s) = (o, (c', s')) ∧ m' (d, s) = (o, (d', s')) ∧ same_view c' d'.

(** A step that works on the store alone. *)
Definition on_store {C S A} (m : Act S A) : Act (C * S) A :=
  zoom snd (λ s cs, (cs.1, s)) m.

Create HintDb cache discriminated.

(** The memo table a tagged table stands for: its fresh values. *)
Definition fresh_view {V} (c : tagged V) : memo V := omap fresh_value (entries c).

Section tagged_facts.
Context {V : Type}.
Implicit Types (c : tagged V) (e : Entry V) (t : Tag) (k : QueryKey)
  (p : Entry V → bool).

Lemma mark_stale_idemp e : mark_stale (mark_stale e) = mark_stale e.
Proof. done. Qed.

Lemma find_mark_if p k c :
  find_tagged k (mark_if p c) =
  entries c !! k ≫= λ e, if p e then None else fresh_value e.
Proof.
  unfold find_tagged, mark_if. simpl. rewrite lookup_fmap.
  destruct (entries c !! k) as [e|]; simpl; [|done]. by destruct (p e).
Qed.

(** Marking under a test that does not read the stale flag is idempotent. *)
Lemma mark_if_idemp p c :
  (∀ e, p (mark_stale e) = p e) → mark_if p (mark_if p c) = mark_if p c.
Proof.
  intros Hp. unfold mark_if. simpl. f_equal. rewrite <-map_fmap_compose.
  apply map_fmap_ext. intros k e _. simpl.
  destruct (p e) eqn:E; [by rewrite Hp, E | by rewrite E].
Qed.

(** [invalidate] twice is [invalidate] once. *)
Lemma invalidate_idemp t c : invalidate t (invalidate t c) = invalidate t c.
Proof. by apply mark_if_idemp. Qed.

Lemma invalidate_subtree_idemp t c :
  invalidate_subtree t (invalidate_subtree t c) = invalidate_subtree t c.
Proof. by apply mark_if_idemp. Qed.

(** Invalidating a tag no entry carries changes nothing. *)
Lemma invalidate_noop t c :
  map_Forall (λ _ e, t ∉ scopeTags e) (entries c) → invalidate t c = c.
Proof.
  intros H. destruct c as [m n]. unfold invalidate, mark_if. simpl in *. f_equal.
  rewrite <-(map_fmap_id m) at 2. apply map_fmap_ext. intros k e Hk.
  unfold carries. by rewrite bool_decide_eq_false_2 by by eapply H.
Qed.

(** Staleness: an entry that carries the tag is not served again. *)
Lemma find_invalidate_carried t k c e :
  entries c !! k = Some e → t ∈ scopeTags e → find_tagged k (invalidate t c) = None.
Proof.
  intros Hk Ht. unfold invalidate. rewrite find_mark_if, Hk. simpl.
  unfold carries. by rewrite bool_decide_eq_true_2.
Qed.

(** Entries that do not carry the tag are served as before. *)
Lemma find_invalidate_other t k c :
  (∀ e, entries c !! k = Some e → t ∉ scopeTags e) →
  find_tagged k (invalidate t c) = find_tagged k c.
Proof.
  intros H. unfold invalidate. rewrite find_mark_if. unfold find_tagged.
  destruct (entries c !! k) as [e|] eqn:Hk; simpl; [|done].
  unfold carries. by rewrite bool_decide_eq_false_2 by eauto.
Qed.

Lemma find_invalidate_subtree_under t t' k c e :
  entries c !! k = Some e → t' ∈ scopeTags e → t `prefix_of` t' →
  find_tagged k (invalidate_subtree t c) = None.
Proof.
  intros Hk Ht Hp. unfold invalidate_subtree. rewrite find_mark_if, Hk. simpl.
  unfold under. rewrite bool_decide_eq_true_2; [done|].
  apply Exists_exists. eauto.
Qed.

Lemma find_invalidate_subtree_other t k c :
  (∀ e t', entries c !! k = Some e → t' ∈ scopeTags e → ¬ t `prefix_of` t') →
  find_tagged k (invalidate_subtree t c) = find_tagged k c.
Proof.
  intros H. unfold invalidate_subtree. rewrite find_mark_if. unfold find_tagged.
  destruct (entries c !! k) as [e|] eqn:Hk; simpl; [|done].
  unfold under. rewrite bool_decide_eq_false_2; [done|].
  rewrite Exists_exists. intros (t' & ? & ?). by eapply H.
Qed.

(** What is served is the value of an entry that is not stale. *)
Lemma find_tagged_Some k c v :
  find_tagged k c = Some v ↔ ∃ e, entries c !! k = Some e ∧ stale e = false ∧ value e = v.
Proof.
  unfold find_tagged, fresh_value. destruct (entries c !! k) as [e|]; simpl.
  - destruct (stale e) eqn:Hs; [|naive_solver].
    split; [done|]. intros (? & [= <-] & ? & _). congruence.
  - split; [done|]. by intros (? & [=] & _).
Qed.

(** A filled key is served, also after an invalidation. *)
Lemma find_fill_tagged k ts v c : find_tagged k (fill_tagged k ts v c) = Some v.
Proof. unfold find_tagged, fill_tagged. simpl. by rewrite lookup_insert_eq. Qed.

Lemma entries_fill_tagged k ts v c :
  entries (fill_tagged k ts v c) !! k = Some (mkEntry v (cycle c) ts false).
Proof. apply lookup_insert_eq. Qed.

(** The laws of [get], read at the tagged table. *)
Lemma get_tagged_hit {S} k ts (loader : Act S V) c s v :
  find_tagged k c = Some v → get k ts loader (c, s) = (Done v, (c, s)).
Proof. apply (@get_hit _ _ _ tagged_cache). Qed.

Lemma get_tagged_miss {S} k ts (loader : Act S V) c s v s' :
  find_tagged k c = None → loader s = (Done v, s') →
  get k ts loader (c, s) = (Done v, (fill_tagged k ts v c, s')).
Proof. apply (@get_miss _ _ _ tagged_cache). Qed.

Lemma find_onMutationSuccess_carried t k c e :
  entries c !! k = Some e → t ∈ scopeTags e →
  find_tagged k (onMutationSuccess [t] c) = None.
Proof. apply find_invalidate_carried. Qed.

Lemma find_end_cycle_per_cycle k c : find_tagged k (end_cycle PerCycle c) = None.
Proof. done. Qed.

Lemma find_end_cycle_until k c :
  find_tagged k (end_cycle UntilInvalidated c) = find_tagged k c.
Proof. done. Qed.

End tagged_facts.

(** ** Refinement *)

Section simulation.
Context {C D V S : Type} `{!ReadCache C V, !ReadCache D V}.
Implicit Types (c : C) (d : D) (k : QueryKey) (ts : list Tag) (loader : Act S V).

Lemma same_view_fill k ts ts' v c d :
  same_view c d → same_view (rc_fill k ts v c) (rc_fill k ts' v d).
Proof.
  intros H k'. destruct (decide (k = k')) as [<-|Hne].
  - by rewrite !rc_find_fill.
  - by rewrite !rc_find_fill_ne.
Qed.

(** [get] cannot tell two caches apart that answer alike: it ends in the
    same outcome on the same store, and the caches still answer alike. *)
Lemma get_simulation k ts ts' loader c d s :
  same_view c d →
  ∃ o c' d' s', get k ts loader (c, s) = (o, (c', s')) ∧
                get k ts' loader (d, s) = (o, (d', s')) ∧ same_view c' d'.
Proof.
  intros H. unfold get. rewrite <-(H k).
  destruct (rc_find k c) as [v|]; [by exists (Done v), c, d, s|].
  destruct (loader s) as [[v| |p|msg] s']; eauto 10 using same_view_fill.
Qed.

(** Every program built from [get], steps on the store and the monad is
    blind to the cache it runs over: the four lemmas below are the cases
    of that induction, and the database [cache] applies them. *)
Lemma cache_blind_get k ts ts' loader :
  cache_blind (get (C:=C) k ts loader) (get (C:=D) k ts' loader).
Proof. intros c d s. apply get_simulation. Qed.

Lemma cache_blind_ret {A} (a : A) :
  cache_blind (V:=V) (mret a : Act (C * S) A) (mret a : Act (D * S) A).
Proof. intros c d s H. by exists (Done a), c, d, s. Qed.

Lemma cache_blind_unwind {A} (o : Outcome A) :
  cache_blind (V:=V) (unwind o : Act (C * S) A) (unwind o : Act (D * S) A).
Proof. intros c d s H. by exists o, c, d, s. Qed.

Lemma cache_blind_on_store {A} (m : Act S A) :
  cache_blind (V:=V) (on_store (C:=C) m) (on_store (C:=D) m).
Proof.
  intros c d s H. unfold on_store, zoom. simpl.
  destruct (m s) as [o s']. by exists o, c, d, s'.
Qed.

Lemma cache_blind_bind {A B} (m : Act (C * S) A) (m' : Act (D * S) A)
    (f : A → Act (C * S) B) (f' : A → Act (D * S) B) :
  cache_blind (V:=V) m m' → (∀ a, cache_blind (V:=V) (f a) (f' a)) →
  cache_blind (V:=V) (m ≫= f) (m' ≫= f').
Proof.
  intros Hm Hf c d s H. destruct (Hm c d s H) as (o & c1 & d1 & s1 & Hc & Hd & H1).
  unfold mbind, Act_bind. rewrite Hc, Hd.
  destruct o as [a| |p|msg]; [by apply Hf | by eauto 10..].
Qed.

End simulation.

Section refinement.
Context {V S : Type}.
Implicit Types (c : tagged V) (k : QueryKey) (t : Tag).

(** The tagged table answers as the memo table it stands for ... *)
Lemma tagged_same_view c : same_view c (fresh_view c).
Proof. intros k. unfold fresh_view. simpl. by rewrite lookup_omap. Qed.

(** ... a fill is an insertion ... *)
Lemma fresh_view_fill k ts v c :
  fresh_view (fill_tagged k ts v c) = <[k:=v]> (fresh_view c).
Proof. unfold fresh_view, fill_tagged. simpl. by apply omap_insert_Some. Qed.

(** ... and an invalidation only removes answers. *)
Lemma fresh_view_invalidate t c : fresh_view (invalidate t c) ⊆ fresh_view c.
Proof.
  apply map_subseteq_spec. intros k v. unfold fresh_view. rewrite !lookup_omap.
  unfold invalidate, mark_if. simpl. rewrite lookup_fmap.
  destruct (entries c !! k) as [e|]; simpl; [|done]. by destruct (carries t e).
Qed.

(** Functional refinement: [get] on the tagged table, seen through
    [fresh_view], is [get] on the memo table. *)
Lemma get_tagged_refines_memo k ts (loader : Act S V) c s :
  let '(o, (c', s')) := get k ts loader (c, s) in
  get k ts loader (fresh_view c, s) = (o, (fresh_view c', s')).
Proof.
  unfold get. rewrite <-(tagged_same_view c k).
  destruct (rc_find k c) as [v|]; [done|].
  destruct (loader s) as [[v| |p|msg] s']; try done.
  simpl. by rewrite fresh_view_fill.
Qed.

End refinement.

#[export] Hint Rewrite @find_end_cycle_until @find_end_cycle_per_cycle : js_rw.
#[export] Hint Resolve get_hit get_done_find : js.
#[export] Hint Resolve cache_blind_get cache_blind_ret cache_blind_unwind
  cache_blind_on_store cache_blind_bind : cache.
