(* ===== verification/Messages.v ===== *)
(** * The messages feature (6-caching)

    - lib/messages.js: the table [messages] of messages.db ([initDb],
      [addMessage]) and the memoised read [getMessages], which is
      [ReadCache.get] over the per-request memo with the query as loader;
    - app/messages/layout.js and app/messages/page.js: the two components of
      one render pass that both call [getMessages];
    - app/messages/new/page.js: the form and its server action
      [createMessage].

    The state a call works on is [Env]: the table and the console.  The
    request level ([Server], [serve_messages], [submit]) adds the route
    cache of the framework, modelled from the specification as a
    [ReadCache.tagged] table with its end-of-cycle policy. *)

From stdpp Require Import prelude strings list sorting gmap.
From S2P Require Import Prelude ReadCache.

(** ** lib/messages.js *)

(** A row of [messages (id INTEGER PRIMARY KEY, text TEXT)]; [None] is SQL
    NULL. *)
Record MessageRow := mkMessage {
  msg_id : Z;
  msg_text : option string
}.

#[export] Instance MessageRow_eq_dec : EqDecision MessageRow.
Proof. solve_decision. Defined.

(** The database file and the console.  [messages_db] is [None] until the
    table exists; its rows are kept in rowid order, the order in which a
    table scan returns them. *)
Record Env := mkEnv {
  messages_db : option (list MessageRow);
  console : list string
}.

Definition set_db (t : option (list MessageRow)) (e : Env) : Env :=
  mkEnv t (console e).

Definition console_log (line : string) : Act Env () :=
  modify_state (λ e, mkEnv (messages_db e) (console e ++ [line])).

(** [CREATE TABLE IF NOT EXISTS messages (...)]. *)
Definition initDb : Act Env () :=
  modify_state (λ e,
    match messages_db e with
    | None => set_db (Some []) e
    | Some _ => e
    end).

(** The rowid SQLite gives a row inserted without one: 1 in an empty table,
    else one more than the largest in use. *)
Definition next_rowid (rows : list MessageRow) : Z :=
  rowid_after (msg_id <$> rows).

Definition no_such_table : string := "SqliteError: no such table: messages".

(** [INSERT INTO messages (text) VALUES (?)]. *)
Definition addMessage (message : option string) : Act Env () := λ e,
  match messages_db e with
  | None => (Throw no_such_table, e)
  | Some rows =>
      (Done (), set_db (Some (rows ++ [mkMessage (next_rowid rows) message])) e)
  end.

(** The function [cache] wraps: it logs, then runs
    [SELECT * FROM messages]. *)
Definition fetchMessages : Act Env (list MessageRow) :=
  console_log "Fetching messages from db";;
  e ← get_state;
  match messages_db e with
  | None => unwind (Throw no_such_table)
  | Some rows => mret rows
  end.

(** ** The components *)

Inductive ServerAction := CreateMessage.

(** What the trees of this feature carry besides strings and numbers. *)
Inductive MsgData :=
| DMessages (rows : list MessageRow)
| DAction (a : ServerAction).

(** What app/messages/page.js returns for the rows it read. *)
Definition page_view (messages : list MessageRow) : Html MsgData :=
  if bool_decide (length messages = 0)
  then Node "p" [] [Text "No messages found"]
  else Node "Messages" [("messages", AData (DMessages messages))] [].

(** What app/messages/layout.js returns around its children. *)
Definition layout_view (totalMessages : Z) (children : Html MsgData) : Html MsgData :=
  Fragment [
    Node "h1" [] [Text "Important Messages"];
    Node "p" [] [Val (ANum totalMessages); Text " messages found"];
    Node "hr" [] [];
    children ].

Section components.
Context {C : Type} `{!ReadCache C (list MessageRow)}.

(** [getMessages = cache(function getMessages() {...})]: memoised under the
    function's own key, with no scope tags.  [cache] is React's and not
    among the sources; [get] is the read cache of the specification, which
    keeps nothing of a load that threw.  What React keeps of one does not
    show on the servers modelled here: [initDb] creates the table before
    any request, so the load returns ([reachable_has_table]). *)
Definition getMessages : Act (C * Env) (list MessageRow) :=
  get "getMessages" [] fetchMessages.

(** app/messages/page.js.  An array is truthy, so [!messages] is false and
    the test is the one on the length. *)
Definition MessagesPage : Act (C * Env) (Html MsgData) :=
  messages ← getMessages;
  mret (page_view messages).

(** app/messages/layout.js.  The body runs before the children render. *)
Definition MessagesLayout (children : Act (C * Env) (Html MsgData))
  : Act (C * Env) (Html MsgData) :=
  messages ← getMessages;
  let totalMessages := Z.of_nat (length messages) in
  kids ← children;
  mret (layout_view totalMessages kids).

End components.

(** ** app/messages/new/page.js *)

(** The fields of a submitted form, in order. *)
Definition FormData : Type := list (string * string).

(** [formData.get(name)]: the first value of that name, or [null]. *)
Fixpoint formData_get (name : string) (fd : FormData) : option string :=
  match fd with
  | [] => None
  | (n, v) :: rest => if bool_decide (n = name) then Some v else formData_get name rest
  end.

(** The server action: the insert, then the redirect; the calls that would
    revalidate are commented out in the source. *)
Definition createMessage (formData : FormData) : Act Env () :=
  let message := formData_get "message" formData in
  addMessage message;;
  unwind (Redirect "/messages").

Definition NewMessagePage : Html MsgData :=
  Fragment [
    Node "h2" [] [Text "New Message"];
    Node "form" [("action", AData (DAction CreateMessage))] [
      Node "p" [("className", AStr "form-control")] [
        Node "label" [("htmlFor", AStr "message")] [Text "Your Message"];
        Node "textarea" [("id", AStr "message"); ("name", AStr "message");
                         ("required", ABool true); ("rows", AStr "5")] [] ];
      Node "p" [("className", AStr "form-actions")] [
        Node "button" [("type", AStr "submit")] [Text "Send"] ] ] ].

(** ** Requests *)

(** One render pass of /messages: layout around page, sharing a memo that
    lives for the pass. *)
Definition render_messages : Act Env (Html MsgData) :=
  with_fresh_memo (MessagesLayout MessagesPage).

(** The server: what lib/messages.js works on, and the route cache. *)
Record Server := mkServer {
  env : Env;
  routes : tagged (Html MsgData)
}.

Definition messages_scope : list string := ["messages"].

(** GET /messages: the route is read through the route cache, tagged with
    its own path; the cycle then ends under the configured policy. *)
Definition serve_messages (p : Policy) : Act Server (Html MsgData) := λ srv,
  let '(o, (c, e)) :=
    get "/messages" [messages_scope] render_messages (routes srv, env srv) in
  (o, mkServer e (end_cycle p c)).

(** The form post: [createMessage] against the environment.  The route
    cache is not touched. *)
Definition submit (formData : FormData) : Act Server () :=
  zoom env (λ e srv, mkServer e (routes srv)) (createMessage formData).

(** The action with line 12 of the source restored:
    [revalidatePath('/messages')] between the insert and the redirect. *)
Definition createMessage_revalidating (formData : FormData) : Act Server () :=
  zoom env (λ e srv, mkServer e (routes srv))
    (addMessage (formData_get "message" formData));;
  modify_state (λ srv, mkServer (env srv) (onMutationSuccess [messages_scope] (routes srv)));;
  unwind (Redirect "/messages").

(** ** Well-formed tables *)

(** The primary key: rowids strictly increase along the table. *)
Definition wf_table (rows : list MessageRow) : Prop :=
  StronglySorted Z.lt (msg_id <$> rows).

#[export] Instance wf_table_dec rows : Decision (wf_table rows).
Proof. unfold wf_table. apply _. Defined.

Definition wf_env (e : Env) : Prop :=
  match messages_db e with
  | None => True
  | Some rows => wf_table rows
  end.

(** ** The request state machine *)

Inductive Request :=
| GetMessages
| PostMessage (formData : FormData).

Definition handle (p : Policy) (r : Request) (srv : Server) : Server :=
  match r with
  | GetMessages => (serve_messages p srv).2
  | PostMessage formData => (submit formData srv).2
  end.

(** Module load runs [initDb()] (line 14); the route cache starts empty. *)
Definition boot (e : Env) : Server := mkServer (initDb e).2 empty_tagged.

(** The servers a database file can lead to under a policy. *)
Inductive reachable (p : Policy) (e0 : Env) : Server → Prop :=
| reach_boot : reachable p e0 (boot e0)
| reach_step srv r : reachable p e0 srv → reachable p e0 (handle p r srv).

(** The environment after one fetch was logged. *)
Definition logged (e : Env) : Env :=
  mkEnv (messages_db e) (console e ++ ["Fetching messages from db"]).

(** The tree of /messages for a table. *)
Definition messages_tree (rows : list MessageRow) : Html MsgData :=
  layout_view (Z.of_nat (length rows)) (page_view rows).

(** A page held by the route cache shows a prefix of the table. *)
Definition cached_page_ok (srv : Server) : Prop :=
  ∀ page, find_tagged "/messages" (routes srv) = Some page →
    ∃ rows rest, messages_db (env srv) = Some (rows ++ rest) ∧ page = messages_tree rows.

Definition server_inv (srv : Server) : Prop :=
  wf_env (env srv) ∧ is_Some (messages_db (env srv)) ∧ cached_page_ok srv.

(** How many times the query ran, as the console shows it. *)
Definition fetch_count (e : Env) : nat :=
  length (filter (λ line, line = "Fetching messages from db") (console e)).

(** The row [createMessage] inserts into a table for a submitted form. *)
Definition inserted (rows : list MessageRow) (formData : FormData) : MessageRow :=
  mkMessage (next_rowid rows) (formData_get "message" formData).

(** Another request acting on the store in the middle of a render pass. *)
Definition interfere {C} (f : Env → Env) : Act (C * Env) () :=
  modify_state (λ '(c, e), (c, f e)).

(** Under the per-cycle policy no page outlives its request. *)
Definition per_cycle_empty (p : Policy) (srv : Server) : Prop :=
  p = PerCycle → find_tagged "/messages" (routes srv) = None.

#[export] Instance wf_env_dec e : Decision (wf_env e).
Proof. unfold wf_env. destruct (messages_db e); apply _. Defined.

(** ** Sample data *)

Definition sample_rows : list MessageRow :=
  [mkMessage 1 (Some "first"); mkMessage 2 (Some "second"); mkMessage 5 None].

Definition sample_env : Env := mkEnv (Some sample_rows) [].

Definition sample_server : Server := mkServer sample_env empty_tagged.

Definition sample_form : FormData := [("message", "hi")].

(** ** The table *)

Section table_facts.
Implicit Types (rows : list MessageRow) (r : MessageRow) (e : Env).

(** The rowid of an insert is above every rowid in use. *)
Lemma next_rowid_above rows : Forall (λ r, msg_id r < next_rowid rows)%Z rows.
Proof.
  pose proof (rowid_after_above (msg_id <$> rows)) as H.
  by rewrite Forall_fmap in H.
Qed.

Lemma wf_table_snoc rows r :
  wf_table rows → Forall (λ x, msg_id x < msg_id r)%Z rows → wf_table (rows ++ [r]).
Proof.
  unfold wf_table. rewrite fmap_app. intros Hwf Hlt.
  apply increasing_snoc; [done|]. by rewrite Forall_fmap.
Qed.

Lemma addMessage_done rows m e :
  messages_db e = Some rows →
  addMessage m e = (Done (), set_db (Some (rows ++ [mkMessage (next_rowid rows) m])) e).
Proof. intros H. unfold addMessage. by rewrite H. Qed.

Lemma fetchMessages_done rows e :
  messages_db e = Some rows → fetchMessages e = (Done rows, logged e).
Proof. destruct e as [db con]. simpl. by intros ->. Qed.

Lemma fetchMessages_missing e :
  messages_db e = None → fetchMessages e = (Throw no_such_table, logged e).
Proof. destruct e as [db con]. simpl. by intros ->. Qed.

Lemma fetch_count_logged e : fetch_count (logged e) = S (fetch_count e).
Proof.
  unfold fetch_count, logged. simpl. rewrite filter_app, length_app.
  rewrite filter_cons_True by done. simpl. lia.
Qed.

Lemma messages_tree_inj rows rows' :
  messages_tree rows = messages_tree rows' → length rows = length rows'.
Proof. unfold messages_tree, layout_view, Fragment. intros H. simplify_eq. lia. Qed.

End table_facts.

(** ** The components, against the cache interface *)

Section component_facts.
Context {C : Type} `{!ReadCache C (list MessageRow)}.
Implicit Types (c : C) (e : Env) (rows : list MessageRow).

Lemma getMessages_miss c e rows :
  rc_find "getMessages" c = None → messages_db e = Some rows →
  getMessages (c, e) = (Done rows, (rc_fill "getMessages" [] rows c, logged e)).
Proof. intros. apply get_miss; [done|]. by apply fetchMessages_done. Qed.

Lemma getMessages_hit c e rows :
  rc_find "getMessages" c = Some rows → getMessages (c, e) = (Done rows, (c, e)).
Proof. apply get_hit. Qed.

Lemma MessagesPage_hit c e rows :
  rc_find "getMessages" c = Some rows →
  MessagesPage (c, e) = (Done (page_view rows), (c, e)).
Proof.
  intros H. unfold MessagesPage. by erewrite act_bind_done by by apply getMessages_hit.
Qed.

(** Layout then page: the first call loads, the second is served from the
    cache, for every cache that meets the interface. *)
Lemma layout_page_single_fetch c e rows :
  rc_find "getMessages" c = None → messages_db e = Some rows →
  MessagesLayout MessagesPage (c, e) =
    (Done (messages_tree rows), (rc_fill "getMessages" [] rows c, logged e)).
Proof.
  intros Hc He. unfold MessagesLayout.
  erewrite act_bind_done by by apply getMessages_miss.
  erewrite act_bind_done; [done|]. apply MessagesPage_hit, rc_find_fill.
Qed.

(** C7. Referential stability within a cycle: whatever another request
    does to the store between the layout's read and the page's read
    ([interfere f]), the page renders the rows the layout counted, and the
    query is not run again. *)
Theorem page_agrees_with_layout c e rows (f : Env → Env) :
  rc_find "getMessages" c = None → messages_db e = Some rows →
  MessagesLayout (interfere f;; MessagesPage) (c, e) =
    (Done (messages_tree rows), (rc_fill "getMessages" [] rows c, f (logged e))).
Proof.
  intros Hc He. unfold MessagesLayout.
  erewrite act_bind_done by by apply getMessages_miss.
  erewrite act_bind_done; [done|].
  erewrite act_bind_done by done. apply MessagesPage_hit, rc_find_fill.
Qed.

End component_facts.

Lemma page_agrees_with_layout_witness :
  MessagesLayout (interfere (set_db (Some []));; MessagesPage) (∅ : gmap string _, sample_env) =
    (Done (messages_tree sample_rows),
     (rc_fill "getMessages" [] sample_rows ∅, set_db (Some []) (logged sample_env))).
Proof. apply (page_agrees_with_layout (C:=gmap string _)); reflexivity. Defined.

Lemma render_messages_done e rows :
  messages_db e = Some rows → render_messages e = (Done (messages_tree rows), logged e).
Proof.
  intros H. unfold render_messages, with_fresh_memo.
  by rewrite (layout_page_single_fetch ∅ e rows).
Qed.

(** C1. Memoisation: one render pass of /messages, in which the layout and
    the page both call [getMessages], runs the query exactly once, leaves
    the table alone, and shows the same rows in the count of the layout and
    in the list of the page. *)
Theorem render_messages_single_fetch e rows :
  messages_db e = Some rows →
  ∃ e', render_messages e = (Done (messages_tree rows), e') ∧
        fetch_count e' = S (fetch_count e) ∧ messages_db e' = Some rows.
Proof.
  intros H. exists (logged e). rewrite (render_messages_done e rows H).
  by rewrite fetch_count_logged.
Qed.

Lemma render_messages_single_fetch_witness :
  ∃ e', render_messages sample_env = (Done (messages_tree sample_rows), e') ∧
        fetch_count e' = S (fetch_count sample_env) ∧ messages_db e' = Some sample_rows.
Proof. apply (render_messages_single_fetch sample_env sample_rows). reflexivity. Defined.

(** ** lib/messages.js: inserts and initialisation *)

(** [addMessage] on an existing table returns, appends exactly one
    row that holds the message, keeps every earlier row in place, and gives
    the new row a rowid above all rowids in use; the console is untouched. *)
Theorem addMessage_appends_fresh_row e rows m :
  messages_db e = Some rows →
  ∃ r, addMessage m e = (Done (), mkEnv (Some (rows ++ [r])) (console e)) ∧
       msg_text r = m ∧ Forall (λ x, msg_id x < msg_id r)%Z rows ∧
       msg_id r ∉ (msg_id <$> rows).
Proof.
  intros H. exists (mkMessage (next_rowid rows) m).
  pose proof (next_rowid_above rows) as Habove.
  split_and!; [by apply addMessage_done | done | done |].
  rewrite list_elem_of_fmap. intros (x & Hx & Hin).
  rewrite Forall_forall in Habove. apply Habove in Hin. simpl in Hx. lia.
Qed.

Lemma addMessage_appends_fresh_row_witness :
  ∃ r, addMessage (Some "hi") sample_env =
         (Done (), mkEnv (Some (sample_rows ++ [r])) (console sample_env)) ∧
       msg_text r = Some "hi" ∧ Forall (λ x, msg_id x < msg_id r)%Z sample_rows ∧
       msg_id r ∉ (msg_id <$> sample_rows).
Proof. apply (addMessage_appends_fresh_row sample_env sample_rows). reflexivity. Defined.

(** The primary key survives an insert: on a table whose rowids
    strictly increase, [addMessage] leaves a table whose rowids strictly
    increase. *)
Theorem addMessage_preserves_wf e m : wf_env e → wf_env (addMessage m e).2.
Proof.
  unfold wf_env at 1. destruct (messages_db e) as [rows|] eqn:Hdb.
  - intros Hwf. rewrite (addMessage_done rows m e Hdb).
    apply wf_table_snoc; [done | apply next_rowid_above].
  - intros _. unfold addMessage, wf_env. rewrite Hdb. simpl. by rewrite Hdb.
Qed.

Lemma addMessage_preserves_wf_witness : wf_env (addMessage None sample_env).2.
Proof. apply (addMessage_preserves_wf sample_env None). by apply (bool_decide_unpack _). Defined.

(** [initDb] makes the table exist, keeps the rows of a table that
    exists already (CREATE TABLE IF NOT EXISTS), and running it again
    changes nothing; after it, [addMessage] never throws. *)
Theorem initDb_creates_once e :
  is_Some (messages_db (initDb e).2) ∧
  (is_Some (messages_db e) → (initDb e).2 = e) ∧
  (initDb (initDb e).2).2 = (initDb e).2 ∧
  ∀ m, is_done (addMessage m (initDb e).2).1 = true.
Proof.
  destruct e as [[rows|] con]; cbn; split_and!; try done; by eexists.
Qed.

(** ** The server *)

Section server_facts.
Implicit Types (srv : Server) (p : Policy) (rows : list MessageRow) (fd : FormData).

Lemma serve_hit p srv page :
  find_tagged "/messages" (routes srv) = Some page →
  serve_messages p srv = (Done page, mkServer (env srv) (end_cycle p (routes srv))).
Proof.
  intros H. unfold serve_messages.
  by rewrite (get_tagged_hit _ _ _ _ _ page H).
Qed.

Lemma serve_miss p srv rows :
  find_tagged "/messages" (routes srv) = None → messages_db (env srv) = Some rows →
  serve_messages p srv =
    (Done (messages_tree rows),
     mkServer (logged (env srv))
       (end_cycle p (fill_tagged "/messages" [messages_scope] (messages_tree rows) (routes srv)))).
Proof.
  intros H1 H2. unfold serve_messages.
  by rewrite (get_tagged_miss _ _ _ _ _ _ _ H1 (render_messages_done _ _ H2)).
Qed.

Lemma submit_done srv fd rows :
  messages_db (env srv) = Some rows →
  submit fd srv =
    (Redirect "/messages",
     mkServer (set_db (Some (rows ++ [inserted rows fd])) (env srv)) (routes srv)).
Proof.
  intros H. unfold submit, zoom, createMessage.
  by erewrite act_bind_done by by apply addMessage_done.
Qed.

(** C3. The page goes stale: with the route cached until invalidated,
    GET /messages, then the form post, then GET /messages again serves the
    page of the first GET, although the table now holds the new row.  The
    action redirects and never invalidates. *)
Theorem stale_page_after_createMessage srv fd rows :
  find_tagged "/messages" (routes srv) = None → messages_db (env srv) = Some rows →
  ∃ srv1 srv2 srv3,
    serve_messages UntilInvalidated srv = (Done (messages_tree rows), srv1) ∧
    submit fd srv1 = (Redirect "/messages", srv2) ∧
    serve_messages UntilInvalidated srv2 = (Done (messages_tree rows), srv3) ∧
    messages_db (env srv3) = Some (rows ++ [inserted rows fd]) ∧
    messages_tree rows ≠ messages_tree (rows ++ [inserted rows fd]).
Proof.
  intros Hc Hdb. eexists _, _, _.
  split; [by apply serve_miss|].
  split; [by apply submit_done|].
  split; [apply serve_hit, find_fill_tagged|].
  split; [done|]. intros Heq%messages_tree_inj. rewrite length_app in Heq. simpl in Heq. lia.
Qed.

(** C8. Scenario 1 of the specification: with the revalidation restored
    in the action, the GET after the post re-renders and shows the table
    with the new row. *)
Theorem revalidation_shows_new_message srv fd rows :
  find_tagged "/messages" (routes srv) = None → messages_db (env srv) = Some rows →
  ∃ srv1 srv2 srv3,
    serve_messages UntilInvalidated srv = (Done (messages_tree rows), srv1) ∧
    createMessage_revalidating fd srv1 = (Redirect "/messages", srv2) ∧
    serve_messages UntilInvalidated srv2 =
      (Done (messages_tree (rows ++ [inserted rows fd])), srv3).
Proof.
  intros Hc Hdb. eexists _, _, _.
  split; [by apply serve_miss|].
  split.
  { unfold createMessage_revalidating, zoom.
    erewrite act_bind_done; [done|]. simpl. by erewrite addMessage_done. }
  apply serve_miss; [|done]. simpl.
  eapply find_onMutationSuccess_carried; [apply entries_fill_tagged|]. set_solver.
Qed.

(** Under the per-cycle policy the unchanged action is enough: every
    GET renders the table as it is. *)
Theorem per_cycle_policy_is_fresh srv fd rows :
  messages_db (env srv) = Some rows → find_tagged "/messages" (routes srv) = None →
  ∃ srv1 srv2 srv3,
    serve_messages PerCycle srv = (Done (messages_tree rows), srv1) ∧
    submit fd srv1 = (Redirect "/messages", srv2) ∧
    serve_messages PerCycle srv2 = (Done (messages_tree (rows ++ [inserted rows fd])), srv3).
Proof.
  intros Hdb Hc. eexists _, _, _.
  split; [by apply serve_miss|].
  split; [by apply submit_done|]. by apply serve_miss.
Qed.

End server_facts.

Lemma stale_page_after_createMessage_witness :
  ∃ srv1 srv2 srv3,
    serve_messages UntilInvalidated sample_server = (Done (messages_tree sample_rows), srv1) ∧
    submit sample_form srv1 = (Redirect "/messages", srv2) ∧
    serve_messages UntilInvalidated srv2 = (Done (messages_tree sample_rows), srv3) ∧
    messages_db (env srv3) = Some (sample_rows ++ [inserted sample_rows sample_form]) ∧
    messages_tree sample_rows ≠ messages_tree (sample_rows ++ [inserted sample_rows sample_form]).
Proof. apply (stale_page_after_createMessage sample_server sample_form sample_rows); reflexivity. Defined.

Lemma revalidation_shows_new_message_witness :
  ∃ srv1 srv2 srv3,
    serve_messages UntilInvalidated sample_server = (Done (messages_tree sample_rows), srv1) ∧
    createMessage_revalidating sample_form srv1 = (Redirect "/messages", srv2) ∧
    serve_messages UntilInvalidated srv2 =
      (Done (messages_tree (sample_rows ++ [inserted sample_rows sample_form])), srv3).
Proof. apply (revalidation_shows_new_message sample_server sample_form sample_rows); reflexivity. Defined.

Lemma per_cycle_policy_is_fresh_witness :
  ∃ srv1 srv2 srv3,
    serve_messages PerCycle sample_server = (Done (messages_tree sample_rows), srv1) ∧
    submit sample_form srv1 = (Redirect "/messages", srv2) ∧
    serve_messages PerCycle srv2 =
      (Done (messages_tree (sample_rows ++ [inserted sample_rows sample_form])), srv3).
Proof. apply (per_cycle_policy_is_fresh sample_server sample_form sample_rows); reflexivity. Defined.

(** ** Invariants of the reachable servers *)

Section invariant.
Implicit Types (srv : Server) (p : Policy) (r : Request) (e : Env).

Lemma serve_preserves_inv p srv :
  server_inv srv → per_cycle_empty p srv →
  server_inv (serve_messages p srv).2 ∧ per_cycle_empty p (serve_messages p srv).2.
Proof.
  intros (Hwf & [rows Hdb] & Hok) Hp.
  destruct (find_tagged "/messages" (routes srv)) as [page|] eqn:Hc.
  - rewrite (serve_hit p srv page Hc). simpl. destruct p.
    + specialize (Hp eq_refl). congruence.
    + split; [|done]. split_and!; [done | by exists rows | done].
  - rewrite (serve_miss p srv rows Hc Hdb). simpl.
    split; [|by intros ->]. split_and!; [done | by exists rows |].
    intros page. cbn [routes env]. destruct p; autorewrite with js_rw; [done|].
    rewrite find_fill_tagged.
    intros [= <-]. exists rows, []. by rewrite app_nil_r.
Qed.

Lemma submit_preserves_inv p srv fd :
  server_inv srv → per_cycle_empty p srv →
  server_inv (submit fd srv).2 ∧ per_cycle_empty p (submit fd srv).2.
Proof.
  intros (Hwf & [rows Hdb] & Hok) Hp. rewrite (submit_done srv fd rows Hdb). simpl.
  split; [|done]. split_and!; [| by eexists |].
  - unfold wf_env in *. rewrite Hdb in Hwf. simpl.
    apply wf_table_snoc; [done|]. apply next_rowid_above.
  - intros page (rows0 & rest & Hr & ->)%Hok. rewrite Hdb in Hr. simplify_eq.
    exists rows0, (rest ++ [inserted (rows0 ++ rest) fd]). simpl. by rewrite app_assoc.
Qed.

Lemma boot_inv p e : wf_env e → server_inv (boot e) ∧ per_cycle_empty p (boot e).
Proof.
  intros Hwf. split; [|done]. destruct e as [[rows|] con].
  - split_and!; [done | by eexists | done].
  - split_and!; [constructor | by eexists | done].
Qed.

(** Every reachable server has its table, with increasing rowids, and a
    cached page, if any, that shows a prefix of the table. *)
Lemma reachable_inv p e0 srv :
  wf_env e0 → reachable p e0 srv → server_inv srv ∧ per_cycle_empty p srv.
Proof.
  intros Hwf. induction 1 as [|srv r _ [IH1 IH2]]; [by apply boot_inv|].
  destruct r; [by apply serve_preserves_inv | by apply submit_preserves_inv].
Qed.

(** The table exists on every server, whatever the file was at the
    start: [initDb] creates it and no request drops it.  The load of
    [getMessages] therefore never throws on a server that ran. *)
Lemma reachable_has_table p e0 srv :
  reachable p e0 srv → is_Some (messages_db (env srv)).
Proof.
  induction 1 as [|srv r _ [rows Hdb]]; [by destruct e0 as [[?|] ?]|].
  destruct r as [|fd]; simpl.
  - destruct (find_tagged "/messages" (routes srv)) as [page|] eqn:Hc.
    + rewrite (serve_hit p srv page Hc). simpl. destruct p; by exists rows.
    + rewrite (serve_miss p srv rows Hc Hdb). by exists rows.
  - rewrite (submit_done srv fd rows Hdb). by eexists.
Qed.

(** C13. GET /messages on a reachable server always returns a page, and
    the page shows a prefix of the table (rows are only ever appended): all
    of it under the per-cycle policy, possibly an older state when routes
    are cached until invalidated. *)
Theorem reachable_serve_returns p e0 srv :
  wf_env e0 → reachable p e0 srv →
  ∃ shown rest srv',
    serve_messages p srv = (Done (messages_tree shown), srv') ∧
    messages_db (env srv') = Some (shown ++ rest) ∧ wf_table (shown ++ rest) ∧
    (p = PerCycle → rest = []).
Proof.
  intros Hwf Hr. destruct (reachable_inv p e0 srv Hwf Hr) as [(Hw & [rows Hdb] & Hok) Hp].
  unfold wf_env in Hw. rewrite Hdb in Hw.
  destruct (find_tagged "/messages" (routes srv)) as [page|] eqn:Hc.
  - destruct (Hok page Hc) as (shown & rest & Hs & ->). simplify_eq.
    exists shown, rest. eexists. rewrite (serve_hit p srv _ Hc). simpl.
    split_and!; [done..|]. intros Hp'. apply Hp in Hp'. congruence.
  - exists rows, []. eexists. rewrite (serve_miss p srv rows Hc Hdb). simpl.
    rewrite app_nil_r. by split_and!.
Qed.

(** C14. The form post on a reachable server never throws: it redirects
    to /messages, appends the row of the form to the table, keeps the
    primary key, and leaves the route cache exactly as it was. *)
Theorem reachable_submit_redirects p e0 srv fd :
  wf_env e0 → reachable p e0 srv →
  ∃ rows srv',
    messages_db (env srv) = Some rows ∧
    submit fd srv = (Redirect "/messages", srv') ∧
    messages_db (env srv') = Some (rows ++ [inserted rows fd]) ∧
    routes srv' = routes srv ∧ wf_env (env srv').
Proof.
  intros Hwf Hr. destruct (reachable_inv p e0 srv Hwf Hr) as [Hinv Hp].
  destruct (submit_preserves_inv p srv fd Hinv Hp) as [(Hw' & _) _].
  destruct Hinv as (_ & [rows Hdb] & _). exists rows. eexists.
  rewrite (submit_done srv fd rows Hdb) in *. by split_and!.
Qed.

End invariant.

Lemma sample_reachable p :
  reachable p sample_env
    (handle p GetMessages (handle p (PostMessage sample_form) (handle p GetMessages (boot sample_env)))).
Proof. repeat constructor. Qed.

Lemma reachable_serve_returns_witness :
  ∃ shown rest srv',
    serve_messages UntilInvalidated
      (handle UntilInvalidated GetMessages
         (handle UntilInvalidated (PostMessage sample_form)
            (handle UntilInvalidated GetMessages (boot sample_env)))) =
      (Done (messages_tree shown), srv') ∧
    messages_db (env srv') = Some (shown ++ rest) ∧ wf_table (shown ++ rest) ∧
    (UntilInvalidated = PerCycle → rest = []).
Proof.
  apply (reachable_serve_returns UntilInvalidated sample_env);
    [by apply (bool_decide_unpack _) | apply sample_reachable].
Defined.

Lemma reachable_submit_redirects_witness :
  ∃ rows srv',
    messages_db (env (boot sample_env)) = Some rows ∧
    submit sample_form (boot sample_env) = (Redirect "/messages", srv') ∧
    messages_db (env srv') = Some (rows ++ [inserted rows sample_form]) ∧
    routes srv' = routes (boot sample_env) ∧ wf_env (env srv').
Proof.
  apply (reachable_submit_redirects PerCycle sample_env);
    [by apply (bool_decide_unpack _) | constructor].
Defined.

(** A form without the field [message] stores a row whose text is NULL,
    and the action redirects all the same. *)
Theorem createMessage_missing_field_stores_null fd e rows :
  formData_get "message" fd = None → messages_db e = Some rows →
  createMessage fd e
  = (Redirect "/messages", set_db (Some (rows ++ [mkMessage (next_rowid rows) None])) e).
Proof.
  intros Hf He. unfold createMessage. rewrite Hf.
  by erewrite act_bind_done by by apply addMessage_done.
Qed.

Lemma createMessage_missing_field_stores_null_witness :
  createMessage [("text", "hello")] sample_env
  = (Redirect "/messages",
     set_db (Some (sample_rows ++ [mkMessage (next_rowid sample_rows) None])) sample_env).
Proof. by apply (createMessage_missing_field_stores_null [("text", "hello")] sample_env). Defined.

(** ** The render pass does not depend on the cache *)

Section cache_independence.
Context {C D : Type} `{!ReadCache C (list MessageRow), !ReadCache D (list MessageRow)}.
Implicit Types (c : C) (d : D) (e : Env).

Lemma getMessages_blind : cache_blind (getMessages (C:=C)) (getMessages (C:=D)).
Proof. apply cache_blind_get. Qed.

Lemma MessagesPage_blind : cache_blind (MessagesPage (C:=C)) (MessagesPage (C:=D)).
Proof. unfold MessagesPage. auto using getMessages_blind with cache. Qed.

Lemma MessagesLayout_blind children children' :
  cache_blind children children' →
  cache_blind (MessagesLayout (C:=C) children) (MessagesLayout (C:=D) children').
Proof. intros H. unfold MessagesLayout. auto 6 using getMessages_blind with cache. Qed.

Lemma interfere_blind (f : Env → Env) :
  cache_blind (V:=list MessageRow) (interfere (C:=C) f) (interfere (C:=D) f).
Proof. intros c d e H. by exists (Done ()), c, d, (f e). Qed.

End cache_independence.
