(* ===== verification/MessageIds.v ===== *)
(** * Row ids of the messages table

    [addMessage] of src/3 Udemy/6-caching/lib/messages.js inserts without an
    id: SQLite gives the row one more than the largest rowid in use
    ([next_rowid]), as long as that is below the largest 64-bit signed
    integer ([max_rowid]); the driver hands the id to JavaScript as a
    number, which is exact up to 2^53.  This file bounds the ids a server
    can reach: on a database whose ids are at most [m], the ids after [n]
    inserts are at most [m + n]; on a fresh database they are exactly
    1, ..., n.  So the model's "largest plus one" is what SQLite does unless
    the table holds 2^63 - 1 rows, and the ids are exact numbers unless it
    holds 2^53. *)

From stdpp Require Import prelude strings list sorting.
From S2P Require Import Prelude ReadCache Messages.

(** The largest rowid of SQLite. *)
Definition max_rowid : Z := (2 ^ 63 - 1)%Z.

(** The table a server starts with: the one of the database file, or the
    empty one [initDb] creates. *)
Definition initial_rows (e0 : Env) : list MessageRow := default [] (messages_db e0).

(** The rows a request adds to a table. *)
Definition added (r : Request) (rows : list MessageRow) : list MessageRow :=
  match r with
  | GetMessages => []
  | PostMessage formData => [inserted rows formData]
  end.

(** Ids between 1 and [m]. *)
Definition ids_upto (m : Z) (rows : list MessageRow) : Prop :=
  Forall (λ r, 1 ≤ msg_id r ≤ m)%Z rows.

#[export] Instance ids_upto_dec m rows : Decision (ids_upto m rows).
Proof. unfold ids_upto. apply _. Defined.

(** Ids 1, ..., n in this order. *)
Definition consecutive (rows : list MessageRow) : Prop :=
  msg_id <$> rows = Z.of_nat <$> seq 1 (length rows).

(** ** One request *)

Section steps.
Implicit Types (srv : Server) (p : Policy) (r : Request) (rows : list MessageRow) (m : Z).

Lemma boot_db e0 : messages_db (env (boot e0)) = Some (initial_rows e0).
Proof. unfold initial_rows. by destruct e0 as [[rows|] con]. Qed.

(** What a request does to the table: a GET nothing, a post one row at
    the end. *)
Lemma handle_db p r srv rows :
  messages_db (env srv) = Some rows →
  messages_db (env (handle p r srv)) = Some (rows ++ added r rows).
Proof.
  intros Hdb. destruct r as [|fd]; simpl.
  - rewrite app_nil_r. destruct (find_tagged "/messages" (routes srv)) as [page|] eqn:Hc.
    + by rewrite (serve_hit p srv page Hc).
    + by rewrite (serve_miss p srv rows Hc Hdb).
  - by rewrite (submit_done srv fd rows Hdb).
Qed.

Lemma next_rowid_le m rows : (0 ≤ m)%Z → ids_upto m rows → (1 ≤ next_rowid rows ≤ m + 1)%Z.
Proof.
  intros Hm Hrows. unfold next_rowid. split.
  - apply Z.lt_pred_le, rowid_after_pos. apply Forall_fmap.
    eapply Forall_impl; [done|]. simpl. lia.
  - apply rowid_after_le; [done|]. apply Forall_fmap.
    eapply Forall_impl; [done|]. simpl. lia.
Qed.

Lemma handle_ids_upto r rows m :
  (0 ≤ m)%Z → ids_upto m rows →
  ids_upto (m + Z.of_nat (length (added r rows))) (rows ++ added r rows).
Proof.
  intros Hm Hrows. unfold ids_upto. apply Forall_app. split.
  - eapply Forall_impl; [done|]. simpl. lia.
  - destruct r as [|fd]; simpl; [done|]. apply Forall_singleton. simpl.
    pose proof (next_rowid_le m rows Hm Hrows). lia.
Qed.

Lemma next_rowid_consecutive rows :
  consecutive rows → next_rowid rows = (Z.of_nat (length rows) + 1)%Z.
Proof.
  unfold consecutive, next_rowid. intros ->. apply rowid_after_seq.
Qed.

Lemma handle_consecutive r rows : consecutive rows → consecutive (rows ++ added r rows).
Proof.
  intros Hc. destruct r as [|fd]; simpl; [by rewrite app_nil_r|].
  unfold consecutive in *. rewrite fmap_app, length_app, seq_app, fmap_app, Hc. simpl.
  rewrite (next_rowid_consecutive rows Hc). do 3 f_equal. lia.
Qed.

End steps.

(** ** Every reachable server *)

(** C20. However many requests a server has handled, its table is the one it
    started with followed by the rows that were posted, and no id exceeds
    the largest initial id by more than the number of posts; so the id of
    the next insert stays below SQLite's limit, where "largest plus one" is
    what SQLite does, while the table has room. *)
Theorem reachable_rowids_bounded p e0 srv m :
  (0 ≤ m)%Z → ids_upto m (initial_rows e0) → reachable p e0 srv →
  ∃ new,
    messages_db (env srv) = Some (initial_rows e0 ++ new) ∧
    ids_upto (m + Z.of_nat (length new)) (initial_rows e0 ++ new) ∧
    (1 ≤ next_rowid (initial_rows e0 ++ new) ≤ m + Z.of_nat (length new) + 1)%Z ∧
    ((m + Z.of_nat (length new) < max_rowid)%Z →
     (next_rowid (initial_rows e0 ++ new) ≤ max_rowid)%Z).
Proof.
  intros Hm H0 Hr.
  assert (∃ new, messages_db (env srv) = Some (initial_rows e0 ++ new) ∧
                 ids_upto (m + Z.of_nat (length new)) (initial_rows e0 ++ new))
    as (new & Hdb & Hids).
  { induction Hr as [|srv r _ (new & Hdb & Hids)].
    - exists []. rewrite app_nil_r, boot_db. split; [done|].
      eapply Forall_impl; [done|]. simpl. lia.
    - exists (new ++ added r (initial_rows e0 ++ new)).
      rewrite (handle_db p r srv _ Hdb), app_assoc. split; [done|].
      rewrite length_app, Nat2Z.inj_add, Z.add_assoc.
      apply handle_ids_upto; [lia | done]. }
  assert (0 ≤ m + Z.of_nat (length new))%Z as Hm' by lia.
  exists new. pose proof (next_rowid_le _ _ Hm' Hids). split_and!; try done; lia.
Qed.

(** On a database that had no table, or an empty one, the ids are exactly
    1, ..., n: the rows are numbered in the order they were posted. *)
Theorem fresh_rowids_consecutive p e0 srv :
  initial_rows e0 = [] → reachable p e0 srv →
  ∃ rows, messages_db (env srv) = Some rows ∧ consecutive rows.
Proof.
  intros H0. induction 1 as [|srv r _ (rows & Hdb & Hc)].
  - exists []. by rewrite boot_db, H0.
  - exists (rows ++ added r rows). rewrite (handle_db p r srv rows Hdb).
    split; [done|]. by apply handle_consecutive.
Qed.

(** ** Examples *)

Lemma reachable_rowids_bounded_witness :
  ∃ new,
    messages_db (env (handle PerCycle (PostMessage sample_form) (boot sample_env)))
    = Some (initial_rows sample_env ++ new) ∧
    ids_upto (5 + Z.of_nat (length new)) (initial_rows sample_env ++ new) ∧
    (1 ≤ next_rowid (initial_rows sample_env ++ new) ≤ 5 + Z.of_nat (length new) + 1)%Z ∧
    ((5 + Z.of_nat (length new) < max_rowid)%Z →
     (next_rowid (initial_rows sample_env ++ new) ≤ max_rowid)%Z).
Proof.
  apply (reachable_rowids_bounded PerCycle sample_env
           (handle PerCycle (PostMessage sample_form) (boot sample_env)) 5).
  - lia.
  - by apply (bool_decide_unpack _).
  - apply reach_step, reach_boot.
Defined.

Lemma fresh_rowids_consecutive_witness :
  ∃ rows,
    messages_db (env (handle PerCycle (PostMessage sample_form) (boot (mkEnv None []))))
    = Some rows ∧ consecutive rows.
Proof.
  apply (fresh_rowids_consecutive PerCycle (mkEnv None [])
           (handle PerCycle (PostMessage sample_form) (boot (mkEnv None [])))).
  - reflexivity.
  - apply reach_step, reach_boot.
Defined.
