(* ===== verification/Optimistic.v ===== *)
(** * Optimistic mutation coordinator

    The speculative-state hook of specification sections 4.3 and 6, which
    components/posts.js gets from its framework as [useOptimistic].  Nothing
    here maps to lines of the sources: the file is generic in the state [St],
    the action payload [A] and the pure reducer, and Posts.v instantiates
    it with the reducer of the sources.

    A hook holds the authoritative value it was last given ([passthrough])
    and the actions that were applied and are not resolved yet ([pending],
    each under the handle [addOptimistic] returned for it).  The visible
    value is the reducer folded over the pending actions, oldest first,
    starting from the authoritative value; pending actions therefore queue,
    which is the policy chosen for the open question of section 9.
    [answer_all] runs the answers to a queue of actions in the order they
    arrive: the queue shortens by one with each and is empty at the end. *)

From stdpp Require Import prelude list.
From S2P Require Import Prelude.

Inductive Status := Settled | Pending.

#[export] Instance Status_eq_dec : EqDecision Status.
Proof. solve_decision. Defined.

Section hook.
Context {St A : Type} (reducer : St → A → St).

Record Hook := mkHook {
  passthrough : St;
  pending : list (nat * A);
  next_handle : nat
}.

Implicit Types (h : Hook) (a : A) (s : St) (k : nat).

(** [useOptimistic(passthrough, reducer)] at mount: nothing is pending. *)
Definition useOptimistic s : Hook := mkHook s [] 0.

(** The visible value. *)
Definition optimisticState h : St := foldl reducer (passthrough h) (snd <$> pending h).

Definition status h : Status :=
  match pending h with
  | [] => Settled
  | _ :: _ => Pending
  end.

(** [apply(entity, payload)]: the action joins the queue under a fresh
    handle. *)
Definition addOptimistic a h : nat * Hook :=
  (next_handle h,
   mkHook (passthrough h) (pending h ++ [(next_handle h, a)]) (S (next_handle h))).

Definition drop_handle k (q : list (nat * A)) : list (nat * A) :=
  filter (λ p, p.1 ≠ k) q.

(** [handle.settle(authoritative)]: the action leaves the queue and the
    authoritative value takes over. *)
Definition settle k s h : Hook := mkHook s (drop_handle k (pending h)) (next_handle h).

(** [handle.revert()]: the action leaves the queue; the authoritative
    value is the one from before. *)
Definition revert k h : Hook :=
  mkHook (passthrough h) (drop_handle k (pending h)) (next_handle h).

(** The component is rendered again with a new authoritative value. *)
Definition rerender s h : Hook := mkHook s (pending h) (next_handle h).

(** Handles are fresh: every pending handle is below [next_handle], and no
    handle is pending twice. *)
Definition wf_hook h : Prop :=
  Forall (λ p, p.1 < next_handle h) (pending h) ∧ NoDup (fst <$> pending h).

(** How the authoritative call of a pending action ends. *)
Inductive Resolution :=
| Confirmed (s : St)
| Discarded.

Definition answer k (r : Resolution) h : Hook :=
  match r with
  | Confirmed s => settle k s h
  | Discarded => revert k h
  end.

(** The answers to the pending actions arrive, in the order of the list. *)
Definition answer_all (rs : list (nat * Resolution)) h : Hook :=
  foldl (λ h p, answer p.1 p.2 h) h rs.

(** The authoritative value after a list of answers: that of the last
    confirmation, or the one from before. *)
Definition last_confirmed (rs : list (nat * Resolution)) s : St :=
  foldl (λ s p, match p.2 with Confirmed s' => s' | Discarded => s end) s rs.

(** ** Laws *)

Lemma optimisticState_settled h : pending h = [] → optimisticState h = passthrough h.
Proof. unfold optimisticState. by intros ->. Qed.

Lemma status_settled h : status h = Settled ↔ pending h = [].
Proof. unfold status. by destruct (pending h). Qed.

Lemma useOptimistic_wf s : wf_hook (useOptimistic s).
Proof. split; simpl; constructor. Qed.

(** Applying an action shows the reducer's value on top of what was
    visible. *)
Lemma optimisticState_add a h :
  optimisticState (addOptimistic a h).2 = reducer (optimisticState h) a.
Proof. unfold optimisticState. simpl. by rewrite fmap_app, foldl_app. Qed.

Lemma drop_handle_fresh k (q : list (nat * A)) :
  Forall (λ p, p.1 < k) q → drop_handle k q = q.
Proof.
  unfold drop_handle. induction 1 as [|p q Hp _ IH]; [done|].
  rewrite filter_cons_True by lia. by rewrite IH.
Qed.

Lemma drop_handle_snoc k a (q : list (nat * A)) :
  Forall (λ p, p.1 < k) q → drop_handle k (q ++ [(k, a)]) = q.
Proof.
  intros H. unfold drop_handle. rewrite filter_app.
  fold (drop_handle k q). rewrite drop_handle_fresh by done.
  rewrite filter_cons_False by (simpl; lia). rewrite filter_nil. apply app_nil_r.
Qed.

Lemma addOptimistic_wf a h : wf_hook h → wf_hook (addOptimistic a h).2.
Proof.
  intros [Hlt Hnd]. split; simpl.
  - rewrite Forall_app. split; [|repeat constructor; simpl; lia].
    eapply Forall_impl; [done|]. simpl. lia.
  - rewrite fmap_app. apply NoDup_app. split_and!; [done| |repeat constructor; set_solver].
    intros k Hk [->|[]%elem_of_nil]%elem_of_cons.
    apply list_elem_of_fmap in Hk as (p & E & Hp).
    rewrite Forall_forall in Hlt. apply Hlt in Hp. simpl in E. lia.
Qed.

Lemma drop_handle_wf k s h : wf_hook h → wf_hook (settle k s h) ∧ wf_hook (revert k h).
Proof.
  intros [Hlt Hnd].
  assert (Forall (λ p, p.1 < next_handle h) (drop_handle k (pending h))).
  { rewrite Forall_forall in *. intros p [_ Hp]%list_elem_of_filter. by apply Hlt. }
  assert (NoDup ((drop_handle k (pending h)).*1)).
  { eapply sublist_NoDup; [done|]. apply fmap_sublist, sublist_filter. }
  by split.
Qed.

(** Settling the only pending action shows the authoritative value;
    reverting it shows the value from before the action. *)
Lemma settle_last a h s :
  wf_hook h → pending h = [] →
  let '(k, h') := addOptimistic a h in
  optimisticState (settle k s h') = s ∧ status (settle k s h') = Settled ∧
  optimisticState (revert k h') = passthrough h ∧ status (revert k h') = Settled.
Proof.
  intros _ Hp. unfold optimisticState, status. simpl. rewrite Hp. simpl.
  unfold drop_handle. rewrite filter_cons_False by (simpl; lia). by rewrite filter_nil.
Qed.

(** ** Draining the queue *)

Lemma answer_pending k r h : pending (answer k r h) = drop_handle k (pending h).
Proof. by destruct r. Qed.

Lemma answer_all_snoc rs k r h :
  answer_all (rs ++ [(k, r)]) h = answer k r (answer_all rs h).
Proof. unfold answer_all. by rewrite foldl_app. Qed.

(** What is still pending after a list of answers: the actions none of
    them was for. *)
Lemma answer_all_pending rs h :
  pending (answer_all rs h) = filter (λ p, p.1 ∉ rs.*1) (pending h).
Proof.
  induction rs as [|[k r] rs IH] using rev_ind.
  - simpl. symmetry. apply filter_all, Forall_forall. set_solver.
  - rewrite answer_all_snoc, answer_pending, IH. unfold drop_handle.
    rewrite list_filter_filter. apply list_filter_iff. intros p. rewrite fmap_app. set_solver.
Qed.

Lemma answer_all_passthrough rs h :
  passthrough (answer_all rs h) = last_confirmed rs (passthrough h).
Proof.
  induction rs as [|[k r] rs IH] using rev_ind; [done|].
  rewrite answer_all_snoc. unfold last_confirmed in *. rewrite foldl_app. simpl.
  by destruct r; simpl.
Qed.

(** Every answer for a pending action shortens the queue by exactly one:
    the queue of a well-formed hook is empty after as many answers as it
    has actions. *)
Lemma answer_shortens k r h :
  wf_hook h → k ∈ (pending h).*1 →
  S (length (pending (answer k r h))) = length (pending h).
Proof.
  intros [_ Hnd] Hk. rewrite answer_pending. unfold drop_handle.
  induction (pending h) as [|[k' a] q IH]; [by apply elem_of_nil in Hk|].
  rewrite fmap_cons in Hnd, Hk. apply NoDup_cons in Hnd as [Hk' Hnd].
  destruct (decide (k' = k)) as [->|Hne].
  - rewrite filter_cons_False by naive_solver. simpl. do 2 f_equal.
    apply filter_all, Forall_forall. intros p Hp E.
    apply Hk', list_elem_of_fmap. by exists p.
  - rewrite filter_cons_True by done. simpl. f_equal. apply IH; [done|]. set_solver.
Qed.

(** Once every pending action has its answer, in whatever order the
    answers arrive, nothing is pending and the visible value is the
    authoritative one. *)
Lemma answer_all_settles rs h :
  (pending h).*1 ⊆ rs.*1 →
  status (answer_all rs h) = Settled ∧
  optimisticState (answer_all rs h) = last_confirmed rs (passthrough h).
Proof.
  intros Hsub. assert (pending (answer_all rs h) = []) as Hp.
  { rewrite answer_all_pending. apply filter_none, Forall_forall.
    intros p Hp Hn. apply Hn, Hsub, list_elem_of_fmap. eauto. }
  split; [by apply status_settled|].
  by rewrite optimisticState_settled, answer_all_passthrough.
Qed.

End hook.

Arguments Hook : clear implicits.
Arguments mkHook {St A}.
Arguments passthrough {St A}.
Arguments pending {St A}.
Arguments next_handle {St A}.
Arguments useOptimistic {St A}.
Arguments status {St A}.
Arguments addOptimistic {St A}.
Arguments settle {St A}.
Arguments revert {St A}.
Arguments rerender {St A}.
Arguments wf_hook {St A}.
Arguments drop_handle {A}.
Arguments Resolution : clear implicits.
Arguments Confirmed {St} s.
Arguments Discarded {St}.
Arguments answer {St A}.
Arguments answer_all {St A}.
Arguments last_confirmed {St}.

#[export] Hint Resolve useOptimistic_wf addOptimistic_wf : js.
