(* ===== verification/Posts.v ===== *)
(** * The posts feed (7-next-optimization)

    - components/posts.js: [imageLoader], the component [Post], the reducer
      handed to [useOptimistic] ([reducer]), the component [Posts] over its
      hook, and [updatePost], split at its [await] into [updatePost_begin]
      and [updatePost_resume];
    - app/feed/page.js: [generateMetadata] and [FeedPage], over the accessor
      [getPosts] of lib/posts, which is not part of the sources and is a
      parameter here; [feed_request] is one request, which runs both.

    The hook is [Optimistic.Hook] at the state [list PostRow] and the action
    payload [Z] (a post id).  What the user can do to a rendered feed is the
    step relation [ui_step]: submit one of the forms the tree holds, or
    receive a new list of posts from the server. *)

From stdpp Require Import prelude strings list pretty gmap.
From S2P Require Import Prelude ReadCache Optimistic.

(** ** Data *)

(** A post as the component reads it.  [post_isLiked] is kept as the value
    the accessor delivered, since the sources only test and negate it. *)
Record PostRow := mkPost {
  post_id : Z;
  post_image : string;
  post_title : string;
  post_userFirstName : string;
  post_createdAt : string;
  post_content : string;
  post_likes : Z;
  post_isLiked : JsVal
}.

#[export] Instance PostRow_eq_dec : EqDecision PostRow.
Proof. solve_decision. Defined.

Definition set_likes (n : Z) (p : PostRow) : PostRow :=
  mkPost (post_id p) (post_image p) (post_title p) (post_userFirstName p)
    (post_createdAt p) (post_content p) n (post_isLiked p).

Definition set_isLiked (v : JsVal) (p : PostRow) : PostRow :=
  mkPost (post_id p) (post_image p) (post_title p) (post_userFirstName p)
    (post_createdAt p) (post_content p) (post_likes p) v.

(** The argument the image component hands to a loader. *)
Record LoaderConfig := mkConfig {
  cfg_src : string;
  cfg_width : Z;
  cfg_quality : JsVal
}.

(** The functions a form of the feed can be bound to. *)
Inductive Handler := TogglePostLikeStatus | UpdatePost.

#[export] Instance Handler_eq_dec : EqDecision Handler.
Proof. solve_decision. Defined.

(** What the trees of the feed carry besides strings and numbers: the
    loader, and a handler bound to a post id ([f.bind(null, id)]). *)
Inductive PostData :=
| DLoader
| DBound (f : Handler) (postId : Z).

#[export] Instance PostData_eq_dec : EqDecision PostData.
Proof. solve_decision. Defined.

(** The props [Posts] passes to [Post]. *)
Record PostProps := mkProps {
  prop_post : PostRow;
  prop_action : Handler
}.

(** ** imageLoader *)

(** [array[i]]: the element, or [undefined] past the end. *)
Definition at_index (l : list string) (i : nat) : JsVal :=
  from_option JStr JUndefined (l !! i).

Definition imageLoader (config : LoaderConfig) : string :=
  let urlStart := at_index (split "upload/" (cfg_src config)) 0 in
  let urlEnd := at_index (split "upload/" (cfg_src config)) 1 in
  let transformations := "w_200,q_" +:+ template (cfg_quality config) in
  template urlStart +:+ "upload/" +:+ transformations +:+ "/" +:+ template urlEnd.

(** ** The reducer *)

(** The copy of a post with its like count moved by one and its flag
    negated (lines 90 to 92). *)
Definition toggled (post : PostRow) : PostRow :=
  let updatedPost := post in
  let updatedPost :=
    set_likes (post_likes updatedPost +
               (if truthy (post_isLiked updatedPost) then -1 else 1))%Z updatedPost in
  set_isLiked (js_not (post_isLiked updatedPost)) updatedPost.

(** The test of the [findIndex] call. *)
Definition has_id (updatedPostId : Z) (post : PostRow) : bool :=
  bool_decide (post_id post = updatedPostId).

(** The reducer of [useOptimistic]: the first post with the given id is
    replaced by its toggled copy in a copy of the list.  The lookup cannot
    miss, since the index comes from [findIndex] (lemma [reducer_hit]). *)
Definition reducer (prevPosts : list PostRow) (updatedPostId : Z) : list PostRow :=
  let updatedPostIndex := findIndex (has_id updatedPostId) prevPosts in
  if bool_decide (updatedPostIndex = (-1)%Z) then prevPosts
  else
    match prevPosts !! Z.to_nat updatedPostIndex with
    | None => prevPosts
    | Some post => <[Z.to_nat updatedPostIndex := toggled post]> prevPosts
    end.

(** ** The components *)

Section components.
Context (formatDate : string → string).

(** [function Post({ post })]: of its props only [post] is read. *)
Definition Post (props : PostProps) : Html PostData :=
  let post := prop_post props in
  Node "article" [("className", AStr "post")] [
    Node "div" [("className", AStr "post-image")] [
      Node "Image" [("loader", AData DLoader); ("src", AStr (post_image post));
                    ("width", ANum 200); ("height", ANum 120);
                    ("alt", AStr (post_title post)); ("quality", ANum 50)] [] ];
    Node "div" [("className", AStr "post-content")] [
      Node "header" [] [
        Node "div" [] [
          Node "h2" [] [Val (AStr (post_title post))];
          Node "p" [] [
            Text "Shared by "; Val (AStr (post_userFirstName post)); Text " on";
            Val (AStr " ");
            Node "time" [("dateTime", AStr (post_createdAt post))]
              [Val (AStr (formatDate (post_createdAt post)))] ] ];
        Node "div" [] [
          Node "form"
            [("action", AData (DBound TogglePostLikeStatus (post_id post)));
             ("className", AStr (if truthy (post_isLiked post) then "liked" else ""))]
            [Node "LikeButton" [] []] ] ];
      Node "p" [] [Val (AStr (post_content post))] ] ].

(** [Posts], from the state of its hook.  An array is truthy, so the
    first test is the one on the length. *)
Definition Posts (h : Hook (list PostRow) Z) : Html PostData :=
  let optimisticPosts := optimisticState reducer h in
  if bool_decide (length optimisticPosts = 0)
  then Node "p" [] [Text "There are no posts yet. Maybe start sharing some?"]
  else
    Node "ul" [("className", AStr "posts")]
      ((λ post, Node "li" [("key", ANum (post_id post))]
                  [Post (mkProps post UpdatePost)]) <$> optimisticPosts).

End components.

(** ** updatePost *)

(** How the server action ended: with the posts the page is rendered with
    next, or with an error. *)
Inductive ActionResult :=
| Resolved (posts : list PostRow)
| Rejected (error : string).

(** [updatePost] up to its [await]: the optimistic update is queued and
    the server action is called. *)
Definition updatePost_begin (postId : Z) (h : Hook (list PostRow) Z)
  : nat * Hook (list PostRow) Z :=
  addOptimistic postId h.

(** [updatePost] from its [await] on.  Line 105 awaits the server action
    and discards what it returns; the list the feed shows next is the
    [posts] prop of the render the action causes.  [Resolved] carries that
    list, so that the answer and the render it brings are one step, the
    [settle(authoritative)] of the specification. *)
Definition updatePost_resume (k : nat) (r : ActionResult) (h : Hook (list PostRow) Z)
  : Outcome () * Hook (list PostRow) Z :=
  match r with
  | Resolved posts => (Done (), settle k posts h)
  | Rejected error => (Throw error, revert k h)
  end.

(** ** What the user can do *)

(** The values bound to the [action] of the forms of a tree. *)
Definition form_actions (tree : Html PostData) : list PostData :=
  omap (λ '(attrs, _),
          match attr "action" attrs with
          | Some (AData d) => Some d
          | _ => None
          end) (elements "form" tree).

(** Submitting a form runs what its [action] is bound to: the server
    action itself, or [updatePost].  The second component lists the server
    calls issued. *)
Definition dispatch (d : PostData) (h : Hook (list PostRow) Z)
  : Hook (list PostRow) Z * list Z :=
  match d with
  | DBound TogglePostLikeStatus postId => (h, [postId])
  | DBound UpdatePost postId => ((updatePost_begin postId h).2, [postId])
  | DLoader => (h, [])
  end.

Section ui.
Context (formatDate : string → string).

Inductive ui_step : Hook (list PostRow) Z → Hook (list PostRow) Z → Prop :=
| ui_submit h d : d ∈ form_actions (Posts formatDate h) → ui_step h (dispatch d h).1
| ui_rerender h posts : ui_step h (rerender posts h).

End ui.

(** ** app/feed/page.js *)

Record Metadata := mkMetadata {
  title : string;
  description : string
}.

Section feed.
Context {E : Type} (getPosts : Act E (list PostRow)) (formatDate : string → string).

Definition generateMetadata : Act E Metadata :=
  posts ← getPosts;
  mret (mkMetadata
          ("Browse all our " +:+ pretty (Z.of_nat (length posts)) +:+ " posts")
          "Browse and share amazing posts from all users.").

Definition FeedPage : Act E (Html PostData) :=
  posts ← getPosts;
  mret (Fragment [
    Node "h1" [] [Text "All posts by all users"];
    Posts formatDate (useOptimistic posts) ]).

End feed.

(** One request for /feed: the framework generates the metadata, then
    renders the page; [between] is what other requests do to the store in
    the meantime. *)
Definition feed_request {S} (getPosts : Act S (list PostRow)) (formatDate : string → string)
    (between : Act S ()) : Act S (Metadata * Html PostData) :=
  md ← generateMetadata getPosts;
  between;;
  page ← FeedPage getPosts formatDate;
  mret (md, page).

(** An accessor behind the memo of the request, the way lib/messages.js
    wraps its query in [cache]. *)
Definition getPosts_memo {E C} `{!ReadCache C (list PostRow)}
    (loader : Act E (list PostRow)) : Act (C * E) (list PostRow) :=
  get "getPosts" [] loader.

(** An accessor that reads the table on every call. *)
Definition getPosts_plain : Act (list PostRow) (list PostRow) := get_state.

(** The count the title of the feed announces. *)
Definition feed_title (n : nat) : string :=
  "Browse all our " +:+ pretty (Z.of_nat n) +:+ " posts".

(** ** Posts up to the truth of the like flag *)

(** Two posts that differ at most in how [isLiked] spells its truth
    value. *)
Definition post_equiv (p q : PostRow) : Prop :=
  set_isLiked JNull p = set_isLiked JNull q ∧ same_truth (post_isLiked p) (post_isLiked q).

Definition posts_equiv : relation (list PostRow) := Forall2 post_equiv.

(** ** Sample data *)

Definition sample_post : PostRow :=
  mkPost 42 "https://res.cloudinary.com/demo/image/upload/v1/posts/a.png" "A title"
    "Max" "2024-05-01" "Some content" 10 (JNum 0).

Definition other_post : PostRow :=
  mkPost 7 "https://res.cloudinary.com/demo/image/upload/v1/posts/b.png" "Another"
    "Ana" "2024-05-02" "More content" 3 (JNum 1).

Definition sample_posts : list PostRow := [other_post; sample_post].

Definition sample_hook : Hook (list PostRow) Z := useOptimistic sample_posts.

Definition liked_post : PostRow :=
  mkPost 42 "https://res.cloudinary.com/demo/image/upload/v1/posts/a.png" "A title"
    "Max" "2024-05-01" "Some content" 11 (JBool true).

(** The [key] of every list item of a tree, in document order. *)
Definition li_keys (tree : Html PostData) : list Z :=
  omap (λ '(attrs, _),
          match attr "key" attrs with
          | Some (ANum k) => Some k
          | _ => None
          end) (elements "li" tree).

(** The fields of a post the reducer never writes. *)
Definition untouched (p : PostRow) : PostRow := set_likes 0 (set_isLiked JNull p).

(** ** The reducer *)

Section reducer_facts.
Implicit Types (ps pre suf : list PostRow) (p q : PostRow) (i : Z).

Lemma has_id_true i p : has_id i p = true ↔ post_id p = i.
Proof. unfold has_id. by rewrite bool_decide_eq_true. Qed.

Lemma has_id_false i p : has_id i p = false ↔ post_id p ≠ i.
Proof. unfold has_id. by rewrite bool_decide_eq_false. Qed.

Lemma Forall_has_id_false i ps :
  Forall (λ q, has_id i q = false) ps ↔ Forall (λ q, post_id q ≠ i) ps.
Proof. apply Forall_proper; [|done]. intros q. apply has_id_false. Qed.

Lemma reducer_miss ps i : Forall (λ q, post_id q ≠ i) ps → reducer ps i = ps.
Proof.
  intros H. unfold reducer.
  rewrite (proj2 (findIndex_none (has_id i) ps)) by by apply Forall_has_id_false.
  done.
Qed.

(** The index [findIndex] answers is in range: the lookup of the reducer
    always finds the post. *)
Lemma reducer_hit pre p suf :
  Forall (λ q, post_id q ≠ post_id p) pre →
  reducer (pre ++ p :: suf) (post_id p) = pre ++ toggled p :: suf.
Proof.
  intros H. unfold reducer.
  rewrite findIndex_app_hit; [|by apply Forall_has_id_false|by apply has_id_true].
  rewrite bool_decide_eq_false_2 by lia. rewrite Nat2Z.id.
  rewrite list_lookup_middle by done.
  by rewrite insert_app_r_alt, Nat.sub_diag by done.
Qed.

(** Every list either lacks the id or splits at its first post with it. *)
Lemma split_at_id ps i :
  Forall (λ q, post_id q ≠ i) ps ∨
  ∃ pre p suf, ps = pre ++ p :: suf ∧ post_id p = i ∧ Forall (λ q, post_id q ≠ i) pre.
Proof.
  destruct (decide (findIndex (has_id i) ps = (-1)%Z)) as [E|E].
  - left. by apply Forall_has_id_false, findIndex_none.
  - right.
    destruct (findIndex_split (has_id i) ps _ eq_refl E) as (pre & p & suf & -> & _ & Hp & Hall).
    exists pre, p, suf.
    split_and!; [done | by apply has_id_true | by apply Forall_has_id_false].
Qed.

Lemma toggled_id p : post_id (toggled p) = post_id p.
Proof. done. Qed.

Lemma toggled_likes p :
  post_likes (toggled p) =
  (if truthy (post_isLiked p) then post_likes p - 1 else post_likes p + 1)%Z.
Proof. unfold toggled. simpl. by destruct (truthy _). Qed.

Lemma toggled_toggled p : post_equiv (toggled (toggled p)) p.
Proof.
  split; [|apply js_not_involutive_truth].
  destruct p as [? ? ? ? ? ? n v]. unfold toggled, set_isLiked, set_likes. simpl.
  f_equal. destruct (truthy v); simpl; lia.
Qed.

(** C2. A like toggles the first post with the id, and only it: the
    flag is negated and the count moves by one in the same step (down when
    the post was liked, up when it was not); every other post, and every
    other field, is as before. *)
Theorem reducer_toggles_first_match pre p suf :
  Forall (λ q, post_id q ≠ post_id p) pre →
  ∃ p', reducer (pre ++ p :: suf) (post_id p) = pre ++ p' :: suf ∧
        untouched p' = untouched p ∧
        post_isLiked p' = JBool (negb (truthy (post_isLiked p))) ∧
        post_likes p' =
          (if truthy (post_isLiked p) then post_likes p - 1 else post_likes p + 1)%Z.
Proof.
  intros H. exists (toggled p).
  split_and!; [by apply reducer_hit | done | done | apply toggled_likes].
Qed.

(** An id that no post carries leaves the list as it is. *)
Theorem reducer_unknown_id ps i : i ∉ (post_id <$> ps) → reducer ps i = ps.
Proof.
  intros H. apply reducer_miss. apply Forall_forall. intros q Hq E.
  apply H, list_elem_of_fmap. eauto.
Qed.

(** The reducer keeps the shape of the feed: the same number of
    posts, the same ids in the same order, and only [likes] and [isLiked]
    ever differ. *)
Theorem reducer_preserves_shape ps i :
  length (reducer ps i) = length ps ∧
  post_id <$> reducer ps i = post_id <$> ps ∧
  untouched <$> reducer ps i = untouched <$> ps.
Proof.
  destruct (split_at_id ps i) as [H|(pre & p & suf & -> & <- & H)].
  - by rewrite (reducer_miss ps i H).
  - rewrite reducer_hit by done. rewrite !length_app, !fmap_app, !fmap_cons. done.
Qed.

End reducer_facts.

Lemma reducer_toggles_first_match_witness :
  ∃ p', reducer ([other_post] ++ sample_post :: []) (post_id sample_post) =
          [other_post] ++ p' :: [] ∧
        untouched p' = untouched sample_post ∧
        post_isLiked p' = JBool (negb (truthy (post_isLiked sample_post))) ∧
        post_likes p' =
          (if truthy (post_isLiked sample_post)
           then post_likes sample_post - 1 else post_likes sample_post + 1)%Z.
Proof.
  apply (reducer_toggles_first_match [other_post] sample_post []).
  by apply (bool_decide_unpack _).
Defined.

Lemma reducer_unknown_id_witness : reducer sample_posts 1 = sample_posts.
Proof. apply (reducer_unknown_id sample_posts 1). by apply (bool_decide_unpack _). Defined.

(** Scenario 2 of the specification, first half: not liked with 10 likes
    becomes liked with 11. *)
Example reducer_scenario :
  reducer sample_posts 42 = [other_post; liked_post].
Proof. reflexivity. Qed.

(** ** The reducer up to the truth of the flag *)

#[export] Instance post_equiv_equivalence : Equivalence post_equiv.
Proof.
  unfold post_equiv. split.
  - by intros p.
  - by intros p q [-> ->].
  - by intros p q r [-> ->] [-> ->].
Qed.

#[export] Instance posts_equiv_equivalence : Equivalence posts_equiv.
Proof. unfold posts_equiv. apply _. Qed.

Section equiv_facts.
Implicit Types (ps qs pre suf : list PostRow) (p q : PostRow) (i : Z).

Lemma post_equiv_id p q : post_equiv p q → post_id p = post_id q.
Proof. intros [H _]. by injection H. Qed.

Lemma post_equiv_likes p q : post_equiv p q → post_likes p = post_likes q.
Proof. intros [H _]. by injection H. Qed.

Lemma toggled_proper p q : post_equiv p q → post_equiv (toggled p) (toggled q).
Proof.
  destruct p, q. intros [H Ht]. unfold same_truth in Ht. simpl in *.
  injection H as -> -> -> -> -> -> ->.
  split; unfold toggled, set_isLiked, set_likes, same_truth; simpl; by rewrite ?Ht.
Qed.

Lemma posts_equiv_lacks i ps qs :
  posts_equiv ps qs → Forall (λ q, post_id q ≠ i) ps → Forall (λ q, post_id q ≠ i) qs.
Proof.
  induction 1 as [|p q ps qs Hpq _ IH]; [done|].
  intros [Hp Hps]%Forall_cons. constructor; [|by apply IH].
  by rewrite <-(post_equiv_id p q).
Qed.

(** Two likes of the same post cancel, up to the spelling of the flag. *)
Lemma reducer_twice_equiv ps i : posts_equiv (reducer (reducer ps i) i) ps.
Proof.
  destruct (split_at_id ps i) as [H|(pre & p & suf & -> & <- & H)].
  - rewrite (reducer_miss ps i H), (reducer_miss ps i H). reflexivity.
  - rewrite reducer_hit by done. rewrite <-(toggled_id p).
    rewrite reducer_hit by done.
    apply Forall2_app; [reflexivity|]. constructor; [apply toggled_toggled|reflexivity].
Qed.

Lemma reducer_equiv ps qs i : posts_equiv ps qs → posts_equiv (reducer ps i) (reducer qs i).
Proof.
  intros Heq. destruct (split_at_id ps i) as [H|(pre & p & suf & -> & <- & H)].
  - rewrite !reducer_miss; eauto using posts_equiv_lacks.
  - apply Forall2_app_inv_l in Heq as (pre' & rest & Hpre & Hrest & ->).
    apply Forall2_cons_inv_l in Hrest as (q & suf' & Hpq & Hsuf & ->).
    rewrite reducer_hit by done. rewrite (post_equiv_id p q Hpq).
    rewrite reducer_hit by (rewrite <-(post_equiv_id p q Hpq); eauto using posts_equiv_lacks).
    apply Forall2_app; [done|]. constructor; [by apply toggled_proper|done].
Qed.

End equiv_facts.

#[export] Instance reducer_proper : Proper (posts_equiv ==> eq ==> posts_equiv) reducer.
Proof. intros ps qs H i ? <-. by apply reducer_equiv. Qed.

#[export] Instance length_posts_proper : Proper (posts_equiv ==> eq) (@length PostRow).
Proof. intros ps qs H. by eapply Forall2_length. Qed.

Section roundtrip.
Implicit Types (ps qs : list PostRow) (i : Z).

(** C38. Liking and unliking is a round trip: two applications of the
    reducer for the same id give back every like count and every flag's
    truth, every other field untouched.  (The flag itself may come back as
    [false] where the accessor had delivered [0].) *)
Theorem reducer_twice_restores ps i :
  posts_equiv (reducer (reducer ps i) i) ps ∧
  post_likes <$> reducer (reducer ps i) i = post_likes <$> ps ∧
  (truthy ∘ post_isLiked) <$> reducer (reducer ps i) i = (truthy ∘ post_isLiked) <$> ps.
Proof.
  pose proof (reducer_twice_equiv ps i) as H. split; [done|].
  induction H as [|p q ps' qs' [Hpq Ht] _ [IH1 IH2]]; [done|].
  rewrite !fmap_cons, IH1, IH2. simpl. rewrite Ht.
  by rewrite (post_equiv_likes p q) by done.
Qed.

(** What is shown does not depend on how the accessor spells the
    flag: two hooks with the same pending likes, whose authoritative lists
    agree up to the truth of the flags, show lists that agree up to the
    truth of the flags. *)
Theorem optimisticState_respects_truth (h h' : Hook (list PostRow) Z) :
  posts_equiv (passthrough h) (passthrough h') → pending h = pending h' →
  posts_equiv (optimisticState reducer h) (optimisticState reducer h').
Proof.
  unfold optimisticState. intros Hp <-. revert Hp.
  generalize (passthrough h) (passthrough h').
  induction (pending h).*2 as [|i l IH]; intros ps qs Hp; simpl; [done|].
  apply IH. by rewrite Hp.
Qed.

End roundtrip.

Lemma optimisticState_respects_truth_witness :
  posts_equiv
    (optimisticState reducer (updatePost_begin 42 (useOptimistic [liked_post])).2)
    (optimisticState reducer
       (updatePost_begin 42 (useOptimistic [set_isLiked (JNum 1) liked_post])).2).
Proof.
  apply (optimisticState_respects_truth
           (updatePost_begin 42 (useOptimistic [liked_post])).2
           (updatePost_begin 42 (useOptimistic [set_isLiked (JNum 1) liked_post])).2);
    [|reflexivity].
  repeat constructor.
Defined.

(** ** updatePost over the hook *)

Section hook_facts.
Implicit Types (h : Hook (list PostRow) Z) (ps : list PostRow) (i : Z).

Lemma begin_visible h i :
  pending h = [] →
  optimisticState reducer (updatePost_begin i h).2 = reducer (passthrough h) i.
Proof.
  intros Hp. unfold updatePost_begin.
  by rewrite optimisticState_add, optimisticState_settled.
Qed.

Lemma drop_only_handle h i :
  pending h = [] →
  drop_handle (updatePost_begin i h).1 (pending (updatePost_begin i h).2) = [].
Proof.
  intros Hp. simpl. rewrite Hp. unfold drop_handle. simpl.
  by rewrite filter_cons_False by (simpl; lia).
Qed.

(** C5. Success path (scenario 2): from a settled hook, [updatePost]
    shows the speculative list at once and the hook is pending; when the
    server action resolves, the list it delivered is shown, whatever the
    speculation was, and the hook is settled. *)
Theorem updatePost_success_path h i ps :
  pending h = [] →
  optimisticState reducer (updatePost_begin i h).2 = reducer (passthrough h) i ∧
  status (updatePost_begin i h).2 = Pending ∧
  ∃ h', updatePost_resume (updatePost_begin i h).1 (Resolved ps) (updatePost_begin i h).2
          = (Done (), h') ∧
        optimisticState reducer h' = ps ∧ status h' = Settled.
Proof.
  intros Hp. split_and!; [by apply begin_visible | unfold status; simpl; by rewrite Hp |].
  eexists. split; [done|]. unfold optimisticState, status, settle.
  cbn [pending passthrough]. by rewrite drop_only_handle.
Qed.

(** C6. Failure path (scenario 3): when the server action rejects, the
    list from before the action is shown again, the hook is settled, and
    the error reaches the caller of [updatePost]. *)
Theorem updatePost_failure_path h i e :
  pending h = [] →
  optimisticState reducer (updatePost_begin i h).2 = reducer (passthrough h) i ∧
  ∃ h', updatePost_resume (updatePost_begin i h).1 (Rejected e) (updatePost_begin i h).2
          = (Throw e, h') ∧
        optimisticState reducer h' = passthrough h ∧ status h' = Settled.
Proof.
  intros Hp. split; [by apply begin_visible|].
  eexists. split; [done|]. unfold optimisticState, status, revert.
  cbn [pending passthrough]. by rewrite drop_only_handle.
Qed.

(** C39. Two likes of one post while the first is in flight queue up and
    compound: what is shown is the list from before both (up to the
    spelling of the flag), and once the first resolves with the server's
    list, the second is applied on top of that list. *)
Theorem double_toggle_compounds h i ps :
  pending h = [] →
  posts_equiv
    (optimisticState reducer (updatePost_begin i (updatePost_begin i h).2).2)
    (passthrough h) ∧
  optimisticState reducer
    (settle (updatePost_begin i h).1 ps (updatePost_begin i (updatePost_begin i h).2).2)
  = reducer ps i.
Proof.
  intros Hp. unfold updatePost_begin.
  rewrite !optimisticState_add, optimisticState_settled by done.
  split; [apply reducer_twice_equiv|].
  unfold optimisticState. simpl. rewrite Hp. simpl. unfold drop_handle.
  rewrite filter_cons_False by (simpl; lia).
  by rewrite filter_cons_True by (simpl; lia).
Qed.

(** Handles stay fresh: [updatePost] keeps every pending handle
    below the next one and pending at most once, before and after its
    [await], however the server action ends. *)
Theorem updatePost_keeps_hook_wf h i k r :
  wf_hook h →
  wf_hook (updatePost_begin i h).2 ∧ wf_hook (updatePost_resume k r h).2.
Proof.
  intros Hwf. split; [by apply addOptimistic_wf|].
  destruct r as [ps|e]; simpl; [by apply (drop_handle_wf k ps h) | by apply (drop_handle_wf k [] h)].
Qed.

End hook_facts.

Lemma updatePost_success_path_witness :
  optimisticState reducer (updatePost_begin 42 sample_hook).2
    = reducer (passthrough sample_hook) 42 ∧
  status (updatePost_begin 42 sample_hook).2 = Pending ∧
  ∃ h', updatePost_resume (updatePost_begin 42 sample_hook).1
          (Resolved [other_post; liked_post])
          (updatePost_begin 42 sample_hook).2 = (Done (), h') ∧
        optimisticState reducer h' = [other_post; liked_post] ∧ status h' = Settled.
Proof.
  apply (updatePost_success_path sample_hook 42 [other_post; liked_post]).
  reflexivity.
Defined.

Lemma updatePost_failure_path_witness :
  optimisticState reducer (updatePost_begin 42 sample_hook).2
    = reducer (passthrough sample_hook) 42 ∧
  ∃ h', updatePost_resume (updatePost_begin 42 sample_hook).1
          (Rejected "MutationFailed")
          (updatePost_begin 42 sample_hook).2
          = (Throw "MutationFailed", h') ∧
        optimisticState reducer h' = passthrough sample_hook ∧
        status h' = Settled.
Proof.
  apply (updatePost_failure_path sample_hook 42 "MutationFailed").
  reflexivity.
Defined.

Lemma double_toggle_compounds_witness :
  posts_equiv
    (optimisticState reducer
       (updatePost_begin 42 (updatePost_begin 42 sample_hook).2).2)
    (passthrough sample_hook) ∧
  optimisticState reducer
    (settle (updatePost_begin 42 sample_hook).1 [other_post; liked_post]
       (updatePost_begin 42 (updatePost_begin 42 sample_hook).2).2)
  = reducer [other_post; liked_post] 42.
Proof.
  apply (double_toggle_compounds sample_hook 42 [other_post; liked_post]).
  reflexivity.
Defined.

Lemma updatePost_keeps_hook_wf_witness :
  wf_hook (updatePost_begin 42 sample_hook).2 ∧
  wf_hook (updatePost_resume 0 (Rejected "MutationFailed") sample_hook).2.
Proof.
  apply (updatePost_keeps_hook_wf sample_hook 42 0 (Rejected "MutationFailed")).
  apply (useOptimistic_wf sample_posts).
Defined.

(** ** The rendered feed and what the user can do to it *)

Section ui_facts.
Context (formatDate : string → string).
Implicit Types (h : Hook (list PostRow) Z) (ps : list PostRow).

Lemma form_actions_ul attrs ps :
  form_actions (Node "ul" attrs
    ((λ p, Node "li" [("key", ANum (post_id p))] [Post formatDate (mkProps p UpdatePost)]) <$> ps))
  = (λ p, DBound TogglePostLikeStatus (post_id p)) <$> ps.
Proof.
  unfold form_actions. cbn [elements]. rewrite bool_decide_eq_false_2 by done.
  rewrite app_nil_l, <-list_fmap_compose.
  erewrite mjoin_singletons by (intros p; reflexivity).
  by apply omap_fmap_Some.
Qed.

(** Every form of the feed is bound to the server action itself: the
    [action] prop that carries [updatePost] is never read. *)
Lemma form_actions_Posts h :
  form_actions (Posts formatDate h) =
  (λ p, DBound TogglePostLikeStatus (post_id p)) <$> optimisticState reducer h.
Proof.
  unfold Posts. case_bool_decide as Hlen.
  - by apply nil_length_inv in Hlen as ->.
  - apply form_actions_ul.
Qed.

Lemma ui_step_pending h h' : ui_step formatDate h h' → pending h' = pending h.
Proof.
  destruct 1 as [h d Hd|h ps]; [|done].
  rewrite form_actions_Posts in Hd. by apply list_elem_of_fmap in Hd as (p & -> & _).
Qed.

(** C4. The speculative list is never shown: whatever forms the user
    submits and whatever lists the server sends, the hook of the rendered
    feed stays settled and shows the authoritative list, because every
    form calls the server action directly and none calls [updatePost]. *)
Theorem ui_never_speculates ps h :
  rtc (ui_step formatDate) (useOptimistic ps) h →
  pending h = [] ∧ optimisticState reducer h = passthrough h ∧ status h = Settled.
Proof.
  intros Hr. assert (pending h = []) as Hp.
  { revert h Hr. apply rtc_ind_r; [done|].
    intros h1 h2 _ Hs IH. by rewrite (ui_step_pending _ _ Hs). }
  split_and!; [done | by apply optimisticState_settled | by apply status_settled].
Qed.

(** The feed renders one list item per visible post, keyed by the
    post's id and in the order of the list, and the placeholder paragraph
    exactly when no post is visible. *)
Theorem Posts_one_item_per_post h :
  li_keys (Posts formatDate h) = post_id <$> optimisticState reducer h ∧
  (optimisticState reducer h = [] ↔
   Posts formatDate h = Node "p" [] [Text "There are no posts yet. Maybe start sharing some?"]).
Proof.
  unfold Posts. case_bool_decide as Hlen.
  - apply nil_length_inv in Hlen as ->. by split.
  - split; [|split; [by intros E; rewrite E in Hlen | done]].
    unfold li_keys. cbn [elements]. rewrite bool_decide_eq_false_2 by done.
    rewrite app_nil_l, <-list_fmap_compose.
    erewrite mjoin_singletons by (intros p; reflexivity).
    by apply omap_fmap_Some.
Qed.

End ui_facts.

Lemma ui_never_speculates_witness :
  pending (rerender [liked_post]
             (dispatch (DBound TogglePostLikeStatus 42) sample_hook).1) = [] ∧
  optimisticState reducer
    (rerender [liked_post]
       (dispatch (DBound TogglePostLikeStatus 42) sample_hook).1)
  = passthrough
      (rerender [liked_post]
         (dispatch (DBound TogglePostLikeStatus 42) sample_hook).1) ∧
  status (rerender [liked_post]
            (dispatch (DBound TogglePostLikeStatus 42) sample_hook).1) = Settled.
Proof.
  apply (ui_never_speculates (λ s, s) sample_posts).
  eapply rtc_l; [|apply rtc_once, ui_rerender]. fold sample_hook.
  apply ui_submit. by apply (bool_decide_unpack _).
Defined.

(** ** imageLoader *)

(** C40. For a source with one segment "upload/", the loader puts the
    transformations behind that segment; the width it is asked for plays no
    part, and a quality that is [undefined] is printed as such. *)
Theorem imageLoader_inserts_transformations a b width quality :
  absent_in "upload/" a ("upload/" +:+ b) → absent_in "upload/" b "" →
  imageLoader (mkConfig (a +:+ "upload/" +:+ b) width quality)
  = a +:+ "upload/" +:+ "w_200,q_" +:+ template quality +:+ "/" +:+ b.
Proof.
  intros Ha Hb. unfold imageLoader. cbn [cfg_src cfg_quality].
  by rewrite split_first, (split_absent _ b) by done.
Qed.

(** For a source without that segment there is no second piece: the URL
    ends in "undefined". *)
Theorem imageLoader_without_segment src width quality :
  absent_in "upload/" src "" →
  imageLoader (mkConfig src width quality)
  = src +:+ "upload/" +:+ "w_200,q_" +:+ template quality +:+ "/" +:+ "undefined".
Proof.
  intros Hs. unfold imageLoader. cbn [cfg_src cfg_quality]. by rewrite split_absent.
Qed.

Lemma imageLoader_inserts_transformations_witness :
  imageLoader (mkConfig "https://res.cloudinary.com/demo/image/upload/v1/posts/a.png" 640
                        JUndefined)
  = "https://res.cloudinary.com/demo/image/upload/w_200,q_undefined/v1/posts/a.png".
Proof.
  apply (imageLoader_inserts_transformations "https://res.cloudinary.com/demo/image/"
           "v1/posts/a.png" 640 JUndefined); by apply (bool_decide_unpack _).
Defined.

Lemma imageLoader_without_segment_witness :
  imageLoader (mkConfig "/images/local.png" 640 (JNum 75))
  = "/images/local.pngupload/w_200,q_75/undefined".
Proof.
  apply (imageLoader_without_segment "/images/local.png" 640 (JNum 75)).
  by apply (bool_decide_unpack _).
Defined.

(** ** The feed request *)

Section feed_facts.
Context (formatDate : string → string).

Lemma li_keys_feed posts :
  li_keys (Fragment [Node "h1" [] [Text "All posts by all users"];
                     Posts formatDate (useOptimistic posts)])
  = post_id <$> posts.
Proof.
  unfold li_keys, Fragment. rewrite elements_other by done.
  cbn [fmap list_fmap mjoin]. rewrite (elements_other "li" "h1") by done.
  cbn [fmap list_fmap mjoin list_join elements app]. rewrite app_nil_r.
  destruct (Posts_one_item_per_post formatDate (useOptimistic posts)) as [Hk _].
  unfold li_keys in Hk. by rewrite Hk, optimisticState_settled.
Qed.

(** C32. With the accessor behind the memo of the request, the title counts
    the posts the page lists, whatever other requests write between the
    metadata and the page, and the loader runs once. *)
Theorem feed_title_matches_list {E C} `{!ReadCache C (list PostRow)}
    (loader : Act E (list PostRow)) (f : E → E) c e posts e1 :
  rc_find "getPosts" c = None → loader e = (Done posts, e1) →
  ∃ md page c1,
    feed_request (getPosts_memo loader) formatDate (modify_state (λ s, (s.1, f s.2))) (c, e)
    = (Done (md, page), (c1, f e1)) ∧
    title md = feed_title (length posts) ∧ li_keys page = post_id <$> posts.
Proof.
  intros Hc Hl.
  exists (mkMetadata (feed_title (length posts))
            "Browse and share amazing posts from all users."),
         (Fragment [Node "h1" [] [Text "All posts by all users"];
                    Posts formatDate (useOptimistic posts)]),
         (rc_fill "getPosts" [] posts c).
  split; [|split; [done | apply li_keys_feed]].
  unfold feed_request, generateMetadata, FeedPage, getPosts_memo.
  erewrite act_bind_done; last first.
  { erewrite act_bind_done by by apply get_miss. reflexivity. }
  erewrite act_bind_done by reflexivity. simpl.
  erewrite act_bind_done; [reflexivity|].
  erewrite act_bind_done by apply get_hit, rc_find_fill. reflexivity.
Qed.

(** The request cannot tell which cache the accessor sits behind: over
    two caches that answer alike it ends in the same metadata and page on
    the same store. *)
Theorem feed_request_blind {E C D} `{!ReadCache C (list PostRow), !ReadCache D (list PostRow)}
    (loader : Act E (list PostRow)) between between' :
  cache_blind between between' →
  cache_blind (feed_request (getPosts_memo (C:=C) loader) formatDate between)
              (feed_request (getPosts_memo (C:=D) loader) formatDate between').
Proof.
  intros H. unfold feed_request, generateMetadata, FeedPage, getPosts_memo.
  auto 8 with cache.
Qed.

(** With an accessor that reads the table on every call, a post stored
    between the two reads is listed but not counted. *)
Theorem feed_title_can_miss_a_post posts p :
  ∃ md page,
    feed_request getPosts_plain formatDate (modify_state (λ l, l ++ [p])) posts
    = (Done (md, page), posts ++ [p]) ∧
    title md = feed_title (length posts) ∧
    length (li_keys page) = S (length posts).
Proof.
  do 2 eexists. split; [reflexivity|]. split; [reflexivity|].
  rewrite li_keys_feed, length_fmap, length_app. simpl. lia.
Qed.

End feed_facts.

Lemma feed_title_matches_list_witness :
  ∃ md page (c1 : gmap string (list PostRow)),
    feed_request (getPosts_memo getPosts_plain) id
      (modify_state (λ s, (s.1, (λ l, l ++ [other_post]) s.2))) (∅, sample_posts)
    = (Done (md, page), (c1, sample_posts ++ [other_post])) ∧
    title md = feed_title (length sample_posts) ∧ li_keys page = post_id <$> sample_posts.
Proof.
  by apply (feed_title_matches_list id getPosts_plain (λ l, l ++ [other_post]) ∅
              sample_posts sample_posts sample_posts).
Defined.
