(* ===== verification/LikeQueue.v ===== *)
(** * Likes in flight

    [updatePost] of src/7-next-optimization/components/posts.js (lines 103
    to 106) queues an optimistic like and awaits the server action.  Several
    likes can be in flight at once, and their answers arrive in any order.
    This file follows a queue of likes to its end:

    - [resume_all] runs the part of [updatePost] after its [await] for a
      list of answers, in the order they arrive; it is [answer_all] of the
      hook ([resume_all_answer]), so the queue drains: one action less with
      every answer, and once every like has its answer nothing is pending
      and the feed shows the list of the last answer that resolved;
    - [within_one] relates a post of the authoritative list to what the
      feed shows for it while likes are pending: the reducer of lines 81 to
      96 only ever moves a count by one and back, so a count that is shown
      is never more than one away from the authoritative one, and stays a
      safe integer of JavaScript when the authoritative count has room for
      one more like and one less. *)

From stdpp Require Import prelude strings list.
From S2P Require Import Prelude Optimistic Posts.

(** ** Answers *)

(** What the answer of the server action does to the hook. *)
Definition resolution (r : ActionResult) : Resolution (list PostRow) :=
  match r with
  | Resolved posts => Confirmed posts
  | Rejected _ => Discarded
  end.

(** The answers to the likes in flight arrive, in the order of the list:
    each resumes the call of [updatePost] that holds its handle. *)
Definition resume_all (rs : list (nat * ActionResult)) (h : Hook (list PostRow) Z)
  : Hook (list PostRow) Z :=
  foldl (λ h p, (updatePost_resume p.1 p.2 h).2) h rs.

(** [updatePost] is called for each id of the list, one after the other,
    none of the calls past its [await]. *)
Definition begin_all (ids : list Z) (h : Hook (list PostRow) Z) : Hook (list PostRow) Z :=
  foldl (λ h i, (updatePost_begin i h).2) h ids.

(** The list the feed is rendered with after a list of answers. *)
Definition last_resolved (rs : list (nat * ActionResult)) (posts : list PostRow)
  : list PostRow :=
  last_confirmed (prod_map id resolution <$> rs) posts.

(** ** Like counts *)

(** [Number.isSafeInteger]: the integers a JavaScript number holds
    exactly, and on which [+ 1] and [- 1] are exact. *)
Definition safe_integer (n : Z) : Prop := (- (2 ^ 53 - 1) ≤ n ≤ 2 ^ 53 - 1)%Z.

#[export] Instance safe_integer_dec n : Decision (safe_integer n).
Proof. unfold safe_integer. apply _. Defined.

(** The step line 91 would take from a post: down when it is liked, up
    when it is not. *)
Definition like_step (p : PostRow) : Z := if truthy (post_isLiked p) then (-1)%Z else 1%Z.

(** What the feed can show for the post [p0] of the authoritative list:
    the post itself, up to the spelling of its flag, or the post with its
    flag negated and its count moved by [like_step]. *)
Definition within_one (p0 p : PostRow) : Prop :=
  untouched p = untouched p0 ∧
  ((post_likes p = post_likes p0 ∧ truthy (post_isLiked p) = truthy (post_isLiked p0)) ∨
   (post_likes p = (post_likes p0 + like_step p0)%Z ∧
    truthy (post_isLiked p) = negb (truthy (post_isLiked p0)))).

(** ** Sample data *)

(** Two likes of post 42 and one of post 7 in flight. *)
Definition busy_hook : Hook (list PostRow) Z := begin_all [42; 7; 42]%Z sample_hook.

(** ** Draining the queue *)

Section queue_facts.
Implicit Types (h : Hook (list PostRow) Z) (rs : list (nat * ActionResult)) (k : nat).

Lemma updatePost_resume_answer k r h :
  (updatePost_resume k r h).2 = answer k (resolution r) h.
Proof. by destruct r. Qed.

Lemma resume_all_answer rs h :
  resume_all rs h = answer_all (prod_map id resolution <$> rs) h.
Proof.
  unfold resume_all, answer_all. revert h.
  induction rs as [|[k r] rs IH]; intros h; [done|]. simpl.
  by rewrite IH, updatePost_resume_answer.
Qed.

Lemma resolution_handles rs : (prod_map id resolution <$> rs).*1 = rs.*1.
Proof. rewrite <-list_fmap_compose. apply list_fmap_ext. by intros ? [] ?. Qed.

(** C24. The answer to a like in flight shortens the queue by exactly one,
    whichever like it answers and however it ends: the number of pending
    actions is a measure that every answer decreases. *)
Theorem updatePost_resume_shortens k r h :
  wf_hook h → k ∈ (pending h).*1 →
  S (length (pending (updatePost_resume k r h).2)) = length (pending h) ∧
  wf_hook (updatePost_resume k r h).2.
Proof.
  intros Hwf Hk. rewrite updatePost_resume_answer. split; [by apply answer_shortens|].
  destruct (resolution r) as [ps|]; simpl;
    [by apply (drop_handle_wf k ps h) | by apply (drop_handle_wf k [] h)].
Qed.

(** C17. Once every like in flight has its answer, in whatever order the
    answers arrive and however each ends, nothing is pending and the feed
    shows the list of the last answer that resolved, or the list from
    before when every answer was an error. *)
Theorem likes_eventually_settle rs h :
  (pending h).*1 ⊆ rs.*1 →
  status (resume_all rs h) = Settled ∧
  optimisticState reducer (resume_all rs h) = last_resolved rs (passthrough h).
Proof.
  intros Hsub. rewrite resume_all_answer. apply answer_all_settles.
  by rewrite resolution_handles.
Qed.

End queue_facts.

(** ** Bounds on what is shown *)

Section bounds.
Implicit Types (p : PostRow) (ps : list PostRow) (i : Z).

Lemma within_one_refl p : within_one p p.
Proof. split; [done|]. by left. Qed.

Lemma untouched_toggled p : untouched (toggled p) = untouched p.
Proof. done. Qed.

Lemma toggled_within_one (p0 p : PostRow) : within_one p0 p → within_one p0 (toggled p).
Proof.
  intros [Hu H]. split; [by rewrite untouched_toggled|].
  rewrite toggled_likes. unfold like_step, toggled, js_not in *. cbn [post_isLiked set_isLiked set_likes].
  destruct H as [[-> ->]|[-> ->]]; destruct (truthy (post_isLiked p0)); simpl;
    [right|right|left|left]; split; (lia || done).
Qed.

Lemma reducer_within_one (ps0 ps : list PostRow) i :
  Forall2 within_one ps0 ps → Forall2 within_one ps0 (reducer ps i).
Proof.
  intros H. destruct (split_at_id ps i) as [Hm|(pre & p & suf & -> & <- & Hm)].
  - by rewrite (reducer_miss ps i Hm).
  - rewrite reducer_hit by done.
    apply Forall2_app_inv_r in H as (pre0 & suf0 & Hpre & Hsuf & ->).
    apply Forall2_cons_inv_r in Hsuf as (p0 & suf0' & Hp & Hsuf & ->).
    apply Forall2_app; [done|]. constructor; [by apply toggled_within_one | done].
Qed.

Lemma foldl_reducer_within_one (ps0 ps : list PostRow) (ids : list Z) :
  Forall2 within_one ps0 ps → Forall2 within_one ps0 (foldl reducer ps ids).
Proof.
  revert ps. induction ids as [|i ids IH]; intros ps H; [done|].
  simpl. by apply IH, reducer_within_one.
Qed.

Lemma within_one_bounds (p0 p : PostRow) :
  within_one p0 p →
  post_id p = post_id p0 ∧ (post_likes p0 - 1 ≤ post_likes p ≤ post_likes p0 + 1)%Z.
Proof.
  intros [Hu H]. split; [by injection Hu|].
  unfold like_step in H. destruct (truthy (post_isLiked p0)); lia.
Qed.

(** C19. However many likes are pending, and for whatever posts, every count
    the feed shows is at most one away from the authoritative count of the
    same post.  When every authoritative count has room for one like more
    and one less among the safe integers, every count that is shown is a
    safe integer: the additions of line 91 are exact. *)
Theorem shown_likes_within_one (h : Hook (list PostRow) Z) :
  Forall2 (λ p0 p, post_id p = post_id p0 ∧
                   (post_likes p0 - 1 ≤ post_likes p ≤ post_likes p0 + 1)%Z)
          (passthrough h) (optimisticState reducer h) ∧
  (Forall (λ p0, safe_integer (post_likes p0 - 1) ∧ safe_integer (post_likes p0 + 1))
          (passthrough h) →
   Forall (λ p, safe_integer (post_likes p)) (optimisticState reducer h)).
Proof.
  assert (Forall2 within_one (passthrough h) (optimisticState reducer h)) as H.
  { apply foldl_reducer_within_one, Forall2_same_length_lookup_2; [done|].
    intros k p p' ??. simplify_eq. apply within_one_refl. }
  split.
  - eapply Forall2_impl; [done|]. apply within_one_bounds.
  - intros Hs. induction H as [|p0 p ps0 ps Hp _ IH]; [done|].
    apply Forall_cons in Hs as [[Hlo Hhi] Hs]. constructor; [|by apply IH].
    apply within_one_bounds in Hp as [_ Hp]. unfold safe_integer in *. lia.
Qed.

End bounds.

(** ** Examples *)

(** Three likes in flight are answered out of order, the second one with
    an error: the feed ends settled on the list of the last answer. *)
Lemma likes_eventually_settle_witness :
  status (resume_all [(2, Resolved [other_post; liked_post]); (0, Rejected "MutationFailed");
                      (1, Resolved sample_posts)] busy_hook) = Settled ∧
  optimisticState reducer
    (resume_all [(2, Resolved [other_post; liked_post]); (0, Rejected "MutationFailed");
                 (1, Resolved sample_posts)] busy_hook) = sample_posts.
Proof.
  apply (likes_eventually_settle
           [(2, Resolved [other_post; liked_post]); (0, Rejected "MutationFailed");
            (1, Resolved sample_posts)] busy_hook).
  vm_compute. set_solver.
Defined.

Lemma updatePost_resume_shortens_witness :
  S (length (pending (updatePost_resume 1 (Rejected "MutationFailed") busy_hook).2))
  = length (pending busy_hook) ∧
  wf_hook (updatePost_resume 1 (Rejected "MutationFailed") busy_hook).2.
Proof.
  apply (updatePost_resume_shortens 1 (Rejected "MutationFailed") busy_hook).
  - split; [by repeat constructor | by apply (bool_decide_unpack _)].
  - by apply (bool_decide_unpack _).
Defined.

(** With three likes in flight every count shown is within one of the
    authoritative count, and a safe integer. *)
Lemma shown_likes_within_one_witness :
  Forall2 (λ p0 p, post_id p = post_id p0 ∧
                   (post_likes p0 - 1 ≤ post_likes p ≤ post_likes p0 + 1)%Z)
          (passthrough busy_hook) (optimisticState reducer busy_hook) ∧
  Forall (λ p, safe_integer (post_likes p)) (optimisticState reducer busy_hook).
Proof.
  destruct (shown_likes_within_one busy_hook) as [Hnear Hsafe].
  split; [exact Hnear|]. apply Hsafe. by apply (bool_decide_unpack _).
Defined.
