(* ===== verification/News.v ===== *)
(** * The news feature (4-routing-and-page-rendering)

    - lib/news.js: the seven queries on the table [news] of data.db;
    - app/(content)/archive/@archive/[[...filter]]/page.js: [FilterHeader],
      [FilteredNews] and the page that renders both for a catch-all route;
    - app/(content)/archive/layout.js, app/(content)/news/page.js,
      app/(content)/news/[id]/page.js with its not-found.js, and the two
      image pages under news/[id].

    A query is a function of the table, which the sources only read.  The
    table is the list of its rows in scan order.  Its schema is not part of
    the sources: a row carries the five columns the pages read, all TEXT,
    and [id] is compared as text.  SQLite's [strftime] is a parameter of the
    queries ([None] is SQL NULL, its answer on a text that is not a date):
    every theorem holds for any such function, and [iso_strftime] below is
    the one the examples run with.

    Left out: the two-second timer every asynchronous query awaits before it
    returns, and the [console.log] calls; neither changes a result. *)

From stdpp Require Import prelude strings list sorting.
From S2P Require Import Prelude.

(** ** Rows and values *)

Record NewsRow := mkNews {
  news_id : string;
  news_title : string;
  news_content : string;
  news_date : string;
  news_image : string
}.

#[export] Instance NewsRow_eq_dec : EqDecision NewsRow.
Proof. solve_decision. Defined.

(** Data that the trees of this feature carry: the rows handed to
    [NewsList], a value interpolated as a child or a key, and the
    paragraph given to [Suspense] as its fallback. *)
Inductive NewsData :=
| DRows (news : list NewsRow)
| DJs (v : JsVal)
| DParagraph (text : string).

(** A column value as the driver hands it to JavaScript. *)
Definition sql_value (o : option string) : JsVal := from_option JStr JNull o.

(** [expression = ?] in a WHERE clause, for an expression that is a text or
    NULL: true when the parameter is the same text. *)
Definition sql_eq (column : option string) (param : SqlVal) : Prop :=
  match param with
  | SText s => column = Some s
  | SNull | SInt _ => False
  end.

#[export] Instance sql_eq_dec column param : Decision (sql_eq column param).
Proof. destruct param; simpl; apply _. Defined.

Arguments sql_eq : simpl never.

(** [ORDER BY date DESC]: no row before one of a later date. *)
Definition date_ge (r1 r2 : NewsRow) : Prop := str_le (news_date r2) (news_date r1).

#[export] Instance date_ge_dec r1 r2 : Decision (date_ge r1 r2).
Proof. unfold date_ge. apply _. Defined.

Definition order_by_date_desc (rows : list NewsRow) : list NewsRow :=
  merge_sort date_ge rows.

(** ** An instance for the examples *)

(** [strftime] on dates written YYYY-MM-DD, the only ones of the examples:
    the year is the first four characters, the month the sixth and
    seventh. *)
Definition iso_strftime (format date : string) : option string :=
  if bool_decide (String.length date = 10) then
    if bool_decide (format = "%Y") then Some (String.substring 0 4 date)
    else if bool_decide (format = "%m") then Some (String.substring 5 2 date)
    else None
  else None.

Definition sample_news : list NewsRow := [
  mkNews "n1" "Will AI Replace Humans?" "Not yet." "2021-07-01" "ai-robot.jpg";
  mkNews "n2" "Beaver Plague" "Beavers." "2022-05-01" "beaver.jpg";
  mkNews "n3" "Couple Cooking" "Cooking." "2024-03-01" "couple-cooking.jpg";
  mkNews "n4" "Hiking" "Hiking." "2024-01-01" "hiking.jpg";
  mkNews "n5" "Landscape" "Landscape." "2024-07-01" "landscape.jpg" ].

(** ** lib/news.js *)

Section queries.
Context {driver : Driver} (strftime : string → string → option string).
Implicit Types (db : list NewsRow) (r : NewsRow).

Definition year_of r : option string := strftime "%Y" (news_date r).
Definition month_of r : option string := strftime "%m" (news_date r).

Definition getAllNews db : list NewsRow := db.

(** [.get] answers the first row selected, or [undefined]. *)
Definition getNewsItem db (slug : JsVal) : option NewsRow :=
  head (filter (λ r, news_id r = template slug) db).

Definition getLatestNews db : list NewsRow := take 3 (order_by_date_desc db).

Definition getAvailableNewsYears db : list JsVal :=
  sql_value <$> distinct (year_of <$> db).

Definition getAvailableNewsMonths db (year : JsVal) : Outcome (list JsVal) :=
  y ← bind year;
  mret (sql_value <$> distinct (month_of <$> filter (λ r, sql_eq (year_of r) y) db)).

Definition getNewsForYear db (year : JsVal) : Outcome (list NewsRow) :=
  y ← bind year;
  mret (order_by_date_desc (filter (λ r, sql_eq (year_of r) y) db)).

Definition getNewsForYearAndMonth db (year month : JsVal) : Outcome (list NewsRow) :=
  y ← bind year;
  m ← bind month;
  mret (order_by_date_desc
          (filter (λ r, sql_eq (year_of r) y ∧ sql_eq (month_of r) m) db)).

(** ** archive/@archive/[[...filter]]/page.js *)

Definition invalid_filter (year month : JsVal) : string :=
  "Invalid filter: Year " +:+ template year +:+ " or Month " +:+ template month
    +:+ " does not exist.".

(** [href] of a link of the header. *)
Definition link_href (year link : JsVal) : string :=
  if truthy year then "/archive/" +:+ template year +:+ "/" +:+ template link
  else "/archive/" +:+ template link.

Definition filter_link (year link : JsVal) : Html NewsData :=
  let href := link_href year link in
  Node "li" [("key", AData (DJs link))] [
    Val (AStr " ");
    Node "Link" [("href", AStr href)] [Val (AData (DJs link))] ].

Definition header_view (year : JsVal) (links : list JsVal) : Html NewsData :=
  Node "header" [("id", AStr "archive-header")] [
    Node "nav" [] [
      Node "ul" [] (filter_link year <$> links) ] ].

Definition FilterHeader db (year month : JsVal) : Outcome (Html NewsData) :=
  let availableYears := getAvailableNewsYears db in
  links ← (if truthy year && negb (truthy month)
           then getAvailableNewsMonths db year
           else mret availableYears);
  let links := if truthy year && truthy month then [] else links in
  invalid ← (if truthy year && negb (includes availableYears year) then mret true
             else if truthy month
             then months ← getAvailableNewsMonths db year;
                  mret (negb (includes months month))
             else mret false);
  if invalid : bool then Throw (invalid_filter year month)
  else mret (header_view year links).

Definition no_news : Html NewsData :=
  Node "p" [] [Text "No news found for the selected period."].

(** The content for a list that was selected: [NewsList] unless it is
    empty. *)
Definition news_view (news : list NewsRow) : Html NewsData :=
  if bool_decide (0 < length news)
  then Node "NewsList" [("news", AData (DRows news))] []
  else no_news.

Definition FilteredNews db (year month : JsVal) : Outcome (Html NewsData) :=
  news ← (if truthy year && negb (truthy month)
          then news ← getNewsForYear db year; mret (Some news)
          else if truthy year && truthy month
          then news ← getNewsForYearAndMonth db year month; mret (Some news)
          else mret None);
  mret (match news with
        | Some news => news_view news
        | None => no_news
        end).

(** [filter?.[i]]: [undefined] without a filter or past its end. *)
Definition segment (filter : option (list string)) (i : nat) : JsVal :=
  match filter with
  | None => JUndefined
  | Some l => from_option JStr JUndefined (l !! i)
  end.

Definition suspense (fallback : string) (child : Html NewsData) : Html NewsData :=
  Node "Suspense" [("fallback", AData (DParagraph fallback))] [child].

(** The page.  The two boundaries render side by side and each shows its
    fallback until its child is there; a boundary does not catch an error,
    so that an error thrown under either replaces the segment, and with it
    what the other rendered.  The outcome of the page is therefore one
    outcome, the first error of the two components.  On a route the news
    never throw ([FilteredNewsPage_boundaries]): the page throws exactly
    when the header does, and the order of the two here loses nothing. *)
Definition FilteredNewsPage db (filter : option (list string))
  : Outcome (Html NewsData) :=
  let selectedYear := segment filter 0 in
  let selectedMonth := segment filter 1 in
  header ← FilterHeader db selectedYear selectedMonth;
  news ← FilteredNews db selectedYear selectedMonth;
  mret (Fragment [suspense "Loading filter..." header;
                  suspense "Loading news..." news]).

(** ** archive/layout.js: the slot [children] is not rendered. *)
Definition ArchiveLayout (children archive latest : Html NewsData) : Html NewsData :=
  Fragment [
    Node "h1" [] [Text "News Archive"];
    Node "section" [("id", AStr "archive-filter")] [archive];
    Node "section" [("id", AStr "archive-latest")] [latest] ].

(** ** news/page.js *)
Definition NewsPage db : Html NewsData :=
  let news := getAllNews db in
  Fragment [
    Node "h1" [] [Text "News Page"];
    Node "NewsList" [("news", AData (DRows news))] [] ].

(** ** news/[id]/page.js and its not-found.js *)

Definition news_image_tag (newsItem : NewsRow) : Html NewsData :=
  Node "img" [("src", AStr ("/images/news/" +:+ news_image newsItem));
              ("alt", AStr (news_title newsItem))] [].

Definition article_view (newsItem : NewsRow) : Html NewsData :=
  Node "article" [("className", AStr "news-article")] [
    Node "header" [] [
      Node "Link" [("href", AStr ("/news/" +:+ news_id newsItem +:+ "/image"))]
        [news_image_tag newsItem];
      Node "h1" [] [Val (AStr (news_title newsItem))];
      Node "time" [("datetime", AStr (news_date newsItem))]
        [Val (AStr (news_date newsItem))] ];
    Node "p" [] [Val (AStr (news_content newsItem))] ].

Definition NewsDetailPage db (id : string) : Outcome (Html NewsData) :=
  match getNewsItem db (JStr id) with
  | None => NotFound
  | Some newsItem => Done (article_view newsItem)
  end.

Definition NewsNotFoundPage : Html NewsData :=
  Fragment [
    Node "div" [("id", AStr "error")] [
      Node "h1" [] [Text "Now Found!"];
      Node "p" [] [Text "Unfortunately, we could not find requested article!"] ] ].

(** ** news/[id]/image/page.js and news/[id]/@modal/(.)image/page.js *)

Definition fullscreen_image (newsItem : NewsRow) : Html NewsData :=
  Node "div" [("className", AStr "fullscreen-image")] [news_image_tag newsItem].

(** The page shown on a reload reads the array [DUMMY_NEWS] ... *)
Definition ImagePage (DUMMY_NEWS : list NewsRow) (id : string)
  : Outcome (Html NewsData) :=
  match list_find (λ news, news_id news = id) DUMMY_NEWS with
  | None => NotFound
  | Some (_, newsItem) => Done (fullscreen_image newsItem)
  end.

Definition modal_view (newsItem : NewsRow) : Html NewsData :=
  Fragment [
    Node "ModalBackdrop" [] [];
    Node "dialog" [("className", AStr "modal"); ("open", ABool true)]
      [fullscreen_image newsItem] ].

(** ... and the one shown over the article reads the table. *)
Definition InterceptedImagePage db (id : string) : Outcome (Html NewsData) :=
  match getNewsItem db (JStr id) with
  | None => NotFound
  | Some newsItem => Done (modal_view newsItem)
  end.

(** ** What the pages promise *)

(** The table holds news of that year (and month). *)
Definition has_news db (y : string) : Prop :=
  Exists (λ r, year_of r = Some y) db.

Definition has_news_in db (y m : string) : Prop :=
  Exists (λ r, year_of r = Some y ∧ month_of r = Some m) db.

(** A filter names a year of which there is news, and a month of that year
    in which there is. *)
Definition valid_filter db (year month : JsVal) : Prop :=
  (truthy year → ∃ y, year = JStr y ∧ has_news db y) ∧
  (truthy month → ∃ y m, year = JStr y ∧ month = JStr m ∧ has_news_in db y m).

(** A tree that shows a non-empty list of news. *)
Definition shows_news (h : Html NewsData) : Prop :=
  ∃ news, news ≠ [] ∧ h = Node "NewsList" [("news", AData (DRows news))] [].

(** ** The order and the selections *)

#[export] Instance date_ge_trans : Transitive date_ge.
Proof. intros r1 r2 r3 H12 H23. unfold date_ge in *. by etrans. Qed.

#[export] Instance date_ge_total : Total date_ge.
Proof. intros r1 r2. unfold date_ge. apply str_le_total. Qed.

#[export] Instance sql_value_inj : Inj eq eq sql_value.
Proof. intros [a|] [b|] ?; by simplify_eq/=. Qed.

Lemma order_by_date_desc_Permutation rows : order_by_date_desc rows ≡ₚ rows.
Proof. apply merge_sort_Permutation. Qed.

Lemma order_by_date_desc_sorted rows : StronglySorted date_ge (order_by_date_desc rows).
Proof. apply StronglySorted_merge_sort; apply _. Qed.

Lemma order_by_date_desc_nil rows : order_by_date_desc rows = [] ↔ rows = [].
Proof.
  rewrite <-!Permutation_nil_r. by rewrite order_by_date_desc_Permutation.
Qed.

Lemma sql_eq_Some (column : option string) s : sql_eq column (SText s) ↔ column = Some s.
Proof. done. Qed.

Implicit Types (y m id : string) (v : JsVal).

Lemma filter_year db y :
  filter (λ r, sql_eq (year_of r) (SText y)) db = filter (λ r, year_of r = Some y) db.
Proof. apply list_filter_iff. intros r. apply sql_eq_Some. Qed.

Lemma filter_year_month db y m :
  filter (λ r, sql_eq (year_of r) (SText y) ∧ sql_eq (month_of r) (SText m)) db
  = filter (λ r, month_of r = Some m) (filter (λ r, year_of r = Some y) db).
Proof.
  rewrite list_filter_filter. apply list_filter_iff. intros r.
  rewrite !sql_eq_Some. tauto.
Qed.

Lemma has_news_filter db y : has_news db y ↔ filter (λ r, year_of r = Some y) db ≠ [].
Proof. by rewrite filter_nonempty. Qed.

Lemma has_news_in_filter db y m :
  has_news_in db y m ↔
  filter (λ r, month_of r = Some m) (filter (λ r, year_of r = Some y) db) ≠ [].
Proof.
  rewrite list_filter_filter, filter_nonempty. unfold has_news_in.
  apply Exists_proper; [|done]. intros r. tauto.
Qed.

Lemma elem_of_years db v :
  v ∈ getAvailableNewsYears db ↔ ∃ r, r ∈ db ∧ sql_value (year_of r) = v.
Proof.
  unfold getAvailableNewsYears. rewrite list_elem_of_fmap. split.
  - intros (o & -> & (r & -> & Hr)%elem_of_distinct%list_elem_of_fmap). eauto.
  - intros (r & Hr & <-). eexists. split; [done|].
    apply elem_of_distinct, list_elem_of_fmap. eauto.
Qed.

Lemma year_listed db y : JStr y ∈ getAvailableNewsYears db ↔ has_news db y.
Proof.
  rewrite elem_of_years. unfold has_news. rewrite Exists_exists.
  split; intros (r & Hr & E); exists r; split; try done.
  - by apply (inj sql_value).
  - by rewrite E.
Qed.

Lemma months_of_year db y :
  getAvailableNewsMonths db (JStr y)
  = Done (sql_value <$> distinct (month_of <$> filter (λ r, year_of r = Some y) db)).
Proof. unfold getAvailableNewsMonths. simpl. by rewrite filter_year. Qed.

Lemma month_listed db y m months :
  getAvailableNewsMonths db (JStr y) = Done months →
  JStr m ∈ months ↔ has_news_in db y m.
Proof.
  rewrite months_of_year. intros [=<-]. rewrite list_elem_of_fmap.
  unfold has_news_in. rewrite Exists_exists. split.
  - intros (o & E & (r & -> & Hr)%elem_of_distinct%list_elem_of_fmap).
    apply list_elem_of_filter in Hr as [? ?]. exists r.
    split_and!; [done..|]. by apply (inj sql_value).
  - intros (r & Hr & Hy & Hm). exists (month_of r). split; [by rewrite Hm|].
    apply elem_of_distinct, list_elem_of_fmap. exists r. split; [done|].
    by apply list_elem_of_filter.
Qed.

(** A parameter that is no text selects nothing. *)
Lemma months_of_no_text db (param : SqlVal) :
  (∀ s, param ≠ SText s) → filter (λ r, sql_eq (year_of r) param) db = [].
Proof.
  intros Hp. induction db as [|r db IH]; [done|].
  rewrite filter_cons_False; [done|]. destruct param; [tauto..|by destruct (Hp s)].
Qed.

(** ** The header and the news of a filter *)

(** The links of a header: the months of the year, nothing below a month,
    the years otherwise. *)
Lemma FilterHeader_year db y month :
  FilterHeader db (JStr y) month =
    months ← getAvailableNewsMonths db (JStr y);
    if truthy (JStr y) && negb (includes (getAvailableNewsYears db) (JStr y))
       || truthy month && negb (includes months month)
    then Throw (invalid_filter (JStr y) month)
    else mret (header_view (JStr y)
                 (if truthy (JStr y)
                  then if truthy month then [] else months
                  else getAvailableNewsYears db)).
Proof.
  unfold FilterHeader. rewrite months_of_year. simpl.
  destruct (negb (bool_decide (y = ""))), (truthy month),
    (includes (getAvailableNewsYears db) (JStr y)); simpl; try done;
    by destruct (includes _ month).
Qed.

Lemma FilterHeader_no_month db year :
  truthy year = false →
  FilterHeader db year JUndefined = Done (header_view year (getAvailableNewsYears db)).
Proof. unfold FilterHeader. simpl. by intros ->. Qed.

Lemma valid_filter_year db y month :
  valid_filter db (JStr y) month ↔
  (truthy (JStr y) → has_news db y) ∧
  (truthy month → ∃ m, month = JStr m ∧ has_news_in db y m).
Proof.
  unfold valid_filter. split; intros [Hy Hm]; split.
  - intros H. by destruct (Hy H) as (? & [= <-] & ?).
  - intros H. destruct (Hm H) as (? & m & [= <-] & ? & ?). eauto.
  - eauto.
  - intros H. destruct (Hm H) as (m & ? & ?). eauto.
Qed.

Lemma included_month db y month months :
  getAvailableNewsMonths db (JStr y) = Done months → truthy month = true →
  includes months month = true ↔ ∃ m, month = JStr m ∧ has_news_in db y m.
Proof.
  intros Hms Hm. rewrite includes_true. split.
  - intros Hin. assert (∃ m, month = JStr m) as [m ->].
    { rewrite months_of_year in Hms. injection Hms as <-.
      apply list_elem_of_fmap in Hin as ([m|] & -> & _); [eauto | done]. }
    exists m. split; [done|]. by apply (month_listed db y m months).
  - intros (m & -> & ?). by apply (month_listed db y m months).
Qed.

Lemma FilterHeader_year_done db y month :
  is_done (FilterHeader db (JStr y) month) = true ↔ valid_filter db (JStr y) month.
Proof.
  rewrite FilterHeader_year, valid_filter_year, <-year_listed, <-includes_true.
  destruct (getAvailableNewsMonths db (JStr y)) as [months| | |] eqn:Hms;
    try by rewrite months_of_year in Hms.
  simpl. destruct (truthy month) eqn:Hm; simpl.
  - rewrite <-(included_month db y month months) by done.
    destruct (negb (bool_decide (y = ""))), (includes _ (JStr y)),
      (includes months month); simpl; naive_solver.
  - destruct (negb (bool_decide (y = ""))), (includes _ (JStr y)); simpl; naive_solver.
Qed.

(** Without a year that is a text, a month is never valid, and the header
    does not return. *)
Lemma FilterHeader_no_year db year month :
  (∀ y, year ≠ JStr y) → truthy month = true →
  is_done (FilterHeader db year month) = false.
Proof.
  intros Hy Hm. unfold FilterHeader, getAvailableNewsMonths. rewrite Hm.
  destruct year as [| |[]|n|y]; simpl; try destruct binds_undefined; simpl;
    rewrite ?months_of_no_text by done; simpl;
    try (by destruct (Hy y)); by repeat (case_match; simpl).
Qed.

Lemma FilterHeader_done_iff db year month :
  is_done (FilterHeader db year month) = true ↔ valid_filter db year month.
Proof.
  assert ((∃ y, year = JStr y) ∨ ∀ y, year ≠ JStr y) as [[y ->]|Hy']
    by (destruct year; eauto); [apply FilterHeader_year_done|].
  destruct (truthy month) eqn:Hm.
  - rewrite FilterHeader_no_year by done. unfold valid_filter. rewrite Hm. naive_solver.
  - unfold valid_filter, FilterHeader. rewrite Hm, andb_false_r, andb_true_r. simpl.
    destruct (truthy year) eqn:Ht; simpl.
    + destruct year as [| |[]|n|y]; simpl in *; try done; [| |by destruct (Hy' y)].
      * split; [done|]. intros [H _]. by destruct H as (? & [=] & _).
      * rewrite months_of_no_text by done. simpl.
        replace (includes _ (JNum n)) with false; simpl.
        { split; [done|]. intros [H _]. by destruct H as (? & [=] & _). }
        symmetry. apply includes_false. intros (r & _ & E)%elem_of_years.
        by destruct (year_of r).
    + split; [intros _; split; intros []|done].
Qed.

Lemma FilterHeader_year_outcome db y month :
  (∃ links, FilterHeader db (JStr y) month = Done (header_view (JStr y) links)) ∨
  FilterHeader db (JStr y) month = Throw (invalid_filter (JStr y) month).
Proof.
  rewrite FilterHeader_year, months_of_year. simpl.
  destruct (_ || _); [by right | left; eauto].
Qed.

Lemma getNewsForYear_text db y :
  getNewsForYear db (JStr y)
  = Done (order_by_date_desc (filter (λ r, year_of r = Some y) db)).
Proof. unfold getNewsForYear. simpl. by rewrite filter_year. Qed.

Lemma getNewsForYearAndMonth_text db y m :
  getNewsForYearAndMonth db (JStr y) (JStr m)
  = Done (order_by_date_desc
            (filter (λ r, month_of r = Some m) (filter (λ r, year_of r = Some y) db))).
Proof. unfold getNewsForYearAndMonth. simpl. by rewrite filter_year_month. Qed.

Lemma news_view_shows news : news ≠ [] → shows_news (news_view news).
Proof.
  intros H. exists news. split; [done|]. unfold news_view.
  rewrite bool_decide_eq_true_2; [done|]. destruct news; [done | simpl; lia].
Qed.

Lemma FilteredNews_year db y :
  truthy (JStr y) = true →
  FilteredNews db (JStr y) JUndefined
  = Done (news_view (order_by_date_desc (filter (λ r, year_of r = Some y) db))).
Proof.
  intros Hy. unfold FilteredNews. by rewrite Hy, getNewsForYear_text.
Qed.

Lemma FilteredNews_year_month db y m :
  truthy (JStr y) = true → truthy (JStr m) = true →
  FilteredNews db (JStr y) (JStr m)
  = Done (news_view (order_by_date_desc
       (filter (λ r, month_of r = Some m) (filter (λ r, year_of r = Some y) db)))).
Proof.
  intros Hy Hm. unfold FilteredNews. by rewrite Hy, Hm, getNewsForYearAndMonth_text.
Qed.

Lemma FilteredNews_no_year db year month :
  truthy year = false → FilteredNews db year month = Done no_news.
Proof. unfold FilteredNews. by intros ->. Qed.

(** The values a catch-all route hands to the page. *)
Lemma segment_route filter :
  (segment filter 0 = JUndefined ∧ segment filter 1 = JUndefined) ∨
  ∃ y, segment filter 0 = JStr y ∧
       (segment filter 1 = JUndefined ∨ ∃ m, segment filter 1 = JStr m).
Proof. destruct filter as [[|y [|m l]]|]; simpl; eauto 10. Qed.

Lemma FilteredNews_route db y month :
  month = JUndefined ∨ (∃ m, month = JStr m) →
  ∃ h, FilteredNews db (JStr y) month = Done h.
Proof.
  destruct (truthy (JStr y)) eqn:Hy; [|by rewrite FilteredNews_no_year; eauto].
  intros [->|[m ->]]; [by rewrite FilteredNews_year; eauto|].
  destruct (truthy (JStr m)) eqn:Hm; [by rewrite FilteredNews_year_month; eauto|].
  unfold FilteredNews. rewrite Hy, Hm, getNewsForYear_text. simpl. eauto.
Qed.

Lemma getNewsItem_first pre r suf id :
  Forall (λ r, news_id r ≠ id) pre → news_id r = id →
  getNewsItem (pre ++ r :: suf) (JStr id) = Some r.
Proof.
  intros Hpre Hr. unfold getNewsItem. simpl. rewrite filter_app.
  rewrite (proj2 (filter_is_nil (λ r, news_id r = id) pre))
    by by apply Forall_Exists_neg.
  by rewrite filter_cons_True.
Qed.

Lemma getNewsItem_None db id :
  getNewsItem db (JStr id) = None ↔ Forall (λ r, news_id r ≠ id) db.
Proof.
  unfold getNewsItem. simpl. by rewrite head_None, Forall_Exists_neg, filter_is_nil.
Qed.

Lemma getNewsItem_Some db id r :
  getNewsItem db (JStr id) = Some r →
  ∃ pre suf, db = pre ++ r :: suf ∧ Forall (λ r, news_id r ≠ id) pre ∧ news_id r = id.
Proof.
  induction db as [|r' db IH]; [done|]. unfold getNewsItem in *. simpl in *.
  destruct (decide (news_id r' = id)) as [E|E].
  - rewrite filter_cons_True by done. intros [= ->]. by exists [], db.
  - rewrite filter_cons_False by done. intros (pre & suf & -> & ? & ?)%IH.
    exists (r' :: pre), suf. split_and!; [done | by constructor | done].
Qed.

Lemma getNewsItem_list_find db id :
  getNewsItem db (JStr id) = snd <$> list_find (λ r, news_id r = id) db.
Proof.
  unfold getNewsItem. simpl. induction db as [|r db IH]; [done|]. simpl.
  destruct (decide (news_id r = id)).
  - by rewrite filter_cons_True.
  - rewrite filter_cons_False, IH by done.
    by destruct (list_find _ db) as [[]|].
Qed.

(** ** Properties of the queries *)

(** C12. [getNewsForYear] returns the rows of the year, each as often as the
    table holds it, latest date first. *)
Theorem getNewsForYear_sorted_selection db y :
  ∃ news, getNewsForYear db (JStr y) = Done news ∧
          news ≡ₚ filter (λ r, year_of r = Some y) db ∧
          StronglySorted date_ge news.
Proof.
  eexists. split; [apply getNewsForYear_text|].
  split; [apply order_by_date_desc_Permutation | apply order_by_date_desc_sorted].
Qed.

(** [getNewsForYearAndMonth] returns the rows that [getNewsForYear]
    returns for the year and that are of the month, latest date first. *)
Theorem getNewsForYearAndMonth_refines_year db y m :
  ∃ ym yr, getNewsForYearAndMonth db (JStr y) (JStr m) = Done ym ∧
           getNewsForYear db (JStr y) = Done yr ∧
           ym ≡ₚ filter (λ r, month_of r = Some m) yr ∧
           StronglySorted date_ge ym.
Proof.
  do 2 eexists. split; [apply getNewsForYearAndMonth_text|].
  split; [apply getNewsForYear_text|]. split; [|apply order_by_date_desc_sorted].
  by rewrite !order_by_date_desc_Permutation.
Qed.

(** C30. [getLatestNews] returns three rows, or the whole table if it holds
    fewer, latest first, and no row left out is of a later date than one
    returned. *)
Theorem getLatestNews_newest_three db :
  ∃ rest, getLatestNews db ++ rest ≡ₚ db ∧
          length (getLatestNews db) = 3 `min` length db ∧
          StronglySorted date_ge (getLatestNews db) ∧
          ∀ r r', r ∈ getLatestNews db → r' ∈ rest → date_ge r r'.
Proof.
  exists (drop 3 (order_by_date_desc db)). unfold getLatestNews.
  pose proof (order_by_date_desc_sorted db) as Hs.
  rewrite <-(take_drop 3 (order_by_date_desc db)) in Hs.
  split_and!.
  - by rewrite take_drop, order_by_date_desc_Permutation.
  - by rewrite length_take, order_by_date_desc_Permutation.
  - by apply StronglySorted_app_1_l in Hs.
  - intros r r'. by apply StronglySorted_app_1_elem_of.
Qed.

(** [getAvailableNewsYears] lists each year of the table once, NULL
    included when a date has no year. *)
Theorem getAvailableNewsYears_distinct_complete db :
  NoDup (getAvailableNewsYears db) ∧
  ∀ v, v ∈ getAvailableNewsYears db ↔ ∃ r, r ∈ db ∧ sql_value (year_of r) = v.
Proof.
  split; [|apply elem_of_years].
  unfold getAvailableNewsYears. apply (NoDup_fmap_2 _), NoDup_distinct.
Qed.

(** [getAvailableNewsMonths] lists, for a year given as text, each
    month in which the table holds news of that year, once. *)
Theorem getAvailableNewsMonths_distinct_complete db y :
  ∃ months, getAvailableNewsMonths db (JStr y) = Done months ∧ NoDup months ∧
            ∀ m, JStr m ∈ months ↔ has_news_in db y m.
Proof.
  eexists. split; [apply months_of_year|]. split.
  - apply (NoDup_fmap_2 _), NoDup_distinct.
  - intros m. apply month_listed, months_of_year.
Qed.

(** ** Properties of the archive page *)

(** C9. [FilterHeader] returns exactly on a valid filter, and then shows
    a header; on any other filter it unwinds. *)
Theorem FilterHeader_returns_iff_valid db year month :
  (valid_filter db year month →
   ∃ links, FilterHeader db year month = Done (header_view year links)) ∧
  (¬ valid_filter db year month → is_done (FilterHeader db year month) = false).
Proof.
  rewrite <-FilterHeader_done_iff. split.
  - destruct year as [| |b|n|y]; try (destruct (FilterHeader_year_outcome db y month)
      as [?| ->]; by eauto); unfold FilterHeader, getAvailableNewsMonths, bind;
      try destruct binds_undefined; repeat (case_match; simpl; try done); eauto.
  - by destruct (is_done _).
Qed.

(** C11. On a valid filter that names a year, [FilteredNews] shows a list of
    news that is not empty: the message for an empty period is only shown
    when no year is selected. *)
Theorem valid_filter_shows_news db year month :
  truthy year = true → valid_filter db year month →
  ∃ h, FilteredNews db year month = Done h ∧ shows_news h.
Proof.
  intros Hy [Hyear Hmonth].
  destruct Hyear as (y & -> & Hn); [by rewrite Hy|].
  destruct (truthy month) eqn:Hm.
  - destruct Hmonth as (? & m & [= <-] & -> & Hnm); [done|].
    rewrite FilteredNews_year_month by done. eexists. split; [done|].
    apply news_view_shows. rewrite order_by_date_desc_nil. by apply has_news_in_filter.
  - unfold FilteredNews. rewrite Hy, Hm, getNewsForYear_text. simpl.
    eexists. split; [done|].
    apply news_view_shows. rewrite order_by_date_desc_nil. by apply has_news_filter.
Qed.

(** The page of a route returns or throws the error of an invalid filter. *)
Lemma FilteredNewsPage_cases db filter :
  (∃ h, FilteredNewsPage db filter = Done h) ∨
  FilteredNewsPage db filter
  = Throw (invalid_filter (segment filter 0) (segment filter 1)).
Proof.
  unfold FilteredNewsPage.
  destruct (segment_route filter) as [[-> ->]|(y & -> & Hm)]; [left; by eexists|].
  destruct (FilterHeader_year_outcome db y (segment filter 1)) as [[links ->]| ->];
    [left|by right].
  destruct (FilteredNews_route db y (segment filter 1) Hm) as [h ->]. by eexists.
Qed.

(** The boundary of the news returns on every route, and the page ends as
    the header does, with the news under their boundary when it returns. *)
Lemma FilteredNewsPage_boundaries db filter :
  ∃ news, FilteredNews db (segment filter 0) (segment filter 1) = Done news ∧
          FilteredNewsPage db filter
          = header ← FilterHeader db (segment filter 0) (segment filter 1);
            mret (Fragment [suspense "Loading filter..." header;
                            suspense "Loading news..." news]).
Proof.
  unfold FilteredNewsPage.
  destruct (segment_route filter) as [[-> ->]|(y & -> & Hm)].
  - exists no_news. by rewrite FilteredNews_no_year.
  - destruct (FilteredNews_route db y (segment filter 1) Hm) as [h E]. exists h.
    split; [done|]. rewrite E. by destruct (FilterHeader _ _ _).
Qed.

(** For every route under /archive the page returns or throws the
    error of an invalid filter: it never hands [undefined] to a statement,
    since a route with a month has a year. *)
Theorem FilteredNewsPage_outcomes db filter :
  (∃ h, FilteredNewsPage db filter = Done h) ∨
  FilteredNewsPage db filter
  = Throw (invalid_filter (segment filter 0) (segment filter 1)).
Proof. apply FilteredNewsPage_cases. Qed.

(** Every link of a header leads to a filter that is valid: a year
    listed on /archive, and a month listed under that year. *)
Theorem header_links_are_valid_filters db y m months :
  JStr y ∈ getAvailableNewsYears db →
  getAvailableNewsMonths db (JStr y) = Done months → JStr m ∈ months →
  is_done (FilterHeader db (JStr y) JUndefined) = true ∧
  is_done (FilterHeader db (JStr y) (JStr m)) = true.
Proof.
  intros Hy%year_listed Hms Hm. apply (month_listed db y m months Hms) in Hm.
  rewrite !FilterHeader_done_iff, !valid_filter_year. simpl.
  split_and!; eauto; intros [].
Qed.

(** ** Properties of the news pages *)

(** The detail page answers [notFound()] exactly when no row of the
    table has the id of the route. *)
Theorem NewsDetailPage_notFound_iff db id :
  NewsDetailPage db id = NotFound ↔ Forall (λ r, news_id r ≠ id) db.
Proof.
  rewrite <-getNewsItem_None. unfold NewsDetailPage.
  by destruct (getNewsItem db (JStr id)).
Qed.

(** Otherwise it shows the first row of that id, and nothing of a
    later row with the same id. *)
Theorem NewsDetailPage_shows_first_match pre r suf id :
  Forall (λ r, news_id r ≠ id) pre → news_id r = id →
  NewsDetailPage (pre ++ r :: suf) id = Done (article_view r).
Proof.
  intros Hpre Hr. unfold NewsDetailPage. by rewrite (getNewsItem_first pre r suf id).
Qed.

(** The two image pages show the same image when they read the same
    rows. *)
Theorem image_pages_same_item db id :
  ∃ item : option NewsRow,
    ImagePage db id = from_option (Done ∘ fullscreen_image) NotFound item ∧
    InterceptedImagePage db id = from_option (Done ∘ modal_view) NotFound item.
Proof.
  exists (getNewsItem db (JStr id)). unfold ImagePage, InterceptedImagePage.
  rewrite getNewsItem_list_find. by destruct (list_find _ db) as [[]|].
Qed.

(** C37. They do not read the same rows: the page shown on a reload reads
    the array of the module dummy-news, so an article of the table that
    the array lacks has an image over the article and none after a
    reload. *)
Theorem image_pages_diverge DUMMY_NEWS db r id :
  r ∈ db → news_id r = id → Forall (λ r, news_id r ≠ id) DUMMY_NEWS →
  ImagePage DUMMY_NEWS id = NotFound ∧ is_done (InterceptedImagePage db id) = true.
Proof.
  intros Hr Hid Hd. split.
  - unfold ImagePage.
    by assert (list_find (λ news, news_id news = id) DUMMY_NEWS = None) as ->
      by by apply list_find_None.
  - unfold InterceptedImagePage. destruct (getNewsItem db (JStr id)) eqn:E; [done|].
    apply getNewsItem_None in E. rewrite Forall_forall in E. by destruct (E r Hr).
Qed.

End queries.

#[export] Hint Rewrite sql_eq_Some : js_rw.
#[export] Hint Resolve order_by_date_desc_Permutation order_by_date_desc_sorted : js.

(** ** The theorems at the sample table *)

Lemma valid_filter_shows_news_witness :
  ∃ h, FilteredNews iso_strftime sample_news (JStr "2024") (JStr "03") = Done h ∧
       shows_news h.
Proof.
  apply (valid_filter_shows_news iso_strftime sample_news (JStr "2024") (JStr "03"));
    [done|].
  split; intros _; [exists "2024" | exists "2024", "03"]; split_and!; try done;
    apply Exists_exists; exists (mkNews "n3" "Couple Cooking" "Cooking." "2024-03-01"
      "couple-cooking.jpg"); (split; [set_solver | done]).
Defined.

Lemma header_links_are_valid_filters_witness :
  is_done (FilterHeader iso_strftime sample_news (JStr "2024") JUndefined) = true ∧
  is_done (FilterHeader iso_strftime sample_news (JStr "2024") (JStr "07")) = true.
Proof.
  apply (header_links_are_valid_filters iso_strftime sample_news "2024" "07"
           [JStr "03"; JStr "01"; JStr "07"]); [|done|]; by apply (bool_decide_unpack _).
Defined.

Lemma NewsDetailPage_shows_first_match_witness :
  NewsDetailPage sample_news "n2"
  = Done (article_view (mkNews "n2" "Beaver Plague" "Beavers." "2022-05-01" "beaver.jpg")).
Proof.
  apply (NewsDetailPage_shows_first_match (take 1 sample_news) _ (drop 2 sample_news) "n2");
    [by apply (bool_decide_unpack _) | done].
Defined.

Lemma image_pages_diverge_witness :
  ImagePage (take 2 sample_news) "n5" = NotFound ∧
  is_done (InterceptedImagePage sample_news "n5") = true.
Proof.
  apply (image_pages_diverge (take 2 sample_news) sample_news
           (mkNews "n5" "Landscape" "Landscape." "2024-07-01" "landscape.jpg") "n5");
    [| done |]; by apply (bool_decide_unpack _).
Defined.
