(* ===== verification/NewsArray.v ===== *)
(** * The news queries over an array

    src/4-routing-and-page-rendering/lib/news.js keeps, in its comments
    (lines 3 to 46), the version of its queries that ran before the
    database: the same six functions over the array [DUMMY_NEWS] of the
    module dummy-news, which the image page of the sources still reads.
    This file models that version and relates it to the queries of [News]:

    - [getNewsForYear_array] and [getNewsForYearAndMonth_array] select the
      rows the SQL statements select, which the statements then order by
      date; [getAvailableNewsYears_array] lists the years the statement
      lists, as numbers, largest first; [getLatestNews_array] returns the
      dates the statement returns when the array is ordered latest first;
    - [getAvailableNewsMonths_array] does not list the months the statement
      lists: it tests the month from zero (line 26) but records the month
      from one (line 27), so a month is listed as often as it has news, and
      a month that follows one already listed is left out.

    A JavaScript number is an [option Z] here: an integer, or [None] for
    [NaN], which an invalid date and a text that is not a number give; a
    number that is not an integer can only come from [+year], is equal to
    no year or month, and is [None] as well.  The array functions take
    [Date] and the conversion of a text to a number as arguments:
    [getFullYear] and [getMonth] (from zero) of the date a text parses to,
    and [to_number].

    The comparison is made twice.  On dates written YYYY-MM-DD, with
    [iso_getFullYear], [iso_to_number] and [iso_strftime] for the three,
    [getNewsForYear_refines_array] holds of every table and every year of
    four digits, and [getNewsForYear_padded_year] shows that the two
    versions part on a year written otherwise.  For any other three
    functions the lemmas of the section [agreement] say under which
    conditions on them the versions agree ([dates_agree]: the server does
    not shift the date to another time zone; [names_year]: the filter names
    a year the way [strftime] writes it).

    [Array.prototype.sort] with the comparator [(a, b) => b - a] is
    [sort_desc]; on an array with a [NaN] the comparator is not an order
    and the result is up to the engine. *)

From stdpp Require Import prelude strings list sorting.
From S2P Require Import Prelude News.

(** ** Numbers *)

(** [a === b] on numbers: [NaN] equals nothing. *)
Definition strict_eq (a b : option Z) : bool :=
  match a, b with
  | Some x, Some y => bool_decide (x = y)
  | _, _ => false
  end.

(** [b - a <= 0], the comparator of the [sort] calls; [NaN] is taken as
    zero. *)
Definition descending (a b : option Z) : Prop :=
  match a, b with
  | Some x, Some y => (y ≤ x)%Z
  | _, _ => True
  end.

#[export] Instance descending_dec a b : Decision (descending a b).
Proof. destruct a, b; simpl; apply _. Defined.

Definition sort_desc (l : list (option Z)) : list (option Z) := merge_sort descending l.

(** ** Instances for the examples *)

(** The value of a text of decimal digits. *)
Fixpoint digits_from (acc : Z) (s : string) : option Z :=
  match s with
  | EmptyString => Some acc
  | String c s' =>
      let d := (Z.of_N (Ascii.N_of_ascii c) - 48)%Z in
      if bool_decide (0 ≤ d ≤ 9)%Z then digits_from (10 * acc + d) s' else None
  end.

(** [getFullYear] and [getMonth] on calendar dates written YYYY-MM-DD, on
    a server whose time zone is UTC.  As [iso_strftime], they read the
    places of the digits and do not check the calendar: on a text of ten
    characters that is no date they are not what [Date] answers. *)
Definition iso_getFullYear (date : string) : option Z :=
  if bool_decide (String.length date = 10) then digits_from 0 (String.substring 0 4 date)
  else None.

Definition iso_getMonth (date : string) : option Z :=
  if bool_decide (String.length date = 10)
  then Z.pred <$> digits_from 0 (String.substring 5 2 date)
  else None.

(** The unary [+] on a text of decimal digits.  The other spellings
    JavaScript reads as a number (a sign, blanks, a point, an exponent) are
    [NaN] here; [year_text] excludes them where that matters. *)
Definition iso_to_number (s : string) : option Z := digits_from 0 s.

(** A year the way [strftime('%Y')] writes it: four decimal digits. *)
Definition year_text (y : string) : Prop :=
  String.length y = 4 ∧ is_Some (iso_to_number y).

#[export] Instance year_text_dec y : Decision (year_text y).
Proof. unfold year_text. apply _. Defined.

Section array.
Context (getFullYear getMonth to_number : string → option Z).
Implicit Types (DUMMY_NEWS : list NewsRow) (news : NewsRow).

(** The unary [+]. *)
Definition unary_plus (v : JsVal) : option Z :=
  match v with
  | JUndefined => None
  | JNull => Some 0%Z
  | JBool b => Some (if b then 1 else 0)%Z
  | JNum n => Some n
  | JStr s => to_number s
  end.

(** ** lib/news.js, lines 3 to 46 *)

Definition getAllNews_array DUMMY_NEWS : list NewsRow := DUMMY_NEWS.

Definition getLatestNews_array DUMMY_NEWS : list NewsRow := take 3 DUMMY_NEWS.

Definition getAvailableNewsYears_array DUMMY_NEWS : list (option Z) :=
  sort_desc
    (foldl (λ years news,
              let year := getFullYear (news_date news) in
              if bool_decide (year ∈ years) then years else years ++ [year])
           [] DUMMY_NEWS).

Definition getAvailableNewsMonths_array DUMMY_NEWS (year : JsVal) : list (option Z) :=
  sort_desc
    (foldl (λ months news,
              let newsYear := getFullYear (news_date news) in
              if strict_eq newsYear (unary_plus year) then
                let month := getMonth (news_date news) in
                if bool_decide (month ∈ months) then months
                else months ++ [Z.succ <$> month]
              else months)
           [] DUMMY_NEWS).

Definition getNewsForYear_array DUMMY_NEWS (year : JsVal) : list NewsRow :=
  filter (λ news, strict_eq (getFullYear (news_date news)) (unary_plus year) = true)
         DUMMY_NEWS.

Definition getNewsForYearAndMonth_array DUMMY_NEWS (year month : JsVal) : list NewsRow :=
  filter (λ news,
            let newsYear := getFullYear (news_date news) in
            let newsMonth := Z.succ <$> getMonth (news_date news) in
            strict_eq newsYear (unary_plus year) && strict_eq newsMonth (unary_plus month)
            = true)
         DUMMY_NEWS.

(** ** When the two versions read a date alike *)

Context (strftime : string → string → option string).

(** The number a column of [strftime] stands for. *)
Definition to_num (column : option string) : option Z := column ≫= to_number.

(** [Date] and [strftime] read the date of a row alike: it is a date, and
    its year and month are the numbers of the texts [strftime] gives. *)
Definition dates_agree news : Prop :=
  is_Some (getFullYear (news_date news)) ∧
  to_num (year_of strftime news) = getFullYear (news_date news) ∧
  is_Some (getMonth (news_date news)) ∧
  to_num (month_of strftime news) = Z.succ <$> getMonth (news_date news).

(** The text [y] names its year the way [strftime] writes the year of the
    row, when it is the year of the row. *)
Definition names_year (y : string) news : Prop :=
  to_num (year_of strftime news) = to_number y → year_of strftime news = Some y.

Definition names_month (m : string) news : Prop :=
  to_num (month_of strftime news) = to_number m → month_of strftime news = Some m.

#[export] Instance dates_agree_dec news : Decision (dates_agree news).
Proof. unfold dates_agree. apply _. Defined.

#[export] Instance names_year_dec y news : Decision (names_year y news).
Proof. unfold names_year. apply _. Defined.

#[export] Instance names_month_dec m news : Decision (names_month m news).
Proof. unfold names_month. apply _. Defined.

End array.

(** ** Sample data *)

(** Two articles of January and one of February of the same year. *)
Definition winter_news : list NewsRow := [
  mkNews "w1" "Snow" "Snow." "2024-01-10" "snow.jpg";
  mkNews "w2" "Ice" "Ice." "2024-01-20" "ice.jpg";
  mkNews "w3" "Thaw" "Thaw." "2024-02-05" "thaw.jpg" ].

(** ** Numbers and sorting *)

Lemma strict_eq_true a b : strict_eq a b = true ↔ ∃ n, a = Some n ∧ b = Some n.
Proof.
  destruct a as [x|], b as [y|]; simpl; try (split; [done|by intros (? & ? & ?)]).
  rewrite bool_decide_eq_true. naive_solver.
Qed.

#[export] Instance descending_total : Total descending.
Proof. intros [x|] [y|]; simpl; try tauto. lia. Qed.

Lemma sort_desc_Permutation l : sort_desc l ≡ₚ l.
Proof. apply merge_sort_Permutation. Qed.

Lemma sort_desc_sorted l : Sorted descending (sort_desc l).
Proof. apply (Sorted_merge_sort _). Qed.

(** ** The years and the selections *)

Section agreement.
Context {driver : Driver} (getFullYear getMonth to_number : string → option Z).
Context (strftime : string → string → option string).
Implicit Types (db : list NewsRow) (r : NewsRow) (y m : string).

#[local] Abbreviation agree := (dates_agree getFullYear getMonth to_number strftime).

Lemma year_selected r y :
  agree r → names_year to_number strftime y r →
  strict_eq (getFullYear (news_date r)) (to_number y) = true ↔ year_of strftime r = Some y.
Proof.
  intros ([n Hn] & Hy & _) Hname. rewrite strict_eq_true. split.
  - intros (n' & Hn' & Hy'). apply Hname. congruence.
  - intros E. exists n. split; [done|]. rewrite <-Hn, <-Hy, E. done.
Qed.

Lemma month_selected r m :
  agree r → names_month to_number strftime m r →
  strict_eq (Z.succ <$> getMonth (news_date r)) (to_number m) = true
  ↔ month_of strftime r = Some m.
Proof.
  intros (_ & _ & [n Hn] & Hm) Hname. rewrite strict_eq_true. split.
  - intros (n' & Hn' & Hm'). apply Hname. congruence.
  - intros E. exists (Z.succ n). rewrite Hn. split; [done|].
    rewrite Hn, E in Hm. exact Hm.
Qed.

(** The rows of a year: where [Date] and [strftime] read the dates alike
    and the filter is written as [strftime] writes the year, the statement
    returns the rows the array version selects, ordered by date. *)
Lemma getNewsForYear_agrees db y :
  Forall agree db → Forall (names_year to_number strftime y) db →
  getNewsForYear strftime db (JStr y)
  = Done (order_by_date_desc (getNewsForYear_array getFullYear to_number db (JStr y))).
Proof.
  intros Ha Hn. rewrite getNewsForYear_text. do 2 f_equal. unfold getNewsForYear_array.
  apply filter_ext_in. intros r Hr. rewrite Forall_forall in Ha, Hn.
  symmetry. apply year_selected; auto.
Qed.

(** The rows of a month of a year, likewise. *)
Theorem getNewsForYearAndMonth_refines_array db y m :
  Forall agree db → Forall (names_year to_number strftime y) db →
  Forall (names_month to_number strftime m) db →
  getNewsForYearAndMonth strftime db (JStr y) (JStr m)
  = Done (order_by_date_desc
            (getNewsForYearAndMonth_array getFullYear getMonth to_number db (JStr y) (JStr m))).
Proof.
  intros Ha Hy Hm. rewrite getNewsForYearAndMonth_text, list_filter_filter. do 2 f_equal.
  unfold getNewsForYearAndMonth_array. apply filter_ext_in. intros r Hr.
  rewrite Forall_forall in Ha, Hy, Hm. cbn [unary_plus]. rewrite andb_true_iff.
  rewrite year_selected, month_selected by auto. tauto.
Qed.

(** What the [reduce] of lines 12 to 18 collects: each year once, in the
    order of first appearance. *)
Lemma years_collected db :
  foldl (λ years news,
           let year := getFullYear (news_date news) in
           if bool_decide (year ∈ years) then years else years ++ [year])
        [] db
  = distinct ((getFullYear ∘ news_date) <$> db).
Proof. exact (foldl_push_distinct (getFullYear ∘ news_date) db []). Qed.

Lemma elem_of_years_array db (x : option Z) :
  x ∈ getAvailableNewsYears_array getFullYear db ↔ ∃ r, r ∈ db ∧ getFullYear (news_date r) = x.
Proof.
  unfold getAvailableNewsYears_array. rewrite sort_desc_Permutation, years_collected.
  rewrite elem_of_distinct, list_elem_of_fmap. naive_solver.
Qed.

(** The years: the array version lists, as numbers and largest first,
    the years the statement lists as texts, each once. *)
Theorem getAvailableNewsYears_refines_array db :
  Forall agree db →
  (∀ n, Some n ∈ getAvailableNewsYears_array getFullYear db ↔
        ∃ y, JStr y ∈ getAvailableNewsYears strftime db ∧ to_number y = Some n) ∧
  None ∉ getAvailableNewsYears_array getFullYear db ∧
  NoDup (getAvailableNewsYears_array getFullYear db) ∧
  Sorted descending (getAvailableNewsYears_array getFullYear db).
Proof.
  intros Ha. rewrite Forall_forall in Ha. split_and!.
  - intros n. rewrite elem_of_years_array. setoid_rewrite elem_of_years. split.
    + intros (r & Hr & Hn). destruct (Ha r Hr) as (_ & Hy & _).
      rewrite Hn in Hy. unfold to_num in Hy.
      destruct (year_of strftime r) as [y|] eqn:E; [|done]. exists y. split; [|done].
      exists r. by rewrite E.
    + intros (y & (r & Hr & Hv) & Hn). exists r. split; [done|].
      destruct (Ha r Hr) as (_ & Hy & _). rewrite <-Hy.
      destruct (year_of strftime r); simplify_eq/=. done.
  - intros (r & Hr & Hn)%elem_of_years_array. destruct (Ha r Hr) as ([n E] & _). congruence.
  - unfold getAvailableNewsYears_array. rewrite sort_desc_Permutation, years_collected.
    apply NoDup_distinct.
  - apply sort_desc_sorted.
Qed.

End agreement.

(** ** Dates written YYYY-MM-DD *)

Section iso.
Context {driver : Driver}.
Implicit Types (db : list NewsRow) (r : NewsRow) (y : string).

Lemma digit_inj (c c' : Ascii.ascii) :
  (Z.of_N (Ascii.N_of_ascii c) - 48 = Z.of_N (Ascii.N_of_ascii c') - 48)%Z → c = c'.
Proof.
  intros H. rewrite <-(Ascii.ascii_N_embedding c), <-(Ascii.ascii_N_embedding c').
  f_equal. lia.
Qed.

(** The value of a text of digits lies in the interval its length and
    the digits read before it leave. *)
Lemma digits_from_bounds (s : string) (acc n : Z) :
  digits_from acc s = Some n →
  (acc * 10 ^ Z.of_nat (String.length s) ≤ n
   < (acc + 1) * 10 ^ Z.of_nat (String.length s))%Z.
Proof.
  revert acc. induction s as [|c s IH]; intros acc; simpl.
  { intros [= ->]. lia. }
  case_bool_decide as Hd; [|done]. intros H%IH.
  rewrite Nat2Z.inj_succ, Z.pow_succ_r by lia.
  pose proof (Z.pow_pos_nonneg 10 (Z.of_nat (String.length s))). nia.
Qed.

(** Texts of digits of one length with one value are one text. *)
Lemma digits_from_inj (s t : string) (acc n : Z) :
  String.length s = String.length t →
  digits_from acc s = Some n → digits_from acc t = Some n → s = t.
Proof.
  revert t acc. induction s as [|c s IH]; intros [|c' t] acc; simpl; try done.
  intros [= Hlen]. do 2 (case_bool_decide; [|done]). intros Hs Ht.
  pose proof (digits_from_bounds _ _ _ Hs) as Bs.
  pose proof (digits_from_bounds _ _ _ Ht) as Bt. rewrite <-Hlen in Bt.
  pose proof (Z.pow_pos_nonneg 10 (Z.of_nat (String.length s))).
  assert (Z.of_N (Ascii.N_of_ascii c) - 48 = Z.of_N (Ascii.N_of_ascii c') - 48)%Z as E by nia.
  apply digit_inj in E as <-. f_equal. by eapply IH.
Qed.

Lemma length_substring_0 (m : nat) (s : string) :
  m ≤ String.length s → String.length (String.substring 0 m s) = m.
Proof.
  revert s. induction m as [|m IH]; intros [|c s]; simpl; try done; try lia.
  intros H. f_equal. apply IH. lia.
Qed.

(** The year [strftime] writes, when it writes one: the first four
    characters of the date. *)
Lemma iso_year_of r y :
  year_of iso_strftime r = Some y ↔
  String.length (news_date r) = 10 ∧ String.substring 0 4 (news_date r) = y.
Proof.
  unfold year_of, iso_strftime. case_bool_decide; simpl; naive_solver.
Qed.

(** For a year of four digits, the test of line 36 on numbers and the test
    of the statement on texts select the same rows. *)
Lemma iso_year_selected r y :
  year_text y →
  strict_eq (iso_getFullYear (news_date r)) (iso_to_number y) = true
  ↔ year_of iso_strftime r = Some y.
Proof.
  intros [Hlen [n Hn]]. rewrite iso_year_of, strict_eq_true. unfold iso_getFullYear.
  case_bool_decide as Hd; [|naive_solver]. split.
  - intros (n' & Ha & Hy). split; [done|]. unfold iso_to_number in *.
    eapply digits_from_inj; [|done|congruence].
    rewrite length_substring_0; [done | lia].
  - intros [_ <-]. eauto.
Qed.

(** C21. The rows of a year.  For every table and every year written as four
    digits, the statement of line 101 returns the rows the array version
    of line 36 selects, ordered by date: with [Date] and [strftime] as they
    read calendar dates written YYYY-MM-DD, the comparison of numbers and
    the comparison of texts select the same rows.  No row is assumed to
    name the year, and none to be read alike by the two. *)
Theorem getNewsForYear_refines_array db y :
  year_text y →
  getNewsForYear iso_strftime db (JStr y)
  = Done (order_by_date_desc
            (getNewsForYear_array iso_getFullYear iso_to_number db (JStr y))).
Proof.
  intros Hy. rewrite getNewsForYear_text. do 2 f_equal. unfold getNewsForYear_array.
  apply filter_ext_in. intros r _. symmetry. by apply iso_year_selected.
Qed.

(** C23. The two versions of [getNewsForYear] differ on a year that is not
    written as [strftime] writes it: for a year of four digits with a zero
    in front the array version selects the rows of the year, since [+year]
    is the same number, and the statement selects nothing, since the text
    is another. *)
Theorem getNewsForYear_padded_year db y :
  year_text y →
  getNewsForYear_array iso_getFullYear iso_to_number db (JStr ("0" +:+ y))
  = getNewsForYear_array iso_getFullYear iso_to_number db (JStr y) ∧
  getNewsForYear iso_strftime db (JStr ("0" +:+ y)) = Done [].
Proof.
  intros [Hlen _]. split; [done|]. rewrite getNewsForYear_text.
  rewrite (filter_none (λ r, year_of iso_strftime r = Some ("0" +:+ y))); [done|].
  apply Forall_forall. intros r _ [Hd E]%iso_year_of.
  apply (f_equal String.length) in E. rewrite length_substring_0 in E by lia.
  change (String.length ("0" +:+ y)) with (S (String.length y)) in E. lia.
Qed.

End iso.

(** ** The latest news *)

(** Two orderings of the same rows by date, latest first, carry the same
    dates at the same places. *)
Lemma sorted_dates_unique (l1 l2 : list NewsRow) :
  StronglySorted date_ge l1 → StronglySorted date_ge l2 → l1 ≡ₚ l2 →
  news_date <$> l1 = news_date <$> l2.
Proof.
  intros H1 H2 Hp. apply (StronglySorted_unique_strong (flip str_le)).
  - intros d1 d2 _ _ Ha Hb. by apply (anti_symm str_le).
  - by apply (StronglySorted_fmap _ date_ge).
  - by apply (StronglySorted_fmap _ date_ge).
  - by rewrite Hp.
Qed.

(** On an array ordered latest first, the first three rows carry the
    dates of the three rows the statement returns. *)
Theorem getLatestNews_refines_array db :
  StronglySorted date_ge db →
  news_date <$> getLatestNews db = news_date <$> getLatestNews_array db.
Proof.
  intros Hs. unfold getLatestNews, getLatestNews_array. rewrite !fmap_take. f_equal.
  apply (sorted_dates_unique (order_by_date_desc db) db);
    [apply order_by_date_desc_sorted | done | apply order_by_date_desc_Permutation].
Qed.

(** ** The months *)

Section months.
Context (getFullYear getMonth : string → option Z) (to_number : string → option Z).
Implicit Types (r : NewsRow) (year : JsVal).

Lemma sort_desc_twice (x : option Z) : sort_desc [x; x] = [x; x].
Proof. unfold sort_desc, merge_sort. simpl. by case_match. Qed.

(** A month with two articles is listed twice. *)
Theorem getAvailableNewsMonths_array_repeats r1 r2 year (n m : Z) :
  getFullYear (news_date r1) = Some n → getFullYear (news_date r2) = Some n →
  unary_plus to_number year = Some n →
  getMonth (news_date r1) = Some m → getMonth (news_date r2) = Some m →
  getAvailableNewsMonths_array getFullYear getMonth to_number [r1; r2] year
  = [Some (Z.succ m); Some (Z.succ m)].
Proof.
  intros H1 H2 Hy M1 M2. unfold getAvailableNewsMonths_array. simpl.
  rewrite H1, H2, Hy, M1, M2. simpl. rewrite !(bool_decide_eq_true_2 (n = n)) by done.
  rewrite bool_decide_eq_false_2 by (rewrite list_elem_of_singleton; intros [=]; lia).
  apply sort_desc_twice.
Qed.

(** C22. A month that follows a month already listed is left out. *)
Theorem getAvailableNewsMonths_array_skips r1 r2 year (n m : Z) :
  getFullYear (news_date r1) = Some n → getFullYear (news_date r2) = Some n →
  unary_plus to_number year = Some n →
  getMonth (news_date r1) = Some m → getMonth (news_date r2) = Some (Z.succ m) →
  getAvailableNewsMonths_array getFullYear getMonth to_number [r1; r2] year
  = [Some (Z.succ m)].
Proof.
  intros H1 H2 Hy M1 M2. unfold getAvailableNewsMonths_array. simpl.
  rewrite H1, H2, Hy, M1, M2. simpl. rewrite !(bool_decide_eq_true_2 (n = n)) by done.
  by rewrite bool_decide_eq_true_2 by set_solver.
Qed.

End months.

(** ** Examples *)

(** The winter of the example: the statement lists January and February
    once each; the array version lists January twice and no February. *)
Example winter_months :
  getAvailableNewsMonths iso_strftime winter_news (JStr "2024") = Done [JStr "01"; JStr "02"] ∧
  getAvailableNewsMonths_array iso_getFullYear iso_getMonth (digits_from 0) winter_news
    (JStr "2024") = [Some 1%Z; Some 1%Z].
Proof. by vm_compute. Qed.

Lemma getNewsForYear_refines_array_witness :
  getNewsForYear iso_strftime sample_news (JStr "2024")
  = Done (order_by_date_desc
            (getNewsForYear_array iso_getFullYear iso_to_number sample_news (JStr "2024"))).
Proof.
  apply (getNewsForYear_refines_array sample_news "2024"). by apply (bool_decide_unpack _).
Defined.

Lemma getNewsForYear_padded_year_witness :
  getNewsForYear_array iso_getFullYear iso_to_number sample_news (JStr ("0" +:+ "2024"))
  = getNewsForYear_array iso_getFullYear iso_to_number sample_news (JStr "2024") ∧
  getNewsForYear iso_strftime sample_news (JStr ("0" +:+ "2024")) = Done [].
Proof.
  apply (getNewsForYear_padded_year sample_news "2024"). by apply (bool_decide_unpack _).
Defined.

(** /archive/02024: three articles from the array, none from the table. *)
Example padded_year_differs :
  length (getNewsForYear_array iso_getFullYear iso_to_number sample_news (JStr "02024")) = 3 ∧
  getNewsForYear iso_strftime sample_news (JStr "02024") = Done [].
Proof. by vm_compute. Qed.

Lemma getNewsForYearAndMonth_refines_array_witness :
  getNewsForYearAndMonth iso_strftime sample_news (JStr "2024") (JStr "03")
  = Done (order_by_date_desc
            (getNewsForYearAndMonth_array iso_getFullYear iso_getMonth (digits_from 0)
               sample_news (JStr "2024") (JStr "03"))).
Proof.
  apply (getNewsForYearAndMonth_refines_array iso_getFullYear iso_getMonth (digits_from 0)
           iso_strftime sample_news "2024" "03"); by apply (bool_decide_unpack _).
Defined.

Lemma getAvailableNewsYears_refines_array_witness :
  (∀ n, Some n ∈ getAvailableNewsYears_array iso_getFullYear sample_news ↔
        ∃ y, JStr y ∈ getAvailableNewsYears iso_strftime sample_news ∧
             digits_from 0 y = Some n) ∧
  None ∉ getAvailableNewsYears_array iso_getFullYear sample_news ∧
  NoDup (getAvailableNewsYears_array iso_getFullYear sample_news) ∧
  Sorted descending (getAvailableNewsYears_array iso_getFullYear sample_news).
Proof.
  apply (getAvailableNewsYears_refines_array iso_getFullYear iso_getMonth (digits_from 0)
           iso_strftime sample_news).
  by apply (bool_decide_unpack _).
Defined.

Lemma getLatestNews_refines_array_witness :
  news_date <$> getLatestNews (order_by_date_desc sample_news)
  = news_date <$> getLatestNews_array (order_by_date_desc sample_news).
Proof.
  apply (getLatestNews_refines_array (order_by_date_desc sample_news)).
  apply order_by_date_desc_sorted.
Defined.

Lemma getAvailableNewsMonths_array_repeats_witness :
  getAvailableNewsMonths_array iso_getFullYear iso_getMonth (digits_from 0)
    (take 2 winter_news) (JStr "2024") = [Some (Z.succ 0); Some (Z.succ 0)].
Proof.
  by apply (getAvailableNewsMonths_array_repeats iso_getFullYear iso_getMonth (digits_from 0)
              (mkNews "w1" "Snow" "Snow." "2024-01-10" "snow.jpg")
              (mkNews "w2" "Ice" "Ice." "2024-01-20" "ice.jpg") (JStr "2024") 2024 0).
Defined.

Lemma getAvailableNewsMonths_array_skips_witness :
  getAvailableNewsMonths_array iso_getFullYear iso_getMonth (digits_from 0)
    (drop 1 winter_news) (JStr "2024") = [Some (Z.succ 0)].
Proof.
  by apply (getAvailableNewsMonths_array_skips iso_getFullYear iso_getMonth (digits_from 0)
              (mkNews "w2" "Ice" "Ice." "2024-01-20" "ice.jpg")
              (mkNews "w3" "Thaw" "Thaw." "2024-02-05" "thaw.jpg") (JStr "2024") 2024 0).
Defined.
