(* ===== verification/ArchiveTypes.v ===== *)
(** * Types at the archive page

    The components of archive/@archive/[[...filter]]/page.js hand their
    props to the statements of lib/news.js as they are.  The driver binds
    texts, numbers and [null], throws a [TypeError] on a boolean, and does
    with [undefined], which is what a route without a segment gives, what
    the [Driver] says: the sources do not show it.  This file says, for
    either driver, for which props a component ends in that [TypeError]
    ([header_ill_typed], [news_ill_typed]), exactly, and that the props a
    route can give ([route_typed]: texts or [undefined], and no month
    without a year) are never among them: the components guard every
    statement so that, whatever the driver does with [undefined], on every
    route the page returns or throws the error of an invalid filter, never
    a [TypeError] of the driver. *)

From stdpp Require Import prelude strings list.
From S2P Require Import Prelude News.

(** The props with which [FilterHeader] hands a value to a statement that
    the driver does not bind.  The statement for the months of a year runs
    with a year and no month, for the links, and with a month and a year
    that is listed or none, for the check of the month: a year the driver
    refuses is handed over exactly when month and year differ in truth. *)
Definition header_ill_typed {driver : Driver} (year month : JsVal) : Prop :=
  bindable (js_type year) = false ∧ truthy month = negb (truthy year).

(** The same for [FilteredNews], which runs a statement only with a year:
    a year the driver refuses or, next to it, a month it refuses. *)
Definition news_ill_typed {driver : Driver} (year month : JsVal) : Prop :=
  truthy year = true ∧
  (bindable (js_type year) = false ∨
   (truthy month = true ∧ bindable (js_type month) = false)).

(** What a route gives: each prop is a text or [undefined], and there is
    no month without a year. *)
Definition route_typed (year month : JsVal) : Prop :=
  js_type year ∈ [TString; TUndefined] ∧ js_type month ∈ [TString; TUndefined] ∧
  (year = JUndefined → month = JUndefined).

#[export] Instance header_ill_typed_dec {driver : Driver} year month :
  Decision (header_ill_typed year month).
Proof. unfold header_ill_typed. apply _. Defined.

#[export] Instance news_ill_typed_dec {driver : Driver} year month :
  Decision (news_ill_typed year month).
Proof. unfold news_ill_typed. apply _. Defined.

#[export] Instance route_typed_dec year month : Decision (route_typed year month).
Proof. unfold route_typed. apply _. Defined.

(** Decides the tests on the truth of a number or a text in the goal. *)
Ltac truth_cases :=
  repeat match goal with
         | |- context [(?n =? 0)%Z] => destruct (n =? 0)%Z
         | |- context [bool_decide (?y = "")] => destruct (bool_decide (y = ""))
         end;
  simpl.

Section types.
Context {driver : Driver} (strftime : string → string → option string).
Implicit Types (db : list NewsRow) (year month : JsVal) (filter : option (list string)).

(** The error of an invalid filter is not the driver's. *)
Lemma invalid_filter_not_bind_error {A} year month :
  Throw (A:=A) (invalid_filter year month) ≠ Throw bind_error.
Proof. unfold invalid_filter. rewrite string_app_cons. by intros [=]. Qed.

Lemma segment_route_typed filter : route_typed (segment filter 0) (segment filter 1).
Proof.
  unfold route_typed, segment. destruct filter as [[|y [|m l]]|]; simpl;
    split_and!; try done; set_solver.
Qed.

Lemma route_typed_well year month :
  route_typed year month → ¬ header_ill_typed year month ∧ ¬ news_ill_typed year month.
Proof.
  unfold route_typed, header_ill_typed, news_ill_typed.
  intros (Hy & Hm & Hym). destruct year, month; simpl in *; set_solver.
Qed.

(** The years of the table are texts or [null]. *)
Lemma includes_years_boolean db b :
  includes (getAvailableNewsYears strftime db) (JBool b) = false.
Proof.
  apply includes_false. intros (r & _ & E)%elem_of_years.
  by destruct (year_of strftime r).
Qed.

(** A year that is a text is bound, whatever follows. *)
Lemma FilterHeader_text_typed db y month :
  FilterHeader strftime db (JStr y) month ≠ Throw bind_error.
Proof.
  destruct (FilterHeader_year_outcome strftime db y month) as [[links ->]| ->]; [done|].
  apply invalid_filter_not_bind_error.
Qed.

(** Without a year that is truthy the header runs a statement only to
    check a month. *)
Lemma FilterHeader_falsy_year db year month :
  truthy year = false →
  FilterHeader strftime db year month =
    if truthy month
    then months ← getAvailableNewsMonths strftime db year;
         if includes months month
         then mret (header_view year (getAvailableNewsYears strftime db))
         else Throw (invalid_filter year month)
    else mret (header_view year (getAvailableNewsYears strftime db)).
Proof.
  intros Hy. unfold FilterHeader. rewrite Hy. simpl.
  destruct (truthy month); [|done].
  destruct (getAvailableNewsMonths strftime db year) as [months| | |]; simpl; try done.
  by destruct (includes months month).
Qed.

(** A year that is truthy and no text is not among the years, so that the
    header runs a statement only without a month. *)
Lemma FilterHeader_truthy_year db year month :
  truthy year = true → (∀ y, year ≠ JStr y) →
  FilterHeader strftime db year month =
    if truthy month then Throw (invalid_filter year month)
    else getAvailableNewsMonths strftime db year ≫= λ _, Throw (invalid_filter year month).
Proof.
  intros Hy Hne. unfold FilterHeader. rewrite Hy. simpl.
  replace (includes _ year) with false; [by destruct (truthy month)|].
  symmetry. apply includes_false. intros (r & _ & E)%elem_of_years.
  destruct (year_of strftime r); simpl in E; subst; [by destruct (Hne s)|done].
Qed.

(** The months of a year: the driver's error, or a list. *)
Lemma months_type_error db year :
  if bindable (js_type year)
  then ∃ months, getAvailableNewsMonths strftime db year = Done months
  else getAvailableNewsMonths strftime db year = Throw bind_error.
Proof.
  unfold getAvailableNewsMonths. pose proof (bind_typed year) as H.
  destruct (bindable (js_type year)); [|by rewrite H].
  destruct (bind year); try done. simpl. eauto.
Qed.

Lemma FilterHeader_type_error_iff db year month :
  FilterHeader strftime db year month = Throw bind_error ↔ header_ill_typed year month.
Proof.
  unfold header_ill_typed.
  assert ((∃ y, year = JStr y) ∨ ∀ y, year ≠ JStr y) as [[y ->]|Hne]
    by (destruct year; eauto).
  { split; [by intros ?%FilterHeader_text_typed | by intros [[=] _]]. }
  pose proof (months_type_error db year) as Hms.
  destruct (truthy year) eqn:Hy.
  - rewrite FilterHeader_truthy_year by done.
    destruct (truthy month), (bindable (js_type year)); simpl.
    1,2: split; [by intros ?%invalid_filter_not_bind_error | by intros [_ ?]].
    + destruct Hms as [months ->]. simpl.
      split; [by intros ?%invalid_filter_not_bind_error | by intros [? _]].
    + by rewrite Hms.
  - rewrite FilterHeader_falsy_year by done.
    destruct (truthy month), (bindable (js_type year)); simpl.
    + destruct Hms as [months ->]. simpl. destruct (includes months month); simpl;
        (split; [|by intros [? _]]); [done | by intros ?%invalid_filter_not_bind_error].
    + by rewrite Hms.
    + split; [done | by intros [? _]].
    + split; [done | by intros [_ ?]].
Qed.

Lemma FilteredNews_type_error_iff db year month :
  FilteredNews strftime db year month = Throw bind_error ↔ news_ill_typed year month.
Proof.
  unfold news_ill_typed, FilteredNews, getNewsForYear, getNewsForYearAndMonth.
  pose proof (bind_typed year) as Hy. pose proof (bind_typed month) as Hm.
  destruct (truthy year), (truthy month); simpl; [| |naive_solver..].
  - destruct (bindable (js_type year)), (bindable (js_type month));
      destruct (bind year), (bind month); simplify_eq/=; naive_solver.
  - destruct (bindable (js_type year)); destruct (bind year); simplify_eq/=; naive_solver.
Qed.

(** C16. Type safety of the archive page.  [FilterHeader] and [FilteredNews]
    end in the [TypeError] of the driver exactly on the props listed as ill
    typed; the props of a route are not among them; and so the page of any
    route ends without that error. *)
Theorem archive_type_errors db year month filter :
  (FilterHeader strftime db year month = Throw bind_error ↔ header_ill_typed year month) ∧
  (FilteredNews strftime db year month = Throw bind_error ↔ news_ill_typed year month) ∧
  (route_typed year month →
   FilterHeader strftime db year month ≠ Throw bind_error ∧
   FilteredNews strftime db year month ≠ Throw bind_error) ∧
  FilteredNewsPage strftime db filter ≠ Throw bind_error.
Proof.
  split_and!; [apply FilterHeader_type_error_iff | apply FilteredNews_type_error_iff | |].
  - intros [H1 H2]%route_typed_well.
    by rewrite FilterHeader_type_error_iff, FilteredNews_type_error_iff.
  - destruct (FilteredNewsPage_cases strftime db filter) as [[h ->]| ->]; [done|].
    apply invalid_filter_not_bind_error.
Qed.

End types.

(** ** Examples *)

(** A component called with a year that is not a text: the driver's
    [TypeError], though the page never calls it so.  Without a year and
    with a month, the error depends on the driver. *)
Example FilterHeader_boolean_year :
  FilterHeader iso_strftime sample_news (JBool true) JUndefined = Throw bind_error ∧
  FilteredNews iso_strftime sample_news (JStr "2024") (JBool true) = Throw bind_error ∧
  @FilterHeader strict_driver iso_strftime sample_news JUndefined (JStr "03")
  = Throw bind_error ∧
  @FilterHeader lenient_driver iso_strftime sample_news JUndefined (JStr "03")
  = Throw (invalid_filter JUndefined (JStr "03")).
Proof. by vm_compute. Qed.

(** /archive under the driver that refuses [undefined]: no statement is
    given the missing year. *)
Lemma archive_type_errors_witness :
  @FilterHeader strict_driver iso_strftime sample_news JUndefined JUndefined
  ≠ Throw bind_error ∧
  @FilteredNews strict_driver iso_strftime sample_news JUndefined JUndefined
  ≠ Throw bind_error.
Proof.
  destruct (@archive_type_errors strict_driver iso_strftime sample_news
              JUndefined JUndefined None) as (_ & _ & Hroute & _).
  apply Hroute. by apply (bool_decide_unpack _).
Defined.
