(* ===== verification/Users.v ===== *)
(** * Users (8-auth/lib/user.js)

    [createUser] and [getUserByEmail] on the table [users].  The module
    ./db that creates the table is not part of the sources, so the schema is
    a parameter: a row has an integer primary key [id] and the two columns
    the INSERT names, stored as they are bound, and [unique_email] says
    whether the column [email] carries a UNIQUE constraint.  The state of a
    call is the table, as the list of its rows in rowid order. *)

From stdpp Require Import prelude strings list sorting.
From S2P Require Import Prelude.

Record UserRow := mkUser {
  user_id : Z;
  user_email : SqlVal;
  user_password : SqlVal
}.

#[export] Instance UserRow_eq_dec : EqDecision UserRow.
Proof. solve_decision. Defined.

Definition unique_failed : string := "SqliteError: UNIQUE constraint failed: users.email".

(** The row has the given email: the WHERE clause of the lookup, and the
    test of the UNIQUE constraint. *)
Definition has_email (email : SqlVal) (user : UserRow) : Prop :=
  sql_equal (user_email user) email.

#[export] Instance has_email_dec email user : Decision (has_email email user).
Proof. unfold has_email. apply _. Defined.

(** A table for the examples. *)
Definition sample_users : list UserRow := [
  mkUser 1 (SText "ada@example.org") (SText "hash-1");
  mkUser 2 (SText "bob@example.org") (SText "hash-2") ].

Section users.
Context {driver : Driver} (unique_email : bool).
Implicit Types (rows : list UserRow) (user : UserRow).

(** [INSERT INTO users (email, password) VALUES (?, ?)], then
    [result.lastInsertRowid]. *)
Definition createUser (email password : JsVal) : Act (list UserRow) Z :=
  e ← unwind (bind email);
  p ← unwind (bind password);
  rows ← get_state;
  if unique_email && bool_decide (Exists (has_email e) rows)
  then unwind (Throw unique_failed)
  else
    let id := rowid_after (user_id <$> rows) in
    modify_state (λ rows, rows ++ [mkUser id e p]);;
    mret id.

(** [SELECT * FROM users WHERE email = ?] with [.get], then [user || null]:
    the first row selected, or [null] ([None]). *)
Definition getUserByEmail (email : JsVal) : Act (list UserRow) (option UserRow) :=
  e ← unwind (bind email);
  rows ← get_state;
  let user := head (filter (has_email e) rows) in
  mret user.

(** The table respects its schema: rowids are positive and increase, and
    under the UNIQUE constraint no email is that of two rows. *)
Definition unique_emails rows : Prop :=
  NoDup (filter (λ email, email ≠ SNull) (user_email <$> rows)).

Definition wf_users rows : Prop :=
  StronglySorted Z.lt (user_id <$> rows) ∧
  Forall (λ user, 0 < user_id user)%Z rows ∧
  (unique_email = true → unique_emails rows).

#[export] Instance wf_users_dec rows : Decision (wf_users rows).
Proof. unfold wf_users, unique_emails. apply _. Defined.

(** ** What a call does, case by case *)

Lemma createUser_done email password e p rows :
  bind email = Done e → bind password = Done p →
  (unique_email = true → ¬ Exists (has_email e) rows) →
  createUser email password rows
  = (Done (rowid_after (user_id <$> rows)),
     rows ++ [mkUser (rowid_after (user_id <$> rows)) e p]).
Proof.
  intros He Hp Hu. unfold createUser, unwind, mbind, Act_bind. rewrite He, Hp. simpl.
  destruct unique_email; simpl; [|done]. by rewrite bool_decide_eq_false_2 by auto.
Qed.

Lemma createUser_duplicate email password e p rows :
  bind email = Done e → bind password = Done p →
  unique_email = true → Exists (has_email e) rows →
  createUser email password rows = (Throw unique_failed, rows).
Proof.
  intros He Hp Hu Hex. unfold createUser, unwind, mbind, Act_bind.
  rewrite He, Hp, Hu. simpl. by rewrite bool_decide_eq_true_2.
Qed.

Lemma createUser_unbound email password rows :
  bind email = Throw bind_error ∨ (is_done (bind email) = true ∧ bind password = Throw bind_error) →
  createUser email password rows = (Throw bind_error, rows).
Proof.
  unfold createUser, unwind, mbind, Act_bind. intros [->|[He ->]]; [done|].
  by destruct (bind email).
Qed.

Lemma bind_cases v : (∃ x, bind v = Done x) ∨ bind v = Throw bind_error.
Proof. destruct v; simpl; try destruct binds_undefined; eauto. Qed.

(** Every call of [createUser] is one of the three cases. *)
Lemma createUser_cases email password rows :
  (∃ e p, bind email = Done e ∧ bind password = Done p ∧
          ¬ (unique_email = true ∧ Exists (has_email e) rows) ∧
          createUser email password rows
          = (Done (rowid_after (user_id <$> rows)),
             rows ++ [mkUser (rowid_after (user_id <$> rows)) e p])) ∨
  (∃ msg, createUser email password rows = (Throw msg, rows)).
Proof.
  destruct (bind_cases email) as [[e He]|He];
    [|right; eexists; apply createUser_unbound; by left].
  destruct (bind_cases password) as [[p Hp]|Hp];
    [|right; eexists; apply createUser_unbound; right; by rewrite He].
  destruct (decide (unique_email = true ∧ Exists (has_email e) rows)) as [[Hu Hex]|Hn].
  - right. eexists. by apply (createUser_duplicate email password e p).
  - left. exists e, p. split_and!; [done..|]. apply createUser_done; tauto.
Qed.

Lemma getUserByEmail_done email e rows :
  bind email = Done e →
  getUserByEmail email rows = (Done (head (filter (has_email e) rows)), rows).
Proof. intros He. unfold getUserByEmail, unwind, mbind, Act_bind. by rewrite He. Qed.

Lemma has_email_eq e user : has_email e user → user_email user = e ∧ e ≠ SNull.
Proof. unfold has_email, sql_equal. by intros [? <-]. Qed.

Lemma has_email_text e user : has_email (SText e) user ↔ user_email user = SText e.
Proof. unfold has_email, sql_equal. split; [by intros [_ ?] | by intros ->]. Qed.

(** The rows of an email after an insert. *)
Lemma filter_has_email_snoc e rows user :
  filter (has_email e) (rows ++ [user])
  = filter (has_email e) rows ++ (if decide (has_email e user) then [user] else []).
Proof.
  by rewrite filter_app.
Qed.

Lemma unique_emails_snoc rows user :
  unique_emails rows → ¬ Exists (has_email (user_email user)) rows →
  unique_emails (rows ++ [user]).
Proof.
  unfold unique_emails. intros Hu Hn. rewrite fmap_app, filter_app. simpl.
  destruct (decide (user_email user = SNull)) as [E|E].
  { rewrite filter_cons_False by tauto. by rewrite app_nil_r. }
  rewrite filter_cons_True by done. apply NoDup_app. split_and!; [done| |apply NoDup_singleton].
  intros email [_ (old & Heq & Hold)%list_elem_of_fmap]%list_elem_of_filter
    Hin%list_elem_of_singleton.
  apply Hn, Exists_exists. exists old. split; [done|]. split; congruence.
Qed.

Lemma wf_users_snoc rows e p :
  wf_users rows → (unique_email = true → ¬ Exists (has_email e) rows) →
  wf_users (rows ++ [mkUser (rowid_after (user_id <$> rows)) e p]).
Proof.
  intros (Hs & Hpos & Hu) Hn. split_and!.
  - rewrite fmap_app. apply increasing_snoc, rowid_after_above. done.
  - rewrite Forall_app. split; [done|]. repeat constructor. simpl.
    apply rowid_after_pos. by rewrite Forall_fmap.
  - intros H. apply unique_emails_snoc; auto.
Qed.

(** ** Properties *)

(** C15. A user that [createUser] stored is the one [getUserByEmail] finds:
    under the UNIQUE constraint, after [createUser] returned an id for an
    email the lookup of that email answers the row of that id, with the
    password given. *)
Theorem createUser_then_getUserByEmail rows e p id rows' :
  unique_email = true →
  createUser (JStr e) (JStr p) rows = (Done id, rows') →
  getUserByEmail (JStr e) rows' = (Done (Some (mkUser id (SText e) (SText p))), rows').
Proof.
  intros Hu Hc.
  destruct (createUser_cases (JStr e) (JStr p) rows)
    as [(? & ? & [= <-] & [= <-] & Hn & Hd)|[msg Ht]]; [|congruence].
  rewrite Hd in Hc. injection Hc as <- <-.
  rewrite (getUserByEmail_done _ (SText e)) by done. rewrite filter_has_email_snoc.
  rewrite (proj2 (filter_is_nil (has_email (SText e)) rows)) by tauto.
  by rewrite decide_True by by apply has_email_text.
Qed.

(** [createUser] keeps the table well formed whatever it is given, and
    it either returns the rowid of the one row it appended, a rowid above
    all others, or throws and leaves the table as it was. *)
Theorem createUser_preserves_wf email password rows o rows' :
  wf_users rows → createUser email password rows = (o, rows') →
  wf_users rows' ∧
  match o with
  | Done id => ∃ e p, rows' = rows ++ [mkUser id e p] ∧
                      bind email = Done e ∧ bind password = Done p ∧
                      Forall (λ user, user_id user < id)%Z rows
  | Throw _ => rows' = rows
  | NotFound | Redirect _ => False
  end.
Proof.
  intros Hwf Hc.
  destruct (createUser_cases email password rows)
    as [(e & p & He & Hp & Hn & Hd)|[msg Ht]];
    [|rewrite Ht in Hc; injection Hc as <- <-; by split].
  rewrite Hd in Hc. injection Hc as <- <-. split.
  - apply wf_users_snoc; [done|tauto].
  - exists e, p. split_and!; [done..|].
    pose proof (rowid_after_above (user_id <$> rows)) as H. by rewrite Forall_fmap in H.
Qed.

(** Without the constraint a second account of an email is stored but
    never found: the lookup keeps answering the older row. *)
Theorem duplicate_email_is_shadowed rows e p old :
  unique_email = false →
  getUserByEmail (JStr e) rows = (Done (Some old), rows) →
  ∃ id rows', createUser (JStr e) (JStr p) rows = (Done id, rows') ∧
              length rows' = S (length rows) ∧
              getUserByEmail (JStr e) rows' = (Done (Some old), rows').
Proof.
  intros Hu Hg. do 2 eexists. split; [|split].
  - apply (createUser_done _ _ (SText e) (SText p)); [done..|]. by rewrite Hu.
  - rewrite length_app. simpl. lia.
  - rewrite (getUserByEmail_done _ (SText e)) in * by done.
    injection Hg as Hg. rewrite filter_has_email_snoc.
    destruct (filter _ rows); by simplify_eq/=.
Qed.

(** [getUserByEmail] never writes, and answers [null] exactly when no
    row has the email. *)
Theorem getUserByEmail_null_iff rows e :
  (getUserByEmail (JStr e) rows).2 = rows ∧
  ((getUserByEmail (JStr e) rows).1 = Done None ↔
   Forall (λ user, user_email user ≠ SText e) rows).
Proof.
  rewrite (getUserByEmail_done _ (SText e)) by done. simpl. split; [done|].
  rewrite Forall_Exists_neg, <-(Exists_proper _ _ (has_email_text e) rows rows eq_refl).
  rewrite <-filter_is_nil, <-head_None. split; [by intros [= ->] | by intros ->].
Qed.

End users.

(** ** The theorems at a sample table *)

Lemma createUser_then_getUserByEmail_witness :
  getUserByEmail (JStr "eve@example.org")
    (sample_users ++ [mkUser 3 (SText "eve@example.org") (SText "hash-3")])
  = (Done (Some (mkUser 3 (SText "eve@example.org") (SText "hash-3"))),
     sample_users ++ [mkUser 3 (SText "eve@example.org") (SText "hash-3")]).
Proof.
  by apply (createUser_then_getUserByEmail true sample_users "eve@example.org" "hash-3" 3).
Defined.

Lemma createUser_preserves_wf_witness :
  wf_users true (sample_users ++ [mkUser 3 (SText "eve@example.org") SNull]) ∧
  ∃ e p, sample_users ++ [mkUser 3 (SText "eve@example.org") SNull]
         = sample_users ++ [mkUser 3 e p] ∧
         bind (JStr "eve@example.org") = Done e ∧ bind JNull = Done p ∧
         Forall (λ user, user_id user < 3)%Z sample_users.
Proof.
  apply (createUser_preserves_wf true (JStr "eve@example.org") JNull sample_users
           (Done 3%Z)); [|done].
  by apply (bool_decide_unpack _).
Defined.

Lemma duplicate_email_is_shadowed_witness :
  ∃ id rows',
    createUser false (JStr "bob@example.org") (JStr "hash-9") sample_users = (Done id, rows') ∧
    length rows' = S (length sample_users) ∧
    getUserByEmail (JStr "bob@example.org") rows'
    = (Done (Some (mkUser 2 (SText "bob@example.org") (SText "hash-2"))), rows').
Proof.
  by apply (duplicate_email_is_shadowed false sample_users "bob@example.org" "hash-9").
Defined.
