(* ===== verification/Meals.v ===== *)
(** * The meals feature (3-foodies-udemy)

    - lib/meals.js: [getAllMeals], [getMeal] and [saveMeal] on the table
      [meals] of meals.db, opened with [verbose: console.log];
    - app/meals/page.js: [Meals], [MealsPage] and its [metadata].

    The state of a call is [MealsEnv]: the table as the list of its rows in
    rowid order, the files under public/, the console (every statement the
    driver runs is logged there, with the values bound to it), and the time
    spent waiting on timers, in milliseconds.  [saveMeal] also writes to the
    object it is given, which its caller keeps: that object is part of the
    state of the call.

    [slugify] and [xss] are libraries: parameters.  The schema of the table
    is not in the sources: a row has an integer primary key and the seven
    columns the INSERT names, all text, and no constraint is assumed.

    [saveMeal] calls [write] on the module [stream] (line 36), not on the
    stream that line 33 creates.  The body is therefore modelled once, over
    what that call does ([saveMeal_with]): [saveMeal] is the body with the
    call as written, which throws; [saveMeal_to_file] is the body with the
    call on the created stream.  The callback given to [write] would run
    after the call returned, outside of it: it is not modelled. *)

From stdpp Require Import prelude strings list sorting gmap.
From S2P Require Import Prelude.

(** ** Data *)

(** An uploaded file: its name and its bytes. *)
Record File := mkFile {
  file_name : string;
  file_bytes : list Z
}.

(** The property [image] of a meal: the uploaded file, then the path it
    was saved under. *)
Inductive ImageVal :=
| IFile (f : File)
| IPath (path : string).

(** The object [saveMeal] is given. *)
Record Meal := mkMeal {
  meal_title : string;
  meal_summary : string;
  meal_instructions : string;
  meal_creator : string;
  meal_creator_email : string;
  meal_image : ImageVal;
  meal_slug : JsVal
}.

Definition set_slug (slug : JsVal) (m : Meal) : Meal :=
  mkMeal (meal_title m) (meal_summary m) (meal_instructions m) (meal_creator m)
         (meal_creator_email m) (meal_image m) slug.

Definition set_instructions (instructions : string) (m : Meal) : Meal :=
  mkMeal (meal_title m) (meal_summary m) instructions (meal_creator m)
         (meal_creator_email m) (meal_image m) (meal_slug m).

Definition set_image (image : ImageVal) (m : Meal) : Meal :=
  mkMeal (meal_title m) (meal_summary m) (meal_instructions m) (meal_creator m)
         (meal_creator_email m) image (meal_slug m).

(** A row of the table. *)
Record MealRow := mkMealRow {
  row_id : Z;
  row_title : string;
  row_summary : string;
  row_instructions : string;
  row_creator : string;
  row_creator_email : string;
  row_image : string;
  row_slug : string
}.

#[export] Instance MealRow_eq_dec : EqDecision MealRow.
Proof. solve_decision. Defined.

(** A line of the console: a statement the driver ran, or an error. *)
Inductive LogEntry :=
| LStatement (sql : string) (params : list SqlVal)
| LError (line : string).

#[export] Instance LogEntry_eq_dec : EqDecision LogEntry.
Proof. solve_decision. Defined.

Record MealsEnv := mkMealsEnv {
  meals : list MealRow;
  files : gmap string (list Z);
  log : list LogEntry;
  elapsed : Z
}.

Inductive MealsData :=
| DMeals (rows : list MealRow)
| DClass (name : string)
| DFallback (className text : string).

(** ** Steps shared by the functions *)

(** [await new Promise((resolve) => setTimeout(resolve, ms))]. *)
Definition sleep (ms : Z) : Act MealsEnv () :=
  modify_state (λ e, mkMealsEnv (meals e) (files e) (log e) (elapsed e + ms)).

(** A statement runs: [verbose] logs it. *)
Definition run_statement (sql : string) (params : list SqlVal) : Act MealsEnv () :=
  modify_state (λ e,
    mkMealsEnv (meals e) (files e) (log e ++ [LStatement sql params]) (elapsed e)).

(** [fs.createWriteStream(path)]: the file exists and is empty. *)
Definition createWriteStream (path : string) : Act MealsEnv () :=
  modify_state (λ e, mkMealsEnv (meals e) (<[path := []]> (files e)) (log e) (elapsed e)).

Definition insert_row (r : MealRow) : Act MealsEnv () :=
  modify_state (λ e, mkMealsEnv (meals e ++ [r]) (files e) (log e) (elapsed e)).

(** [array.pop()] on a fresh array: its last element, or [undefined]. *)
Definition pop (l : list string) : JsVal := from_option JStr JUndefined (last l).

Definition select_all : string := "SELECT * FROM meals".
Definition select_slug : string := "SELECT * FROM meals WHERE slug = ?".
(** The INSERT of lines 45 to 58, its white space collapsed. *)
Definition insert_meal : string :=
  "INSERT INTO meals ( title, summary, instructions, creator, creator_email,image, slug) VALUES ( @title, @summary, @instructions, @creator, @creator_email, @image, @slug )".

(** ** lib/meals.js *)

Definition getAllMeals : Act MealsEnv (list MealRow) :=
  sleep 2000;;
  run_statement select_all [];;
  e ← get_state;
  mret (meals e).

(** [.get(slug)]: the first row selected, or [undefined] ([None]). *)
Definition getMeal {driver : Driver} (slug : JsVal) : Act MealsEnv (option MealRow) :=
  sleep 2000;;
  s ← unwind (bind slug);
  run_statement select_slug [s];;
  e ← get_state;
  mret (head (filter (λ r, sql_equal (SText (row_slug r)) s) (meals e))).

(** What line 36 does as written: [stream] is the module, which has no
    function [write]. *)
Definition module_write (path : string) (bytes : list Z) : Act MealsEnv () :=
  unwind (Throw "TypeError: stream.write is not a function").

(** What a [write] on the stream of line 33 does. *)
Definition file_write (path : string) (bytes : list Z) : Act MealsEnv () :=
  modify_state (λ e, mkMealsEnv (meals e) (<[path := bytes]> (files e)) (log e) (elapsed e)).

Section saveMeal.
Context {driver : Driver} (slugify : string → string) (xss : string → string).

(** The values bound to the named parameters of the INSERT, read from the
    object: a file or [undefined] cannot be bound. *)
Definition bind_meal (m : Meal) : Outcome (list SqlVal) :=
  slug ← bind (meal_slug m);
  image ← match meal_image m with
          | IPath p => Done (SText p)
          | IFile _ => Throw bind_error
          end;
  mret [SText (meal_title m); SText (meal_summary m); SText (meal_instructions m);
        SText (meal_creator m); SText (meal_creator_email m); image; slug].

Definition row_of (id : Z) (m : Meal) : MealRow :=
  mkMealRow id (meal_title m) (meal_summary m) (meal_instructions m) (meal_creator m)
            (meal_creator_email m)
            (match meal_image m with IPath p => p | IFile f => file_name f end)
            (template (meal_slug m)).

(** The name the image is saved under: the slug and the last piece of the
    name of the upload. *)
Definition image_name (slug : JsVal) (image : File) : string :=
  template slug +:+ "." +:+ template (pop (split "." (file_name image))).

(** The object after the first two assignments. *)
Definition prepared (meal : Meal) : Meal :=
  set_instructions (xss (meal_instructions meal))
    (set_slug (JStr (slugify (meal_title meal))) meal).

(** The body of [saveMeal], over the call of line 36.  The first component
    of the state is the object [meal]. *)
Definition saveMeal_with (write : string → list Z → Act MealsEnv ())
  : Act (Meal * MealsEnv) () :=
  let on_meal f := modify_state (λ s : Meal * MealsEnv, (f s.1, s.2)) in
  let on_env {A} (m : Act MealsEnv A) : Act (Meal * MealsEnv) A :=
    zoom snd (λ e s, (s.1, e)) m in
  on_meal (λ meal, set_slug (JStr (slugify (meal_title meal))) meal);;
  on_meal (λ meal, set_instructions (xss (meal_instructions meal)) meal);;
  s ← get_state;
  let meal := s.1 in
  match meal_image meal with
  | IPath _ => unwind (Throw "TypeError: Cannot read properties of undefined (reading 'split')")
  | IFile image =>
      let extension := pop (split "." (file_name image)) in
      let fileName := template (meal_slug meal) +:+ "." +:+ template extension in
      on_env (createWriteStream ("public/images/" +:+ fileName));;
      let bufferedImage := file_bytes image in
      on_env (write ("public/images/" +:+ fileName) bufferedImage);;
      on_meal (set_image (IPath ("/images/" +:+ fileName)));;
      s ← get_state;
      params ← unwind (bind_meal s.1);
      on_env (run_statement insert_meal params);;
      on_env (insert_row (row_of (rowid_after (row_id <$> meals s.2)) s.1))
  end.

(** [saveMeal] as written. *)
Definition saveMeal : Act (Meal * MealsEnv) () := saveMeal_with module_write.

(** [saveMeal] writing to the stream it created. *)
Definition saveMeal_to_file : Act (Meal * MealsEnv) () := saveMeal_with file_write.

End saveMeal.

(** ** app/meals/page.js *)

Definition metadata : string * string :=
  ("Meals", "Explore delicious meals shared by our community.").

Definition Meals : Act MealsEnv (Html MealsData) :=
  meals ← getAllMeals;
  mret (Node "MealsGrid" [("meals", AData (DMeals meals))] []).

(** What [MealsPage] returns; the child of [Suspense] is rendered after
    that. *)
Definition page_shell (child : Html MealsData) : Html MealsData :=
  Fragment [
    Node "header" [("className", AData (DClass "header"))] [
      Node "h1" [] [
        Text "Delicious Meals, created";
        Node "span" [("className", AData (DClass "highlight"))] [Text "by you"] ];
      Node "p" [] [
        Text "Choose your favorite recipe and cook it yourself. it is easy and fun!" ];
      Node "p" [("className", AData (DClass "cta"))] [
        Node "Link" [("href", AStr "/meals/share")] [Text "Share your Favorite Recipe"] ] ];
    Node "main" [("className", AData (DClass "main"))] [
      Node "Suspense" [("fallback", AData (DFallback "loading" "Fetching Meals"))] [child] ] ].

Definition MealsPage : Act MealsEnv (Html MealsData) :=
  meals ← getAllMeals;
  mret (page_shell (Node "Meals" [] [])).

(** One request: the page function runs and its tree is sent with the
    fallback in place; then the suspended child runs.  The result gives the
    time at which the fallback can first be seen and the time at which the
    meals replace it. *)
Definition render_meals : Act MealsEnv (Z * Z * Html MealsData) :=
  _ ← MealsPage;
  shell_at ← (e ← get_state; mret (elapsed e));
  grid ← Meals;
  done_at ← (e ← get_state; mret (elapsed e));
  mret (shell_at, done_at, page_shell grid).

(** How often a statement was run, as the console shows it. *)
Definition is_run (sql : string) (l : LogEntry) : bool :=
  match l with
  | LStatement s _ => bool_decide (s = sql)
  | LError _ => false
  end.

Definition runs (sql : string) (e : MealsEnv) : nat :=
  length (filter (is_run sql) (log e)).

(** ** Data for the examples *)

Definition sample_meals : list MealRow := [
  mkMealRow 1 "Juicy Cheese Burger" "A burger." "Grill it." "John Doe" "john@example.org"
    "/images/burger.jpg" "juicy-cheese-burger";
  mkMealRow 2 "Spicy Curry" "A curry." "Simmer it." "Max" "max@example.org"
    "/images/curry.jpg" "spicy-curry" ].

Definition sample_meals_env : MealsEnv := mkMealsEnv sample_meals ∅ [] 0.

Definition sample_meal : Meal :=
  mkMeal "Pizza" "A pizza." "<p>Bake it.</p>" "Ada" "ada@example.org"
         (IFile (mkFile "my.pizza.png" [137; 80; 78; 71]%Z)) JUndefined.

(** ** The steps *)

Lemma split_from_nonempty sep skip cur s : split_from sep skip cur s ≠ [].
Proof.
  revert skip cur. induction s as [|c s IH]; intros skip cur; cbn [split_from]; [done|].
  destruct skip; [|apply IH]. destruct (String.prefix sep (String c s)); [done|apply IH].
Qed.

(** [split] returns at least one piece, so [pop] on it is a string. *)
Lemma pop_split sep s : ∃ piece, pop (split sep s) = JStr piece.
Proof.
  unfold pop, split. pose proof (split_from_nonempty sep 0 "" s) as H.
  destruct (last _) as [piece|] eqn:E; [by exists piece|].
  by apply last_None in E.
Qed.

(** The name of a saved image ends in the last piece of the name of the
    upload, which is the whole name when it holds no dot. *)
Lemma image_name_extension slug image :
  ∃ ext, pop (split "." (file_name image)) = JStr ext ∧
         image_name (JStr slug) image = slug +:+ "." +:+ ext.
Proof.
  destruct (pop_split "." (file_name image)) as [ext H]. exists ext.
  split; [done|]. unfold image_name. by rewrite H.
Qed.

Lemma getAllMeals_run e :
  getAllMeals e
  = (Done (meals e),
     mkMealsEnv (meals e) (files e) (log e ++ [LStatement select_all []]) (elapsed e + 2000)).
Proof. done. Qed.

Lemma getMeal_run {driver : Driver} slug e :
  getMeal (JStr slug) e
  = (Done (head (filter (λ r, row_slug r = slug) (meals e))),
     mkMealsEnv (meals e) (files e) (log e ++ [LStatement select_slug [SText slug]])
                (elapsed e + 2000)).
Proof.
  unfold getMeal, sleep, run_statement. act_run. do 3 f_equal.
  apply list_filter_iff. intros r.
  unfold sql_equal. split; [by intros [_ [=]] | by intros ->].
Qed.

Lemma runs_log sql e e' l :
  log e' = log e ++ l → runs sql e' = runs sql e + length (filter (is_run sql) l).
Proof. unfold runs. intros ->. by rewrite filter_app, length_app. Qed.

Lemma is_run_same sql ps rest :
  filter (is_run sql) (LStatement sql ps :: rest) = LStatement sql ps :: filter (is_run sql) rest.
Proof. rewrite filter_cons_True; [done|]. simpl. by apply bool_decide_pack. Qed.

Section saveMeal_facts.
Context {driver : Driver} (slugify : string → string) (xss : string → string).
Implicit Types (meal : Meal) (e : MealsEnv) (image : File).

Lemma saveMeal_with_path write meal e path :
  meal_image meal = IPath path →
  ∃ msg, saveMeal_with slugify xss write (meal, e) = (Throw msg, (prepared slugify xss meal, e)).
Proof.
  intros H. unfold saveMeal_with. act_run. rewrite H. by eexists.
Qed.

(** The path of the file, the object and the row after a save of an
    upload. *)
Lemma saveMeal_with_file write meal e image :
  meal_image meal = IFile image →
  let name := image_name (JStr (slugify (meal_title meal))) image in
  let saved := set_image (IPath ("/images/" +:+ name)) (prepared slugify xss meal) in
  let created := mkMealsEnv (meals e) (<["public/images/" +:+ name := []]> (files e))
                            (log e) (elapsed e) in
  saveMeal_with slugify xss write (meal, e)
  = match write ("public/images/" +:+ name) (file_bytes image) created with
    | (Done _, e') =>
        (Done (),
         (saved,
          mkMealsEnv (meals e' ++ [row_of (rowid_after (row_id <$> meals e')) saved])
                     (files e')
                     (log e' ++ [LStatement insert_meal
                        [SText (meal_title meal); SText (meal_summary meal);
                         SText (xss (meal_instructions meal)); SText (meal_creator meal);
                         SText (meal_creator_email meal); SText ("/images/" +:+ name);
                         SText (slugify (meal_title meal))]])
                     (elapsed e')))
    | (NotFound, e') => (NotFound, (prepared slugify xss meal, e'))
    | (Redirect p, e') => (Redirect p, (prepared slugify xss meal, e'))
    | (Throw msg, e') => (Throw msg, (prepared slugify xss meal, e'))
    end.
Proof.
  intros H. unfold saveMeal_with, createWriteStream, run_statement, insert_row.
  act_run. rewrite H. unfold image_name. simpl.
  by destruct (write _ _ _) as [[] ?].
Qed.

(** C10. [saveMeal] never stores a meal: whatever it is given it throws,
    the table and the console are as before, and the object of the caller
    has its slug and its sanitised instructions but still the upload as its
    image.  For an upload the error is the [TypeError] of line 36, and an
    empty file is left under public/images. *)
Theorem saveMeal_never_inserts meal e :
  ∃ msg e',
    saveMeal slugify xss (meal, e) = (Throw msg, (prepared slugify xss meal, e')) ∧
    meals e' = meals e ∧ log e' = log e ∧
    ∀ image, meal_image meal = IFile image →
      msg = "TypeError: stream.write is not a function" ∧
      files e' = <["public/images/" +:+ image_name (JStr (slugify (meal_title meal))) image
                   := []]> (files e).
Proof.
  unfold saveMeal. destruct (meal_image meal) as [image|path] eqn:H.
  - rewrite (saveMeal_with_file _ meal e image H). simpl.
    do 2 eexists. split_and!; [done..|]. by intros ? [= <-].
  - destruct (saveMeal_with_path module_write meal e path H) as [msg ->].
    by exists msg, e.
Qed.

(** With the call of line 36 made on the stream of line 33, [saveMeal]
    of an upload returns, the file holds the bytes of the upload, one row
    is appended under a fresh rowid with the slug, the sanitised
    instructions and the path of the image, the INSERT is on the console and
    the object carries the path. *)
Theorem saveMeal_to_file_inserts meal e image :
  meal_image meal = IFile image →
  let name := image_name (JStr (slugify (meal_title meal))) image in
  ∃ row meal' e',
    saveMeal_to_file slugify xss (meal, e) = (Done (), (meal', e')) ∧
    meals e' = meals e ++ [row] ∧
    Forall (λ r, row_id r < row_id row)%Z (meals e) ∧
    row_slug row = slugify (meal_title meal) ∧
    row_instructions row = xss (meal_instructions meal) ∧
    row_image row = "/images/" +:+ name ∧
    files e' !! ("public/images/" +:+ name) = Some (file_bytes image) ∧
    runs insert_meal e' = S (runs insert_meal e) ∧
    meal_image meal' = IPath ("/images/" +:+ name).
Proof.
  intros H name. unfold saveMeal_to_file. rewrite (saveMeal_with_file _ meal e image H).
  simpl. do 3 eexists. split; [done|]. simpl. split_and!; try done.
  - pose proof (rowid_after_above (row_id <$> meals e)) as Ha. by rewrite Forall_fmap in Ha.
  - by rewrite lookup_insert_eq.
  - erewrite runs_log by (simpl; reflexivity). rewrite is_run_same. simpl. lia.
Qed.

End saveMeal_facts.

(** [getMeal] waits two seconds, runs its statement once with the slug
    bound, leaves table and files alone, and answers the first row of that
    slug, or [undefined] when there is none. *)
Theorem getMeal_first_match {driver : Driver} slug e :
  ∃ e', getMeal (JStr slug) e
        = (Done (head (filter (λ r, row_slug r = slug) (meals e))), e') ∧
        meals e' = meals e ∧ files e' = files e ∧
        elapsed e' = (elapsed e + 2000)%Z ∧
        log e' = log e ++ [LStatement select_slug [SText slug]].
Proof. eexists. by rewrite getMeal_run. Qed.

(** C36. One request for /meals runs the SELECT twice and waits twice: the
    page awaits [getAllMeals] before it returns, so even the fallback is
    only shown after two seconds, and the meals after four. *)
Theorem render_meals_waits_twice e :
  ∃ e', render_meals e
        = (Done ((elapsed e + 2000)%Z, (elapsed e + 4000)%Z,
                 page_shell (Node "MealsGrid" [("meals", AData (DMeals (meals e)))] [])), e') ∧
        runs select_all e' = 2 + runs select_all e ∧
        meals e' = meals e.
Proof.
  eexists. unfold render_meals, MealsPage, Meals.
  split_and!.
  - act_run. do 3 f_equal. f_equal; lia.
  - erewrite runs_log by (simpl; by rewrite <-app_assoc).
    cbn [app]. rewrite !is_run_same. simpl. lia.
  - done.
Qed.

(** ** The theorems at the sample data *)

Lemma saveMeal_to_file_inserts_witness :
  ∃ row meal' e',
    saveMeal_to_file (λ _, "pizza") id (sample_meal, sample_meals_env) = (Done (), (meal', e')) ∧
    meals e' = sample_meals ++ [row] ∧
    Forall (λ r, row_id r < row_id row)%Z sample_meals ∧
    row_slug row = "pizza" ∧
    row_instructions row = "<p>Bake it.</p>" ∧
    row_image row = "/images/pizza.png" ∧
    files e' !! "public/images/pizza.png" = Some [137; 80; 78; 71]%Z ∧
    runs insert_meal e' = 1 ∧
    meal_image meal' = IPath "/images/pizza.png".
Proof.
  by apply (saveMeal_to_file_inserts (λ _, "pizza") id sample_meal sample_meals_env
              (mkFile "my.pizza.png" [137; 80; 78; 71]%Z)).
Defined.
