(* ===== verification/SingleFlight.v ===== *)
(** * Single-flight loading

    Specification section 4.1 asks that concurrent [get] calls for one key
    share one load.  With an asynchronous loader (the accessors of
    lib/meals.js and lib/news.js await a timer) a call does not finish where
    it starts: other callers run in between.  This file models that
    interleaving.  A [Slot] is what the cache holds for a key, a load in
    flight or a value; a [Caller] is idle, waits for the load of a key, or
    has its result.  [flight_step] runs one event: a caller calls [get]
    ([Call]), the load in flight for a key lands ([Land]: the loader runs on
    the store as it is then, and every caller waiting for the key gets the
    result), or another request writes to the store ([Write]).

    The theorems are about loaders that always return, as [getAllMeals] of
    lib/meals.js does, and are applied to it at the end: a page and its
    suspended child that both ask for the meals behind such a cache run one
    query and wait once. *)

From stdpp Require Import prelude strings list gmap.
From S2P Require Import Prelude Meals.

Inductive Slot (V : Type) :=
| InFlight
| Ready (v : V).
Arguments InFlight {V}.
Arguments Ready {V} v.

Inductive Caller (V : Type) :=
| Idle
| Waiting (k : string)
| Ended (k : string) (o : Outcome V).
Arguments Idle {V}.
Arguments Waiting {V} k.
Arguments Ended {V} k o.

Record Flight (S V : Type) := mkFlight {
  store : S;
  slots : gmap string (Slot V);
  callers : list (Caller V);
  loaded : list string
}.
Arguments mkFlight {S V}.
Arguments store {S V}.
Arguments slots {S V}.
Arguments callers {S V}.
Arguments loaded {S V}.

Inductive FlightEvent (S : Type) :=
| Call (i : nat) (k : string)
| Land (k : string)
| Write (f : S → S).
Arguments Call {S} i k.
Arguments Land {S} k.
Arguments Write {S} f.

Section flight.
Context {S V : Type} (loader : string → Act S V).
Implicit Types (st : Flight S V) (k : string) (i : nat) (c : Caller V).

(** [n] callers that have not called yet, an empty cache. *)
Definition start (s : S) (n : nat) : Flight S V :=
  mkFlight s ∅ (replicate n Idle) [].

(** A caller calls [get k]: a value is returned at once, a load in flight
    is joined, and only a key without a slot starts a load. *)
Definition call i k st : Flight S V :=
  match callers st !! i with
  | Some Idle =>
      match slots st !! k with
      | Some (Ready v) =>
          mkFlight (store st) (slots st) (<[i := Ended k (Done v)]> (callers st)) (loaded st)
      | Some InFlight =>
          mkFlight (store st) (slots st) (<[i := Waiting k]> (callers st)) (loaded st)
      | None =>
          mkFlight (store st) (<[k := InFlight]> (slots st))
                   (<[i := Waiting k]> (callers st)) (loaded st)
      end
  | _ => st
  end.

(** What the completion of the load of [k] does to a caller. *)
Definition wake k (o : Outcome V) c : Caller V :=
  match c with
  | Waiting k' => if bool_decide (k' = k) then Ended k o else c
  | _ => c
  end.

(** The load in flight for [k] lands: every caller that waits for it gets
    its outcome; a value stays in the slot, a failure frees it. *)
Definition land k st : Flight S V :=
  match slots st !! k with
  | Some InFlight =>
      let '(o, s') := loader k (store st) in
      mkFlight s'
        (match o with
         | Done v => <[k := Ready v]> (slots st)
         | _ => delete k (slots st)
         end)
        (wake k o <$> callers st) (loaded st ++ [k])
  | _ => st
  end.

Definition flight_step st (ev : FlightEvent S) : Flight S V :=
  match ev with
  | Call i k => call i k st
  | Land k => land k st
  | Write f => mkFlight (f (store st)) (slots st) (callers st) (loaded st)
  end.

Definition flight_run (evs : list (FlightEvent S)) st : Flight S V :=
  foldl flight_step st evs.

(** How often the loader ran for a key. *)
Definition loads k st : nat := length (filter (λ k', k' = k) (loaded st)).

(** What holds of a key in every state that is reached, for a loader that
    always returns: without a slot nobody waits and nothing was loaded; with
    a load in flight nobody has a result yet; with a value the loader ran
    once, nobody waits, and every result is that value. *)
Definition caller_ok k (slot : option (Slot V)) c : Prop :=
  match slot with
  | None => c ≠ Waiting k ∧ ∀ o, c ≠ Ended k o
  | Some InFlight => ∀ o, c ≠ Ended k o
  | Some (Ready v) => c ≠ Waiting k ∧ ∀ o, c = Ended k o → o = Done v
  end.

Definition loads_ok (slot : option (Slot V)) (n : nat) : Prop :=
  match slot with
  | Some (Ready _) => n = 1
  | _ => n = 0
  end.

Definition key_inv k st : Prop :=
  loads_ok (slots st !! k) (loads k st) ∧
  Forall (caller_ok k (slots st !! k)) (callers st).

Definition returns : Prop := ∀ k s, ∃ v s', loader k s = (Done v, s').

End flight.

(** ** The meals page behind a single-flight cache *)

(** The page (caller 0) and its suspended child (caller 1) both ask for the
    meals before the first load has landed. *)
Definition meals_concurrent : list (FlightEvent MealsEnv) :=
  [Call 0 "getAllMeals"; Call 1 "getAllMeals"; Land "getAllMeals"].

(** The order of app/meals/page.js: the page awaits its call before it
    returns the tree that holds the child, so the child calls after the load
    has landed. *)
Definition meals_in_page_order : list (FlightEvent MealsEnv) :=
  [Call 0 "getAllMeals"; Land "getAllMeals"; Call 1 "getAllMeals"].

(** An event that is a call for [k] or the landing of its load. *)
Definition on_key {S : Type} (k : string) (ev : FlightEvent S) : bool :=
  match ev with
  | Call _ k' | Land k' => bool_decide (k' = k)
  | Write _ => false
  end.

(** What single-flight loading of [getAllMeals] keeps of the environment
    [e] it started in: the table, one logged query and one wait per load,
    and only the table as a cached value. *)
Definition meals_inv (e : MealsEnv) (st : Flight MealsEnv (list MealRow)) : Prop :=
  meals (store st) = meals e ∧
  runs select_all (store st) = runs select_all e + length (loaded st) ∧
  elapsed (store st) = (elapsed e + 2000 * Z.of_nat (length (loaded st)))%Z ∧
  Forall (λ k, k = "getAllMeals") (loaded st) ∧
  ∀ k v, slots st !! k = Some (Ready v) → v = meals e.

(** ** The invariant *)

Section flight_facts.
Context {S V : Type} (loader : string → Act S V).
Implicit Types (st : Flight S V) (k : string) (i : nat) (c : Caller V)
  (slot : option (Slot V)).

Lemma caller_ok_idle k slot : caller_ok k slot Idle.
Proof. by destruct slot as [[|v]|]. Qed.

(** A caller that waits for, or has the result of, another key. *)
Lemma caller_ok_other k k' slot c :
  k' ≠ k → c = Waiting k' ∨ (∃ o, c = Ended k' o) → caller_ok k slot c.
Proof.
  intros Hne [->|[o ->]]; destruct slot as [[|v]|]; simpl;
    repeat split; intros; congruence.
Qed.

Lemma start_inv (s : S) n k : key_inv k (start s n : Flight S V).
Proof.
  split; simpl; [done|]. rewrite lookup_empty.
  apply Forall_replicate, (caller_ok_idle k None).
Qed.

Lemma call_inv i k0 st k : key_inv k st → key_inv k (call i k0 st).
Proof.
  intros [Hl Hc]. unfold call.
  destruct (callers st !! i) as [[| |]|] eqn:Hi; try done.
  destruct (decide (k0 = k)) as [->|Hne].
  - destruct (slots st !! k) as [[|v]|] eqn:Hs; split; simpl;
      rewrite ?lookup_insert_eq, ?Hs; try done.
    + by apply Forall_insert.
    + apply Forall_insert; [done|]. split; [done|by intros ? [=]].
    + apply Forall_insert; [|done].
      eapply Forall_impl; [done|]. by intros c [_ ?].
  - assert (∀ c', c' = Waiting k0 ∨ (∃ o, c' = Ended k0 o) →
              Forall (caller_ok k (slots st !! k)) (<[i := c']> (callers st))) as Hins.
    { intros c' Hc'. apply Forall_insert; [done|]. by apply (caller_ok_other k k0). }
    destruct (slots st !! k0) as [[|v]|]; split; simpl;
      rewrite ?lookup_insert_ne by done; eauto.
Qed.

Lemma loads_land k0 st k (s' : S) sl cs :
  loads k (mkFlight s' sl cs (loaded st ++ [k0]) : Flight S V)
  = loads k st + (if decide (k0 = k) then 1 else 0).
Proof.
  unfold loads. simpl. rewrite filter_app, length_app. f_equal.
  destruct (decide (k0 = k)); [by rewrite filter_cons_True | by rewrite filter_cons_False].
Qed.

Lemma land_inv k0 st k : returns loader → key_inv k st → key_inv k (land loader k0 st).
Proof.
  intros Hret [Hl Hc]. unfold land.
  destruct (slots st !! k0) as [[|v0]|] eqn:Hs0; try done.
  destruct (Hret k0 (store st)) as (v & s' & ->).
  destruct (decide (k0 = k)) as [->|Hne]; split; rewrite ?loads_land; simpl.
  - rewrite lookup_insert_eq, decide_True by done. rewrite Hs0 in Hl. simpl in *. lia.
  - rewrite lookup_insert_eq. rewrite Hs0 in Hc. apply Forall_fmap.
    eapply Forall_impl; [done|]. intros c Hok. simpl in *.
    destruct c as [|k'|k' o]; simpl; [done| |].
    + case_bool_decide as E; [subst|]; (split; [congruence|]); by intros ? [=].
    + split; [done|]. intros o' [= -> ->]. by destruct (Hok o').
  - rewrite lookup_insert_ne, decide_False by done. by rewrite Nat.add_0_r.
  - rewrite lookup_insert_ne by done. apply Forall_fmap.
    eapply Forall_impl; [done|]. intros c Hok. simpl.
    destruct c as [|k'|k' o]; simpl; [done| |done].
    case_bool_decide as E; [subst|done]. apply (caller_ok_other k k0); eauto.
Qed.

Lemma step_inv st ev k : returns loader → key_inv k st → key_inv k (flight_step loader st ev).
Proof.
  intros Hret Hinv. destruct ev as [i k0|k0|f]; simpl;
    [by apply call_inv | by apply land_inv | done].
Qed.

Lemma run_inv (s : S) n evs k :
  returns loader → key_inv k (flight_run loader evs (start s n)).
Proof.
  intros Hret. induction evs as [|ev evs IH] using rev_ind; [apply start_inv|].
  unfold flight_run. rewrite foldl_app. by apply step_inv.
Qed.

End flight_facts.

(** ** Loaders that always return *)

Section flight_theorems.
Context {S V : Type} (loader : string → Act S V) (Hret : returns loader).
Implicit Types (st : Flight S V) (k : string) (i : nat) (s : S).

(** However calls, landings and writes of other requests interleave, the
    loader runs at most once for a key. *)
Theorem single_flight_one_load s n evs k :
  loads k (flight_run loader evs (start s n)) ≤ 1.
Proof.
  destruct (run_inv loader s n evs k Hret) as [Hl _].
  destruct (slots _ !! k) as [[|v]|]; simpl in Hl; lia.
Qed.

(** A caller that has a result for a key has the value of its slot. *)
Lemma ended_has_slot_value st k i o :
  key_inv k st → callers st !! i = Some (Ended k o) →
  ∃ v, slots st !! k = Some (Ready v) ∧ o = Done v.
Proof.
  intros [_ Hc] Hi. eapply Forall_lookup_1 in Hc; [|done].
  destruct (slots st !! k) as [[|v]|]; simpl in Hc.
  - by destruct (Hc o).
  - exists v. split; [done|]. by apply Hc.
  - destruct Hc as [_ Hc]. by destruct (Hc o).
Qed.

(** Two reads of a key see the same value, whatever was written to the
    store in between. *)
Theorem single_flight_same_result s n evs k i j o o' :
  callers (flight_run loader evs (start s n)) !! i = Some (Ended k o) →
  callers (flight_run loader evs (start s n)) !! j = Some (Ended k o') →
  o = o'.
Proof.
  intros Hi Hj. pose proof (run_inv loader s n evs k Hret) as Hinv.
  destruct (ended_has_slot_value _ _ _ _ Hinv Hi) as (v & Hv & ->).
  destruct (ended_has_slot_value _ _ _ _ Hinv Hj) as (v' & Hv' & ->). congruence.
Qed.

(** A caller that calls gets a value as soon as the load has landed. *)
Theorem call_land_returns st i k :
  callers st !! i = Some Idle →
  ∃ v, callers (flight_run loader [Call i k; Land k] st) !! i = Some (Ended k (Done v)).
Proof.
  intros Hi. pose proof (lookup_lt_Some _ _ _ Hi) as Hlt.
  unfold flight_run. simpl. unfold call. rewrite Hi.
  destruct (slots st !! k) as [[|v]|] eqn:Hs; unfold land; simpl;
    rewrite ?lookup_insert_eq, ?Hs.
  - destruct (Hret k (store st)) as (v & s' & ->). exists v. simpl.
    by rewrite list_lookup_fmap, list_lookup_insert_eq by done; simpl; rewrite bool_decide_eq_true_2.
  - exists v. simpl. by rewrite list_lookup_insert_eq.
  - destruct (Hret k (store st)) as (v & s' & ->). exists v. simpl.
    by rewrite list_lookup_fmap, list_lookup_insert_eq by done; simpl; rewrite bool_decide_eq_true_2.
Qed.

End flight_theorems.

(** A load that fails is not kept: the key has no slot afterwards, so the
    next call loads again. *)
Theorem failed_load_is_not_cached {S V : Type} (loader : string → Act S V)
    (st : Flight S V) k o s' :
  slots st !! k = Some InFlight →
  loader k (store st) = (o, s') →
  (∀ v, o ≠ Done v) →
  slots (land loader k st) !! k = None ∧
  callers (land loader k st) = wake k o <$> callers st.
Proof.
  intros Hs Hl Hne. unfold land. rewrite Hs, Hl.
  destruct o; simpl; rewrite ?lookup_delete_eq; try done. by destruct (Hne a).
Qed.

(** ** [getAllMeals] behind a single-flight cache *)

Lemma getAllMeals_returns : returns (λ _ : string, getAllMeals).
Proof. intros k s. rewrite getAllMeals_run. eauto. Qed.

Lemma meals_inv_start e n : meals_inv e (start e n).
Proof.
  repeat split; simpl; [lia|lia|done|]. intros k v. by rewrite lookup_empty.
Qed.

Lemma meals_inv_call e i k st : meals_inv e st → meals_inv e (call i k st).
Proof.
  intros (Hm & Hr & Ht & Hk & Hv). unfold call.
  destruct (callers st !! i) as [[| |]|]; try done.
  destruct (slots st !! k) as [[|v]|] eqn:Hs; repeat split; simpl; try done.
  intros k' v'. destruct (decide (k = k')) as [->|];
    [by rewrite lookup_insert_eq | rewrite lookup_insert_ne by done; apply Hv].
Qed.

Lemma meals_inv_land e st :
  meals_inv e st → meals_inv e (land (λ _, getAllMeals) "getAllMeals" st).
Proof.
  intros (Hm & Hr & Ht & Hk & Hv). unfold land.
  destruct (slots st !! "getAllMeals") as [[|v]|] eqn:Hs; try done.
  rewrite getAllMeals_run. repeat split; simpl; rewrite ?length_app; simpl.
  - done.
  - erewrite runs_log by done. rewrite is_run_same, Hr. simpl. lia.
  - lia.
  - apply Forall_app. by split; [|apply Forall_singleton].
  - intros k' v'. destruct (decide ("getAllMeals" = k')) as [<-|];
      [rewrite lookup_insert_eq; congruence | rewrite lookup_insert_ne by done; apply Hv].
Qed.

Lemma meals_inv_run e n evs :
  Forall (λ ev, on_key "getAllMeals" ev = true) evs →
  meals_inv e (flight_run (λ _, getAllMeals) evs (start e n)).
Proof.
  induction evs as [|ev evs IH] using rev_ind; [intros _; apply meals_inv_start|].
  intros [Hevs Hev%Forall_inv]%Forall_app. unfold flight_run. rewrite foldl_app.
  destruct ev as [i k|k|f]; simpl in *; [| |done].
  - by apply meals_inv_call, IH.
  - apply bool_decide_eq_true in Hev as ->. by apply meals_inv_land, IH.
Qed.

Lemma loads_all k (l : list string) :
  Forall (λ k', k' = k) l → length (filter (λ k', k' = k) l) = length l.
Proof.
  induction 1 as [|k' l -> _ IH]; [done|]. rewrite filter_cons_True by done. simpl. by f_equal.
Qed.

(** One load at most, one wait at most, one value for every caller. *)
Lemma getAllMeals_flight_bounds e n evs :
  Forall (λ ev, on_key "getAllMeals" ev = true) evs →
  let st := flight_run (λ _, getAllMeals) evs (start e n) in
  runs select_all (store st) ≤ runs select_all e + 1 ∧
  (elapsed (store st) ≤ elapsed e + 2000)%Z ∧
  ∀ i k o, callers st !! i = Some (Ended k o) → o = Done (meals e).
Proof.
  intros Hevs st. destruct (meals_inv_run e n evs Hevs) as (Hm & Hr & Ht & Hk & Hv).
  pose proof (single_flight_one_load _ getAllMeals_returns e n evs "getAllMeals") as Hone.
  unfold loads in Hone. rewrite loads_all in Hone by done. fold st in Hr, Ht, Hone |- *.
  split; [lia|]. split; [lia|]. intros i k o Hi.
  destruct (ended_has_slot_value _ k i o (run_inv _ e n evs k getAllMeals_returns) Hi)
    as (v & Hs & ->).
  f_equal. by eapply Hv.
Qed.

(** C33. The meals behind a single-flight cache: however many components ask
    and in whatever order their calls and the landing of the load
    interleave, the query runs at most once, the request waits at most one
    timer, and every component that has a result has the table. *)
Theorem getAllMeals_single_flight e n evs :
  Forall (λ ev, on_key "getAllMeals" ev = true) evs →
  let st := flight_run (λ _, getAllMeals) evs (start e n) in
  runs select_all (store st) ≤ runs select_all e + 1 ∧
  (elapsed (store st) ≤ elapsed e + 2000)%Z ∧
  ∀ i k o, callers st !! i = Some (Ended k o) → o = Done (meals e).
Proof. apply getAllMeals_flight_bounds. Qed.

Lemma meals_concurrent_run e :
  flight_run (λ _, getAllMeals) meals_concurrent (start e 2)
  = mkFlight
      (mkMealsEnv (meals e) (files e) (log e ++ [LStatement select_all []]) (elapsed e + 2000))
      (<["getAllMeals" := Ready (meals e)]> (<["getAllMeals" := InFlight]> ∅))
      [Ended "getAllMeals" (Done (meals e)); Ended "getAllMeals" (Done (meals e))]
      ["getAllMeals"].
Proof.
  unfold flight_run, meals_concurrent, call, land. simpl.
  by repeat (first [rewrite lookup_empty | rewrite lookup_insert_eq]; simpl).
Qed.

(** The page and its suspended child of app/meals/page.js, both asking
    before the load has landed: one query, one wait of two seconds, and both
    have the table. *)
Theorem meals_page_single_flight e :
  let st := flight_run (λ _, getAllMeals) meals_concurrent (start e 2) in
  callers st = [Ended "getAllMeals" (Done (meals e)); Ended "getAllMeals" (Done (meals e))] ∧
  loaded st = ["getAllMeals"] ∧
  runs select_all (store st) = runs select_all e + 1 ∧
  elapsed (store st) = (elapsed e + 2000)%Z.
Proof.
  intros st. unfold st. rewrite meals_concurrent_run. simpl.
  do 2 (split; [done|]). split; [|done].
  by rewrite (runs_log _ e _ [LStatement select_all []]), is_run_same.
Qed.

(** In the order of the page the child finds the value: it has the table
    without a second query or wait. *)
Theorem meals_in_page_order_single_flight e :
  let st := flight_run (λ _, getAllMeals) meals_in_page_order (start e 2) in
  callers st = [Ended "getAllMeals" (Done (meals e)); Ended "getAllMeals" (Done (meals e))] ∧
  loaded st = ["getAllMeals"] ∧
  elapsed (store st) = (elapsed e + 2000)%Z.
Proof.
  unfold flight_run, meals_in_page_order, call, land. simpl.
  by repeat (first [rewrite lookup_empty | rewrite lookup_insert_eq]; simpl).
Qed.

Lemma getAllMeals_single_flight_witness :
  let st := flight_run (λ _, getAllMeals) meals_concurrent (start sample_meals_env 2) in
  runs select_all (store st) ≤ runs select_all sample_meals_env + 1 ∧
  (elapsed (store st) ≤ elapsed sample_meals_env + 2000)%Z ∧
  ∀ i k o, callers st !! i = Some (Ended k o) → o = Done (meals sample_meals_env).
Proof.
  apply (getAllMeals_single_flight sample_meals_env 2 meals_concurrent).
  by repeat constructor.
Defined.
