(* ===== verification/FlightLiveness.v ===== *)
(** * Single-flight loading: every caller returns

    [SingleFlight] shows what can never happen on a schedule of calls and
    landings.  This file shows what does happen: the loads in flight of a
    state are finitely many ([flying]), each landing takes one of them away
    and starts none, and once all of them have landed ([drain]) no caller is
    left waiting: every caller that called has the value of its key.

    The loader is one that always returns ([returns]); for the instance, it
    is [getAllMeals] of src/3 Udemy/3-foodies-udemy/lib/meals.js, which waits
    for its timer and returns the table. *)

From stdpp Require Import prelude strings list gmap.
From S2P Require Import Prelude Meals SingleFlight.

Definition is_flying {V : Type} (sl : Slot V) : bool :=
  match sl with
  | InFlight => true
  | Ready _ => false
  end.

Section drain.
Context {S V : Type} (loader : string → Act S V).
Implicit Types (st : Flight S V) (k : string) (i : nat) (c : Caller V).

(** The keys with a load in flight. *)
Definition flying st : list string :=
  (filter (λ p, is_flying p.2 = true) (map_to_list (slots st))).*1.

(** The landings of a list of keys, in its order. *)
Definition lands (ks : list string) st : Flight S V := foldl (λ st k, land loader k st) st ks.

(** Every load in flight lands. *)
Definition drain st : Flight S V := lands (flying st) st.

(** How a caller moves on: not at all, or from waiting for a key to
    having its outcome. *)
Definition caller_le c c' : Prop := c = c' ∨ ∃ k o, c = Waiting k ∧ c' = Ended k o.

(** A caller that does not wait: it has not called, or it has a value. *)
Definition answered c : Prop := c = Idle ∨ ∃ k v, c = Ended k (Done v).

End drain.

(** ** Landings *)

Section drain_facts.
Context {S V : Type} (loader : string → Act S V) (Hret : returns loader).
Implicit Types (st : Flight S V) (k : string) (i : nat) (c : Caller V) (ks : list string).

Lemma elem_of_flying st k : k ∈ flying st ↔ slots st !! k = Some InFlight.
Proof.
  unfold flying. rewrite list_elem_of_fmap. split.
  - intros ([k' sl] & -> & [Hf Hin%elem_of_map_to_list]%list_elem_of_filter).
    by destruct sl.
  - intros Hk. exists (k, InFlight). split; [done|].
    apply list_elem_of_filter. split; [done|]. by apply elem_of_map_to_list.
Qed.

Lemma flying_NoDup st : NoDup (flying st).
Proof.
  unfold flying. eapply sublist_NoDup; [apply (NoDup_fst_map_to_list (slots st))|].
  apply fmap_sublist, sublist_filter.
Qed.

Lemma flight_run_app evs evs' st :
  flight_run loader (evs ++ evs') st = flight_run loader evs' (flight_run loader evs st).
Proof. unfold flight_run. apply foldl_app. Qed.

(** A caller waits only for a load in flight. *)
Lemma waiting_is_flying st k i :
  key_inv k st → callers st !! i = Some (Waiting k) → k ∈ flying st.
Proof.
  intros [_ Hc] Hi. apply elem_of_flying. eapply Forall_lookup_1 in Hc; [|done].
  destruct (slots st !! k) as [[|v]|]; simpl in Hc; naive_solver.
Qed.

(** The keys in flight when a slot is overwritten. *)
Lemma flying_insert (m : gmap string (Slot V)) k sl sl' :
  m !! k = Some sl →
  filter (λ p, is_flying p.2 = true) (map_to_list (<[k := sl']> m))
  ≡ₚ filter (λ p, is_flying p.2 = true) ((k, sl') :: map_to_list (delete k m)).
Proof.
  intros Hk. rewrite <-insert_delete_eq.
  by rewrite map_to_list_insert by apply lookup_delete_eq.
Qed.

(** Termination of the drain: a landing of a load in flight leaves one
    load less in flight. *)
Lemma land_flying st k :
  slots st !! k = Some InFlight →
  length (flying (land loader k st)) + 1 = length (flying st).
Proof.
  intros Hk. unfold land, flying. rewrite Hk.
  destruct (Hret k (store st)) as (v & s' & ->). simpl. rewrite !length_fmap.
  rewrite (flying_insert _ k InFlight (Ready v)) by done.
  rewrite <-(map_to_list_delete (slots st) k InFlight) by done.
  rewrite filter_cons_False, filter_cons_True by done. simpl. lia.
Qed.

(** A landing starts no load. *)
Lemma land_slot_flying st k k' :
  slots (land loader k' st) !! k = Some InFlight →
  slots st !! k = Some InFlight ∧ k ≠ k'.
Proof.
  unfold land. destruct (slots st !! k') as [[|v']|] eqn:Hk'; try (intros ?; split; congruence).
  destruct (Hret k' (store st)) as (v & s' & ->). simpl.
  destruct (decide (k' = k)) as [->|]; [by rewrite lookup_insert_eq|].
  by rewrite lookup_insert_ne.
Qed.

Lemma lands_snoc ks k st : lands loader (ks ++ [k]) st = land loader k (lands loader ks st).
Proof. unfold lands. by rewrite foldl_app. Qed.

(** A schedule of landings is the landings of its keys. *)
Lemma run_lands ks st : flight_run loader (Land <$> ks) st = lands loader ks st.
Proof.
  unfold flight_run, lands. revert st. induction ks as [|k ks IH]; intros st; [done|].
  simpl. apply IH.
Qed.

Lemma lands_slot_flying ks st k :
  slots (lands loader ks st) !! k = Some InFlight →
  slots st !! k = Some InFlight ∧ k ∉ ks.
Proof.
  induction ks as [|k' ks IH] using rev_ind; [intros ?; split; [done|apply not_elem_of_nil]|].
  rewrite lands_snoc. intros [H%IH Hne]%land_slot_flying. set_solver.
Qed.

Lemma lands_inv ks st k : key_inv k st → key_inv k (lands loader ks st).
Proof.
  intros H. induction ks as [|k' ks IH] using rev_ind; [done|].
  rewrite lands_snoc. by apply land_inv.
Qed.

(** ** Callers *)

#[local] Instance caller_le_preorder : PreOrder (@caller_le V).
Proof.
  split; [by left|].
  intros c1 c2 c3 [->|(k & o & -> & ->)] [<-|(k' & o' & E & ->)];
    unfold caller_le; naive_solver.
Qed.

Lemma wake_le k o c : caller_le c (wake k o c).
Proof.
  destruct c as [|k'|k' o']; simpl; [by left | | by left].
  case_bool_decide; [subst; right; eauto | by left].
Qed.

Lemma callers_le_refl (cs : list (Caller V)) : Forall2 caller_le cs cs.
Proof. apply Forall_Forall2_diag, Forall_forall. by left. Qed.

Lemma land_callers st k : Forall2 caller_le (callers st) (callers (land loader k st)).
Proof.
  unfold land. destruct (slots st !! k) as [[|v]|]; try apply callers_le_refl.
  destruct (loader k (store st)) as [o s']. simpl.
  apply Forall2_fmap_r, Forall_Forall2_diag, Forall_forall. intros c _. apply wake_le.
Qed.

Lemma lands_callers ks st : Forall2 caller_le (callers st) (callers (lands loader ks st)).
Proof.
  induction ks as [|k ks IH] using rev_ind; [apply callers_le_refl|].
  rewrite lands_snoc. etrans; [done|]. apply land_callers.
Qed.

(** ** After the drain *)

Lemma drain_nothing_flying st k : slots (drain loader st) !! k ≠ Some InFlight.
Proof. intros [H Hk]%lands_slot_flying. by apply Hk, elem_of_flying. Qed.

(** In a state that keeps the invariant and has no load in flight, every
    caller is answered. *)
Lemma answered_without_flights st :
  (∀ k, key_inv k st) → (∀ k, slots st !! k ≠ Some InFlight) →
  Forall answered (callers st).
Proof.
  intros Hinv Hnone. apply Forall_lookup. intros i c Hi.
  destruct c as [|k|k o]; [by left | |].
  - destruct (Hinv k) as [_ Hc]. eapply Forall_lookup_1 in Hc; [|done].
    specialize (Hnone k). destruct (slots st !! k) as [[|v]|]; simpl in Hc; naive_solver.
  - destruct (ended_has_slot_value st k i o (Hinv k) Hi) as (v & _ & ->).
    right. eauto.
Qed.

(** Liveness: from a state that keeps the invariant, once the loads in
    flight have landed (as many landings as there were loads, and none is
    left), every caller is answered, and a caller that waited for a key has
    a value for that key. *)
Theorem drain_answers_every_caller st :
  (∀ k, key_inv k st) →
  flight_run loader (Land <$> flying st) st = drain loader st ∧
  flying (drain loader st) = [] ∧
  Forall answered (callers (drain loader st)) ∧
  ∀ i k, callers st !! i = Some (Waiting k) →
    ∃ v, callers (drain loader st) !! i = Some (Ended k (Done v)).
Proof.
  intros Hinv.
  assert (Forall answered (callers (drain loader st))) as Hans.
  { apply answered_without_flights; [|apply drain_nothing_flying].
    intros k. by apply lands_inv. }
  split_and!; [| |done|].
  - apply run_lands.
  - destruct (flying (drain loader st)) as [|k ks] eqn:E; [done|].
    destruct (drain_nothing_flying st k). apply elem_of_flying. rewrite E. by left.
  - intros i k Hi.
    destruct (Forall2_lookup_l _ _ _ _ _ (lands_callers (flying st) st) Hi) as (c' & Hc' & Hle).
    eapply Forall_lookup_1 in Hans; [|done].
    destruct Hle as [<-|(k' & o & [= <-] & ->)], Hans as [?|(k'' & v & ?)]; simplify_eq.
    eauto.
Qed.

End drain_facts.

(** ** The meals *)

Lemma slots_on_key {S V : Type} (loader : string → Act S V) k (s : S) n evs k' :
  Forall (λ ev, on_key k ev = true) evs → k' ≠ k →
  slots (flight_run loader evs (start s n)) !! k' = None.
Proof.
  intros Hevs Hne. induction evs as [|ev evs IH] using rev_ind; [done|].
  apply Forall_app in Hevs as [Hevs Hev%Forall_inv]. specialize (IH Hevs).
  unfold flight_run in *. rewrite foldl_app. simpl.
  destruct ev as [i k0|k0|f]; simpl in *; [| |done];
    apply bool_decide_eq_true in Hev as ->.
  - unfold call. repeat case_match; simpl; rewrite ?lookup_insert_ne; done.
  - unfold land. repeat case_match; simpl;
      rewrite ?lookup_insert_ne, ?lookup_delete_ne; done.
Qed.

(** C18. With [getAllMeals] behind a single-flight cache, on every schedule of
    calls and landings at most one load is in flight at the end, and once
    it has landed every component that asked for the meals has the table:
    no component waits for ever, and none gets anything else. *)
Theorem getAllMeals_every_caller_returns e n evs :
  Forall (λ ev, on_key "getAllMeals" ev = true) evs →
  let st := flight_run (λ _, getAllMeals) evs (start e n) in
  let st' := flight_run (λ _, getAllMeals) (Land <$> flying st) st in
  length (flying st) ≤ 1 ∧
  Forall (λ c, c = Idle ∨ c = Ended "getAllMeals" (Done (meals e))) (callers st') ∧
  ∀ i k, callers st !! i = Some (Waiting k) →
    callers st' !! i = Some (Ended "getAllMeals" (Done (meals e))).
Proof.
  intros Hevs st st'.
  assert (∀ k, key_inv k st) as Hinv by (intros k; apply run_inv, getAllMeals_returns).
  assert (∀ k, k ∈ flying st → k = "getAllMeals") as Hk.
  { intros k Hin%elem_of_flying. destruct (decide (k = "getAllMeals")) as [|Hne]; [done|].
    unfold st in Hin. by rewrite (slots_on_key _ "getAllMeals") in Hin. }
  assert (Forall (λ ev, on_key "getAllMeals" ev = true) (evs ++ (Land <$> flying st))) as Hall.
  { apply Forall_app. split; [done|]. apply Forall_fmap, Forall_forall.
    intros k ->%Hk. done. }
  destruct (getAllMeals_flight_bounds e n _ Hall) as (_ & _ & Hres).
  rewrite flight_run_app in Hres. fold st st' in Hres.
  destruct (drain_answers_every_caller _ getAllMeals_returns st Hinv)
    as (Hrun & _ & Hans & Hwait).
  fold st' in Hrun. rewrite <-Hrun in Hans, Hwait.
  assert (∀ i k o, callers st' !! i = Some (Ended k o) →
            Ended k o = Ended "getAllMeals" (Done (meals e))) as Hend.
  { intros i k o Hi. rewrite (Hres i k o Hi). f_equal.
    destruct (decide (k = "getAllMeals")) as [|Hne]; [done|].
    assert (key_inv k st') as Hinv'.
    { unfold st', st. rewrite <-flight_run_app. apply run_inv, getAllMeals_returns. }
    destruct (ended_has_slot_value st' k i o Hinv' Hi) as (v & Hs & _).
    unfold st', st in Hs. rewrite <-flight_run_app in Hs.
    by rewrite (slots_on_key _ "getAllMeals") in Hs. }
  split_and!.
  - apply NoDup_all_eq_length with "getAllMeals"; [apply flying_NoDup | by apply Forall_forall].
  - apply Forall_lookup. intros i c Hi. eapply Forall_lookup_1 in Hans; [|done].
    destruct Hans as [->|(k & v & ->)]; [by left | right; eauto].
  - intros i k Hi. destruct (Hwait i k Hi) as (v & Hv). rewrite Hv. f_equal. eauto.
Qed.

(** ** Example *)

(** Two components ask for the meals before the load has landed; the one
    landing answers both. *)
Lemma getAllMeals_every_caller_returns_witness :
  let st := flight_run (λ _, getAllMeals) [Call 0 "getAllMeals"; Call 1 "getAllMeals"]
              (start sample_meals_env 2) in
  let st' := flight_run (λ _, getAllMeals) (Land <$> flying st) st in
  length (flying st) ≤ 1 ∧
  Forall (λ c, c = Idle ∨ c = Ended "getAllMeals" (Done (meals sample_meals_env)))
         (callers st') ∧
  ∀ i k, callers st !! i = Some (Waiting k) →
    callers st' !! i = Some (Ended "getAllMeals" (Done (meals sample_meals_env))).
Proof.
  apply (getAllMeals_every_caller_returns sample_meals_env 2
           [Call 0 "getAllMeals"; Call 1 "getAllMeals"]).
  by repeat constructor.
Defined.
