(* ===== verification/FlightBudget.v ===== *)
(** * Loads within budget

    Single-flight loading with the two things SingleFlight.v leaves out:
    invalidation while callers come and go, and loaders that fail.  An
    [Invalidate] event drops the value a slot holds (specification 4.2); a
    load that fails frees its slot (specification 7: no negative caching),
    so the next call loads again.

    The loader then runs more than once for a key, but within a budget:
    once, and once more for every invalidation of the key and for every
    load of it that failed ([load_budget]).  For a loader that always
    returns, as [getAllMeals] does, the budget is one load more per
    invalidation; without invalidations, one load more per failure. *)

From stdpp Require Import prelude strings list gmap.
From S2P Require Import Prelude Messages Meals SingleFlight FlightLiveness.

Inductive CacheEvent (S : Type) :=
| Plain (ev : FlightEvent S)
| Invalidate (k : string).
Arguments Plain {S} ev.
Arguments Invalidate {S} k.

(** The event invalidates the key. *)
Definition is_invalidate {S : Type} (k : string) (ev : CacheEvent S) : bool :=
  match ev with
  | Invalidate k' => bool_decide (k' = k)
  | Plain _ => false
  end.

(** How often a schedule invalidates the key. *)
Definition invalidations {S : Type} (k : string) (evs : list (CacheEvent S)) : nat :=
  length (filter (λ ev, is_invalidate k ev = true) evs).

Section budget.
Context {S V : Type} (loader : string → Act S V).
Implicit Types (st : Flight S V) (k : string) (ev : CacheEvent S) (evs : list (CacheEvent S)).

(** [invalidate]: a value in the slot is dropped, so that the next call
    loads; a load in flight goes on and lands on the store as it is
    then. *)
Definition invalidate_slot k st : Flight S V :=
  mkFlight (store st)
    (match slots st !! k with
     | Some (Ready _) => delete k (slots st)
     | _ => slots st
     end)
    (callers st) (loaded st).

Definition cache_step st ev : Flight S V :=
  match ev with
  | Plain ev => flight_step loader st ev
  | Invalidate k => invalidate_slot k st
  end.

Definition cache_run evs st : Flight S V := foldl cache_step st evs.

(** The event is the landing of a load of the key that fails. *)
Definition fails k st ev : bool :=
  match ev with
  | Plain (Land k') =>
      bool_decide (k' = k) && from_option is_flying false (slots st !! k)
        && negb (is_done (loader k (store st)).1)
  | _ => false
  end.

(** How many loads of the key fail along a schedule. *)
Fixpoint failures k evs st : nat :=
  match evs with
  | [] => 0
  | ev :: evs => (if fails k st ev then 1 else 0) + failures k evs (cache_step st ev)
  end.

(** The load a key still has to its credit: none once it holds a value. *)
Definition owed k st : nat :=
  match slots st !! k with
  | Some (Ready _) => 0
  | _ => 1
  end.

End budget.

(** The events of a schedule on the meals: calls for the meals, landings
    of their load, and invalidations. *)
Definition on_meals (ev : CacheEvent MealsEnv) : bool :=
  match ev with
  | Plain ev => on_key "getAllMeals" ev
  | Invalidate _ => true
  end.

(** The page and its child ask for the meals; the meals are invalidated
    between the two. *)
Definition meals_invalidated : list (CacheEvent MealsEnv) :=
  [Plain (Call 0 "getAllMeals"); Plain (Land "getAllMeals"); Invalidate "getAllMeals";
   Plain (Call 1 "getAllMeals"); Plain (Land "getAllMeals")].

(** Two requests for the messages while the table does not exist yet: the
    load of the first fails; the table is created; the second loads
    again. *)
Definition messages_retried : list (CacheEvent Env) :=
  [Plain (Call 0 "getMessages"); Plain (Land "getMessages");
   Plain (Write (λ e, (initDb e).2));
   Plain (Call 1 "getMessages"); Plain (Land "getMessages")].

(** ** The budget *)

Section budget_facts.
Context {S V : Type} (loader : string → Act S V).
Implicit Types (st : Flight S V) (k : string) (ev : CacheEvent S) (evs : list (CacheEvent S)).

Lemma call_budget i k0 st k :
  loads k (call i k0 st) + owed k (call i k0 st) = loads k st + owed k st.
Proof.
  unfold call. destruct (callers st !! i) as [[| |]|]; try done.
  destruct (slots st !! k0) as [[|v]|] eqn:Hs; try done.
  unfold loads, owed. simpl. destruct (decide (k0 = k)) as [->|];
    [by rewrite lookup_insert_eq, Hs | by rewrite lookup_insert_ne].
Qed.

Lemma land_budget k0 st k :
  loads k (land loader k0 st) + owed k (land loader k0 st)
  = loads k st + owed k st + (if fails loader k st (Plain (Land k0)) then 1 else 0).
Proof.
  unfold land, fails. destruct (decide (k0 = k)) as [->|Hne].
  - rewrite bool_decide_eq_true_2 by done.
    destruct (slots st !! k) as [[|v]|] eqn:Hs; simpl; try lia.
    destruct (loader k (store st)) as [o s']. rewrite loads_land.
    rewrite decide_True by done. unfold owed. simpl. rewrite Hs.
    destruct o; simpl; rewrite ?lookup_insert_eq, ?lookup_delete_eq; lia.
  - rewrite bool_decide_eq_false_2 by done. simpl.
    destruct (slots st !! k0) as [[|v]|] eqn:Hs; try lia.
    destruct (loader k0 (store st)) as [o s']. rewrite loads_land.
    rewrite decide_False by done. unfold owed. simpl.
    destruct o; simpl; rewrite ?lookup_insert_ne, ?lookup_delete_ne by done; lia.
Qed.

Lemma invalidate_budget k0 st k :
  loads k (invalidate_slot k0 st) + owed k (invalidate_slot k0 st)
  ≤ loads k st + owed k st + (if bool_decide (k0 = k) then 1 else 0).
Proof.
  unfold invalidate_slot, owed, loads. simpl.
  destruct (slots st !! k0) as [[|v]|] eqn:Hs; try lia.
  case_bool_decide as Hk; [subst; rewrite lookup_delete_eq, Hs; lia|].
  rewrite lookup_delete_ne by done. lia.
Qed.

(** One event spends at most what it brings: an invalidation or a failed
    load of the key brings one load. *)
Lemma step_budget st ev k :
  loads k (cache_step loader st ev) + owed k (cache_step loader st ev)
  ≤ loads k st + owed k st + (if is_invalidate k ev then 1 else 0)
    + (if fails loader k st ev then 1 else 0).
Proof.
  destruct ev as [[i k0|k0|f]|k0]; simpl.
  - rewrite call_budget. lia.
  - rewrite land_budget. simpl. lia.
  - unfold loads, owed. simpl. lia.
  - pose proof (invalidate_budget k0 st k). lia.
Qed.

Lemma invalidations_cons k ev evs :
  invalidations k (ev :: evs) = (if is_invalidate k ev then 1 else 0) + invalidations k evs.
Proof.
  unfold invalidations. destruct (is_invalidate k ev) eqn:E;
    [by rewrite filter_cons_True | by rewrite filter_cons_False by by rewrite E].
Qed.

Lemma run_budget evs st k :
  loads k (cache_run loader evs st) + owed k (cache_run loader evs st)
  ≤ loads k st + owed k st + invalidations k evs + failures loader k evs st.
Proof.
  revert st. induction evs as [|ev evs IH]; intros st; [unfold invalidations; simpl; lia|].
  rewrite invalidations_cons. simpl. specialize (IH (cache_step loader st ev)).
  pose proof (step_budget st ev k). unfold cache_run in *. simpl. lia.
Qed.

(** A loader that always returns has no load that fails. *)
Lemma failures_returns evs st k : returns loader → failures loader k evs st = 0.
Proof.
  intros Hret. revert st. induction evs as [|ev evs IH]; intros st; [done|]. simpl.
  rewrite IH. replace (fails loader k st ev) with false; [done|].
  destruct ev as [[i k0|k0|f]|k0]; simpl; try done.
  destruct (Hret k (store st)) as (v & s' & ->). simpl. by rewrite andb_false_r.
Qed.

(** Without invalidations the schedule is one of SingleFlight.v. *)
Lemma cache_run_plain (evs : list (FlightEvent S)) st :
  cache_run loader (Plain <$> evs) st = flight_run loader evs st.
Proof.
  revert st. induction evs as [|ev evs IH]; intros st; [done|]. apply IH.
Qed.

Lemma invalidations_plain (evs : list (FlightEvent S)) k : invalidations k (Plain <$> evs) = 0.
Proof. induction evs as [|ev evs IH]; [done|]. by rewrite fmap_cons, invalidations_cons, IH. Qed.

Lemma start_budget (s : S) n evs k :
  loads k (cache_run loader evs (start s n))
  ≤ 1 + invalidations k evs + failures loader k evs (start s n).
Proof.
  pose proof (run_budget evs (start s n) k) as H.
  unfold loads at 2 in H. unfold owed at 2 in H. simpl in H.
  rewrite lookup_empty in H. simpl in H. lia.
Qed.

(** The budget of a key.  From an empty cache, on every schedule of calls,
    landings, writes and invalidations, the loader runs for a key once,
    and at most once more for every invalidation of the key and for every
    load of it that failed. *)
Theorem load_budget (s : S) n evs k :
  loads k (cache_run loader evs (start s n))
  ≤ 1 + invalidations k evs + failures loader k evs (start s n).
Proof. apply start_budget. Qed.

(** For a loader that always returns: one load, and one more per
    invalidation. *)
Theorem loads_within_invalidations (s : S) n evs k :
  returns loader → loads k (cache_run loader evs (start s n)) ≤ 1 + invalidations k evs.
Proof.
  intros Hret. pose proof (start_budget s n evs k) as H.
  rewrite failures_returns in H by done. lia.
Qed.

(** Without invalidations, for any loader: one load, and one more per
    load that failed. *)
Theorem loads_within_failures (s : S) n (evs : list (FlightEvent S)) k :
  loads k (flight_run loader evs (start s n))
  ≤ 1 + failures loader k (Plain <$> evs) (start s n).
Proof.
  pose proof (start_budget s n (Plain <$> evs) k) as H.
  rewrite cache_run_plain, invalidations_plain in H. lia.
Qed.

End budget_facts.

(** ** A fresh value after an invalidation *)

Section fresh.
Context {S V : Type} (loader : string → Act S V).
Implicit Types (st : Flight S V) (k : string) (i : nat).

(** A call for a key without a slot, and the landing of its load. *)
Lemma call_land_starts st i k :
  callers st !! i = Some Idle → slots st !! k = None →
  callers (land loader k (call i k st)) !! i = Some (Ended k (loader k (store st)).1).
Proof.
  intros Hi Hs. pose proof (lookup_lt_Some _ _ _ Hi) as Hlt.
  unfold call. rewrite Hi, Hs. unfold land. simpl. rewrite lookup_insert_eq.
  destruct (loader k (store st)) as [o s']. simpl.
  by rewrite list_lookup_fmap, list_lookup_insert_eq by done; simpl;
    rewrite bool_decide_eq_true_2.
Qed.

Lemma invalidate_slot_None st k :
  slots st !! k ≠ Some InFlight → slots (invalidate_slot k st) !! k = None.
Proof.
  intros Hk. unfold invalidate_slot. simpl.
  destruct (slots st !! k) as [[|v]|] eqn:E; [done | by rewrite lookup_delete_eq | done].
Qed.

(** After an invalidation, a caller that calls and whose load lands has
    the outcome of the loader on the store as it is then, whatever the
    slot held before. *)
Theorem invalidate_call_land_fresh st i k :
  callers st !! i = Some Idle → slots st !! k ≠ Some InFlight →
  callers (cache_run loader [Invalidate k; Plain (Call i k); Plain (Land k)] st) !! i
  = Some (Ended k (loader k (store st)).1).
Proof.
  intros Hi Hk.
  apply (call_land_starts (invalidate_slot k st) i k Hi), invalidate_slot_None, Hk.
Qed.

End fresh.

(** ** The meals under invalidation *)

Lemma meals_inv_invalidate e k st : meals_inv e st → meals_inv e (invalidate_slot k st).
Proof.
  intros (Hm & Hr & Ht & Hk & Hv). repeat split; try done. simpl. intros k' v.
  destruct (slots st !! k) as [[|v']|]; try apply Hv.
  intros [_ H]%lookup_delete_Some. by eapply Hv.
Qed.

Lemma meals_inv_cache_run e n evs :
  Forall (λ ev, on_meals ev = true) evs →
  meals_inv e (cache_run (λ _, getAllMeals) evs (start e n)).
Proof.
  induction evs as [|ev evs IH] using rev_ind; [intros _; apply meals_inv_start|].
  intros [Hevs Hev%Forall_inv]%Forall_app. unfold cache_run. rewrite foldl_app.
  destruct ev as [[i k|k|f]|k]; simpl in *; [| |done|].
  - by apply meals_inv_call, IH.
  - apply bool_decide_eq_true in Hev as ->. by apply meals_inv_land, IH.
  - by apply meals_inv_invalidate, IH.
Qed.

(** C31. Behind a single-flight cache that is invalidated, [getAllMeals] runs
    its query once and once more per invalidation at most, and the
    requests wait for as many timers. *)
Theorem getAllMeals_invalidated_bounds e n evs :
  Forall (λ ev, on_meals ev = true) evs →
  let st := cache_run (λ _, getAllMeals) evs (start e n) in
  runs select_all (store st) ≤ runs select_all e + 1 + invalidations "getAllMeals" evs ∧
  (elapsed (store st)
   ≤ elapsed e + 2000 * (1 + Z.of_nat (invalidations "getAllMeals" evs)))%Z ∧
  meals (store st) = meals e.
Proof.
  intros Hevs st. destruct (meals_inv_cache_run e n evs Hevs) as (Hm & Hr & Ht & Hk & _).
  pose proof (loads_within_invalidations (λ _, getAllMeals) e n evs "getAllMeals"
                getAllMeals_returns) as Hl.
  unfold loads in Hl. rewrite loads_all in Hl by done. fold st in Hr, Ht, Hl |- *.
  split_and!; [lia|lia|done].
Qed.

(** The bound is met: an invalidation between the call of the page and
    the call of its child makes the query run twice. *)
Example meals_invalidated_twice :
  let st := cache_run (λ _, getAllMeals) meals_invalidated (start sample_meals_env 2) in
  runs select_all (store st) = runs select_all sample_meals_env + 2 ∧
  invalidations "getAllMeals" meals_invalidated = 1 ∧
  callers st = [Ended "getAllMeals" (Done sample_meals); Ended "getAllMeals" (Done sample_meals)].
Proof. by vm_compute. Qed.

(** A failure is not kept, and is paid for with a second load: the first
    caller has the error of the missing table, the second the rows. *)
Example messages_retried_twice :
  let st := cache_run (λ _, fetchMessages) messages_retried (start (mkEnv None []) 2) in
  loads "getMessages" st = 2 ∧
  failures (λ _, fetchMessages) "getMessages" messages_retried (start (mkEnv None []) 2) = 1 ∧
  callers st = [Ended "getMessages" (Throw no_such_table); Ended "getMessages" (Done [])].
Proof. by vm_compute. Qed.

Lemma getAllMeals_invalidated_bounds_witness :
  let st := cache_run (λ _, getAllMeals) meals_invalidated (start sample_meals_env 2) in
  runs select_all (store st)
  ≤ runs select_all sample_meals_env + 1 + invalidations "getAllMeals" meals_invalidated ∧
  (elapsed (store st)
   ≤ elapsed sample_meals_env
     + 2000 * (1 + Z.of_nat (invalidations "getAllMeals" meals_invalidated)))%Z ∧
  meals (store st) = meals sample_meals_env.
Proof.
  apply (getAllMeals_invalidated_bounds sample_meals_env 2 meals_invalidated).
  by repeat constructor.
Defined.

Lemma invalidate_call_land_fresh_witness :
  callers (cache_run (λ _, getAllMeals)
             [Invalidate "getAllMeals"; Plain (Call 1 "getAllMeals"); Plain (Land "getAllMeals")]
             (start sample_meals_env 2)) !! 1
  = Some (Ended "getAllMeals" (getAllMeals sample_meals_env).1).
Proof.
  apply (invalidate_call_land_fresh (λ _, getAllMeals) (start sample_meals_env 2) 1
           "getAllMeals"); done.
Defined.
