(* ===== verification/ImagePicker.v ===== *)
(** * The image picker (3-foodies-udemy/components/meals/image-picker.js)

    A client component with one piece of state, [pickedImage], a ref to its
    file input, and two handlers.  [handleImageChange] starts a
    [FileReader] whose [onload] sets the state later: between the change
    and the load other events can happen, so the component is modelled as a
    state machine.  [Picker] holds the state of the hook, whether the ref is
    attached, the readers that were started and have not finished (each
    under a handle, with the file it reads), and what the handlers did to
    the outside: file dialogs opened and lines written with
    [console.error].

    [Event] is what can happen to a mounted picker: a click on the button, a
    change of the input (with [files[0]], which is [undefined] when the
    selection is empty), and the completion of a reader.  [step] runs the
    handler of the event; [run] runs a sequence of events.

    The encoding of a file as a data URL is a parameter of the component;
    its result starts with "data:" and is therefore never empty. *)

From stdpp Require Import prelude strings list.
From S2P Require Import Prelude Meals.

Record Picker := mkPicker {
  pickedImage : JsVal;
  input_attached : bool;
  reading : list (nat * File);
  next_reader : nat;
  dialogs : nat;
  errors : list string
}.

Inductive Event :=
| Click
| Change (file : option File)
| Loaded (reader : nat).

Inductive PickerData :=
| PClass (name : string)
| PHandler (h : string)
| PRef.

(** [useState()] and [useRef()] at mount; the ref is attached once the
    input is rendered. *)
Definition mount : Picker := mkPicker JUndefined true [] 0 0 [].

Definition setPickedImage (v : JsVal) (p : Picker) : Picker :=
  mkPicker v (input_attached p) (reading p) (next_reader p) (dialogs p) (errors p).

Section picker.
Context (encode : File → string).

(** [reader.result] after [readAsDataURL]. *)
Definition data_url (f : File) : string := "data:" +:+ encode f.

(** [handlePickImage]: the dialog opens if the ref is attached. *)
Definition handlePickImage (p : Picker) : Picker :=
  if input_attached p
  then mkPicker (pickedImage p) (input_attached p) (reading p) (next_reader p)
                (S (dialogs p)) (errors p)
  else p.

(** [handleImageChange] up to the point where the reader is started. *)
Definition handleImageChange (file : option File) (p : Picker) : Picker :=
  match file with
  | None =>
      let p := setPickedImage JNull p in
      mkPicker (pickedImage p) (input_attached p) (reading p) (next_reader p)
               (dialogs p) (errors p ++ ["No file selected"])
  | Some f =>
      mkPicker (pickedImage p) (input_attached p) (reading p ++ [(next_reader p, f)])
               (S (next_reader p)) (dialogs p) (errors p)
  end.

(** [reader.onload] of the reader with the given handle. *)
Definition onload (k : nat) (p : Picker) : Picker :=
  match list_find (λ r, r.1 = k) (reading p) with
  | None => p
  | Some (_, (_, f)) =>
      setPickedImage (JStr (data_url f))
        (mkPicker (pickedImage p) (input_attached p)
                  (filter (λ r, r.1 ≠ k) (reading p)) (next_reader p) (dialogs p) (errors p))
  end.

Definition step (p : Picker) (ev : Event) : Picker :=
  match ev with
  | Click => handlePickImage p
  | Change file => handleImageChange file p
  | Loaded k => onload k p
  end.

Definition run (evs : list Event) (p : Picker) : Picker := foldl step p evs.

(** The user changes the input and the read, if one was started, finishes
    before anything else happens. *)
Definition change_and_wait (p : Picker) (file : option File) : Picker :=
  match file with
  | None => step p (Change None)
  | Some f => step (step p (Change (Some f))) (Loaded (next_reader p))
  end.

(** What the preview should show for the selection of the input. *)
Definition preview_of (file : option File) : JsVal :=
  match file with
  | None => JNull
  | Some f => JStr (data_url f)
  end.

(** The component, from its props and its state. *)
Definition ImagePicker (label name : string) (p : Picker) : Html PickerData :=
  Fragment [
    Node "div" [("className", AData (PClass "picker"))] [
      Node "label" [("htmlFor", AStr name)] [Val (AStr label)];
      Node "div" [("className", AData (PClass "controls"))] [
        Node "div" [("className", AData (PClass "preview"))] [
          if truthy (pickedImage p)
          then Node "Image" [("src", AStr (template (pickedImage p)));
                             ("alt", AStr "Picked"); ("fill", ABool true)] []
          else Node "p" [] [Text "No image picked yet."] ];
        Node "input" [("className", AData (PClass "input")); ("ref", AData PRef);
                      ("type", AStr "file"); ("id", AStr name); ("name", AStr name);
                      ("accept", AStr "image/png, image/jpeg, image/jpg");
                      ("onChange", AData (PHandler "handleImageChange"))] [];
        Node "button" [("className", AData (PClass "button")); ("type", AStr "button");
                       ("onClick", AData (PHandler "handlePickImage"))]
          [Text "Pick an Image"] ] ] ].

(** The files the input was changed to along a sequence of events. *)
Definition chosen (evs : list Event) : list File :=
  omap (λ ev, match ev with Change (Some f) => Some f | _ => None end) evs.

(** Handles are fresh and every reader reads a file that was chosen. *)
Definition wf_picker (files : list File) (p : Picker) : Prop :=
  Forall (λ r, r.1 < next_reader p ∧ r.2 ∈ files) (reading p) ∧
  NoDup (fst <$> reading p) ∧
  (pickedImage p = JUndefined ∨ pickedImage p = JNull ∨
   ∃ f, f ∈ files ∧ pickedImage p = JStr (data_url f)).

End picker.

Definition small_file : File := mkFile "small.png" [1; 2]%Z.
Definition large_file : File := mkFile "large.jpg" [3; 4; 5; 6; 7; 8]%Z.
Definition sample_encode (f : File) : string := file_name f.

(** ** The handlers keep the picker well formed *)

Section picker_facts.
Context (encode : File → string).
Implicit Types (p : Picker) (f : File) (files : list File) (ev : Event) (k : nat).

Lemma data_url_truthy f : truthy (JStr (data_url encode f)) = true.
Proof. done. Qed.

Lemma wf_picker_mono files files' p :
  files ⊆ files' → wf_picker encode files p → wf_picker encode files' p.
Proof.
  intros Hsub (Hr & Hnd & Hp). split_and!; [|done|].
  - eapply Forall_impl; [done|]. intros [k f] [? ?]. split; [done|]. by apply Hsub.
  - destruct Hp as [?|[?|(f & ? & ?)]]; [by left | by right; left |].
    right; right. exists f. split; [by apply Hsub | done].
Qed.

Lemma handleImageChange_wf files p file :
  wf_picker encode files p → (∀ f, file = Some f → f ∈ files) →
  wf_picker encode files (handleImageChange file p).
Proof.
  intros (Hr & Hnd & Hp) Hin. destruct file as [f|]; simpl; [|by split_and!; auto].
  split_and!; simpl; [| |done].
  - rewrite Forall_app. split.
    + eapply Forall_impl; [done|]. intros [k g] [? ?]. simpl in *. split; [lia|done].
    + apply Forall_singleton. simpl. split; [lia | by apply Hin].
  - rewrite fmap_app. apply NoDup_app. split_and!; [done| |apply NoDup_singleton].
    intros k (r & Hr1 & Hk)%list_elem_of_fmap Hr2%list_elem_of_singleton.
    rewrite Forall_forall in Hr. apply Hr in Hk as [Hlt _]. simpl in *. lia.
Qed.

Lemma onload_wf files p k : wf_picker encode files p → wf_picker encode files (onload encode k p).
Proof.
  intros (Hr & Hnd & Hp). unfold onload.
  destruct (list_find _ (reading p)) as [[i [j f]]|] eqn:E; [|done].
  apply list_find_Some in E as (Hi%list_elem_of_lookup_2 & _ & _).
  rewrite Forall_forall in Hr. split_and!; simpl.
  - apply Forall_forall. intros r [_ Hin]%list_elem_of_filter. by apply Hr.
  - eapply sublist_NoDup; [done|]. apply fmap_sublist, sublist_filter.
  - right; right. exists f. split; [|done]. by destruct (Hr _ Hi).
Qed.

Lemma step_wf files p ev :
  wf_picker encode files p → (∀ f, ev = Change (Some f) → f ∈ files) →
  wf_picker encode files (step encode p ev).
Proof.
  intros Hwf Hin. destruct ev as [|file|k]; simpl.
  - unfold handlePickImage. by destruct (input_attached p).
  - apply handleImageChange_wf; [done|]. intros f ->. by apply Hin.
  - by apply onload_wf.
Qed.

Lemma chosen_app evs evs' : chosen (evs ++ evs') = chosen evs ++ chosen evs'.
Proof. unfold chosen. apply omap_app. Qed.

Lemma run_wf evs : wf_picker encode (chosen evs) (run encode evs mount).
Proof.
  induction evs as [|ev evs IH] using rev_ind.
  { split_and!; simpl; [constructor | constructor | by left]. }
  unfold run. rewrite foldl_app, chosen_app. simpl. apply step_wf.
  - eapply wf_picker_mono; [|exact IH]. set_solver.
  - intros f ->. simpl. set_solver.
Qed.

(** A change whose read finishes before the next event. *)
Lemma change_and_wait_quiet p file :
  reading p = [] →
  reading (change_and_wait encode p file) = [] ∧
  pickedImage (change_and_wait encode p file) = preview_of encode file.
Proof.
  intros Hq. destruct file as [f|]; simpl; [|done].
  unfold onload. simpl. rewrite Hq. simpl.
  destruct (decide (next_reader p = next_reader p)); [simpl|done].
  by rewrite filter_cons_False by (simpl; auto).
Qed.

Lemma mount_quiet : reading mount = [].
Proof. done. Qed.

(** ** Properties *)

(** C35. Whatever happens to a mounted picker, and in whatever order reads
    finish, the preview shows nothing, or the data URL of a file the input
    was changed to at some point. *)
Theorem preview_is_a_chosen_file evs :
  let p := run encode evs mount in
  pickedImage p = JUndefined ∨ pickedImage p = JNull ∨
  ∃ f, f ∈ chosen evs ∧ pickedImage p = JStr (data_url encode f).
Proof. by destruct (run_wf evs) as (_ & _ & ?). Qed.

(** When every read finishes before the next change, the preview
    follows the input: after any sequence of changes it shows the last file
    chosen, or nothing when the last change emptied the selection, and no
    read is left running. *)
Theorem preview_follows_selection (choices : list (option File)) (last : option File) :
  let p := foldl (change_and_wait encode) mount (choices ++ [last]) in
  pickedImage p = preview_of encode last ∧ reading p = [].
Proof.
  simpl. rewrite foldl_app. simpl.
  assert (reading (foldl (change_and_wait encode) mount choices) = []) as Hq.
  { induction choices as [|c choices IH] using rev_ind; [done|].
    rewrite foldl_app. simpl. by apply change_and_wait_quiet. }
  by destruct (change_and_wait_quiet _ last Hq).
Qed.

(** C34. The preview can show a file that is not the selection: a read that
    finishes late overwrites the preview of a later choice, and a read that
    finishes after the selection was emptied brings its image back. *)
Theorem preview_can_be_stale f g :
  data_url encode f ≠ data_url encode g →
  let raced := run encode [Change (Some f); Change (Some g); Loaded 1; Loaded 0] mount in
  let cleared := run encode [Change (Some f); Change None; Loaded 0] mount in
  pickedImage raced = JStr (data_url encode f) ∧
  pickedImage raced ≠ preview_of encode (Some g) ∧ reading raced = [] ∧
  pickedImage cleared = JStr (data_url encode f) ∧
  pickedImage cleared ≠ preview_of encode None ∧
  errors cleared = ["No file selected"].
Proof.
  intros Hne. simpl. split_and!; try done.
  intros E. apply Hne. unfold data_url. congruence.
Qed.

(** The component shows the image exactly when one is picked, with the
    data URL as its source, and the placeholder otherwise; the input
    carries the name it was given as [id] and as [name]. *)
Theorem ImagePicker_preview label name p :
  elements "Image" (ImagePicker label name p)
  = (if truthy (pickedImage p)
     then [([("src", AStr (template (pickedImage p))); ("alt", AStr "Picked");
             ("fill", ABool true)], [])]
     else []) ∧
  (elements "p" (ImagePicker label name p) = [] ↔ truthy (pickedImage p) = true) ∧
  ∃ attrs, elements "input" (ImagePicker label name p) = [(attrs, [])] ∧
           attr "id" attrs = Some (AStr name) ∧ attr "name" attrs = Some (AStr name).
Proof.
  split_and!.
  - unfold ImagePicker. simpl. by destruct (truthy (pickedImage p)).
  - unfold ImagePicker. simpl. by destruct (truthy (pickedImage p)).
  - unfold ImagePicker. simpl. destruct (truthy (pickedImage p)); by eexists.
Qed.

(** A click on the button opens the file dialog once when the input is
    attached and does nothing otherwise; it never touches the preview or a
    running read. *)
Theorem handlePickImage_opens_dialog p :
  let p' := step encode p Click in
  pickedImage p' = pickedImage p ∧ reading p' = reading p ∧
  dialogs p' = (if input_attached p then S (dialogs p) else dialogs p).
Proof. simpl. unfold handlePickImage. by destruct (input_attached p). Qed.

End picker_facts.

(** ** The theorems at sample files *)

Lemma preview_can_be_stale_witness :
  let raced := run sample_encode
    [Change (Some small_file); Change (Some large_file); Loaded 1; Loaded 0] mount in
  let cleared := run sample_encode [Change (Some small_file); Change None; Loaded 0] mount in
  pickedImage raced = JStr (data_url sample_encode small_file) ∧
  pickedImage raced ≠ preview_of sample_encode (Some large_file) ∧ reading raced = [] ∧
  pickedImage cleared = JStr (data_url sample_encode small_file) ∧
  pickedImage cleared ≠ preview_of sample_encode None ∧
  errors cleared = ["No file selected"].
Proof. by apply (preview_can_be_stale sample_encode small_file large_file). Defined.
