(* ===== verification/Pages.v ===== *)
(** * Static pages and the site header

    - 2-basic-with-js/app: [Home] (page.jsx), [Blogs] (blogs/page.jsx),
      [BlogPost] (blogs/[slug]/page.jsx) and [services]
      (services/page.jsx);
    - 7-next-optimization/components/header.js: [Header].

    These components have no state; what can go wrong in them is where
    their links lead.  [links] collects the targets of the [Link] elements
    of a tree, [resolve] resolves a target against the path of the page that
    shows it, the way a browser resolves a relative reference, and
    [route_of] matches a path against the pages of 2-basic-with-js/app that
    are part of the sources.  The [console.log] calls of [BlogPost] and
    [services] are left out. *)

From stdpp Require Import prelude strings list.
From S2P Require Import Prelude.

Inductive PageData :=
| DAsset (file : string).

(** ** 2-basic-with-js/app *)

Definition Home : Html PageData :=
  Fragment [
    Node "h1" [] [Text "Welcome Home"];
    Node "p" [] [Node "Link" [("href", AStr "/about")] [Text "About"]];
    Node "p" [] [Node "Link" [("href", AStr "/blogs")] [Text "Blogs"]];
    Node "p" [] [Node "Link" [("href", AStr "/services")] [Text "Services"]] ].

Definition Blogs : Html PageData :=
  Fragment [
    Node "h1" [] [Text "Blogs"];
    Node "p" [] [Node "Link" [("href", AStr "/blogs/post-1")] [Text "post 1"]];
    Node "p" [] [Node "Link" [("href", AStr "/blogs/post-2")] [Text "post 2"]];
    Node "p" [] [Node "Link" [("href", AStr "/blogs/post-3")] [Text "post 3"]] ].

(** [params] resolves to the object holding the segment of the route. *)
Definition BlogPost (slug : string) : Html PageData :=
  Fragment [
    Node "h1" [] [Text "Blog Post"];
    Node "p" [] [Val (AStr slug)] ].

Definition services : Html PageData :=
  Fragment [
    Node "div" [] [Text "All services (Nested Routings - /services/web-dev)"];
    Node "p" [] [Node "Link" [("href", AStr "services/web-dev")] [Text "web development"]];
    Node "p" [] [Node "Link" [("href", AStr "services/app-dev")] [Text "app development"]];
    Node "p" [] [Node "Link" [("href", AStr "services/wordpress")] [Text "wordpress"]];
    Node "p" [] [Node "Link" [("href", AStr "services/seo")] [Text "SEO"]] ].

(** ** 7-next-optimization/components/header.js *)

Definition Header : Html PageData :=
  Node "header" [("id", AStr "main-header")] [
    Node "Link" [("href", AStr "/")] [
      Node "Image" [("src", AData (DAsset "logo.png")); ("priority", ABool true);
                    ("alt", AStr "Mobile phone with posts feed on it")] [] ];
    Node "nav" [] [
      Node "ul" [] [
        Node "li" [] [Node "Link" [("href", AStr "/feed")] [Text "Feed"]];
        Node "li" [] [
          Node "Link" [("className", AStr "cta-link"); ("href", AStr "/new-post")]
            [Text "New Post"] ] ] ] ].

(** ** Links and routes *)

(** The targets of the [Link] elements of a tree, in document order. *)
Definition links {D} (h : Html D) : list string :=
  omap (λ '(attrs, _),
          match attr "href" attrs with
          | Some (AStr s) => Some s
          | _ => None
          end) (elements "Link" h).

(** The segments of a path. *)
Definition segments (path : string) : list string :=
  filter (λ s, s ≠ "") (split "/" path).

Definition is_absolute (href : string) : bool := String.prefix "/" href.

(** The path a reference leads to from the page at [current]: a reference
    that starts with a slash replaces the path, any other replaces its last
    segment. *)
Definition resolve (current : list string) (href : string) : list string :=
  if is_absolute href then segments href
  else removelast current ++ segments href.

(** The pages of 2-basic-with-js/app among the sources. *)
Inductive Route :=
| RHome
| RBlogs
| RBlogPost (slug : string)
| RServices.

Definition route_of (path : list string) : option Route :=
  match path with
  | [] => Some RHome
  | ["blogs"] => Some RBlogs
  | ["blogs"; slug] => Some (RBlogPost slug)
  | ["services"] => Some RServices
  | _ => None
  end.

Definition render (r : Route) : Html PageData :=
  match r with
  | RHome => Home
  | RBlogs => Blogs
  | RBlogPost slug => BlogPost slug
  | RServices => services
  end.

Definition path_of (r : Route) : list string :=
  match r with
  | RHome => []
  | RBlogs => ["blogs"]
  | RBlogPost slug => ["blogs"; slug]
  | RServices => ["services"]
  end.

(** The path of a list of segments, each behind a slash. *)
Definition route_path (segs : list string) : string :=
  foldr (λ seg rest, "/" +:+ seg +:+ rest) "" segs.

(** A segment of a route: not empty, and without a slash. *)
Definition is_segment (seg : string) : Prop := seg ≠ "" ∧ absent_in "/" seg "".

#[export] Instance is_segment_dec seg : Decision (is_segment seg).
Proof. unfold is_segment. apply _. Defined.

(** ** Facts *)

(** The links of an element are those of its children, after its own
    when it is a [Link]. *)
Lemma links_node {D} (t : string) a (cs : list (Html D)) :
  t ≠ "Link" → links (Node t a cs) = mjoin (links <$> cs).
Proof.
  intros Ht. unfold links. rewrite elements_other by done.
  induction cs as [|c cs IH]; [done|]. csimpl. by rewrite omap_app, IH.
Qed.

Lemma links_Fragment {D} (cs : list (Html D)) : links (Fragment cs) = mjoin (links <$> cs).
Proof. by apply links_node. Qed.

(** Whether a slash starts within a text does not depend on what
    follows. *)
Lemma prefix_slash c (x y : string) :
  String.prefix "/" (String c x) = String.prefix "/" (String c y).
Proof. cbn [String.prefix]. destruct (Ascii.ascii_dec _ c); [|done]. by destruct x, y. Qed.

Lemma absent_in_slash (a rest : string) : absent_in "/" a "" → absent_in "/" a rest.
Proof.
  induction a as [|c a IH]; [done|]. cbn [absent_in]. intros [Hc Ha].
  split; [by rewrite (prefix_slash c _ (a +:+ "")) | by apply IH].
Qed.

Lemma absent_in_slash_app (a b : string) :
  absent_in "/" a "" → absent_in "/" b "" → absent_in "/" (a +:+ b) "".
Proof.
  intros Ha Hb. induction a as [|c a IH]; [done|]. destruct Ha as [Hc Ha].
  rewrite string_app_cons. split; [|by apply IH].
  by rewrite (prefix_slash c _ (a +:+ "")).
Qed.

(** No piece that [split] cuts at the slashes holds a slash. *)
Lemma split_from_slash_free (cur s : string) :
  absent_in "/" cur "" → Forall (λ piece, absent_in "/" piece "") (split_from "/" 0 cur s).
Proof.
  revert cur. induction s as [|c s IH]; intros cur Hcur; [by repeat constructor|].
  cbn [split_from]. destruct (String.prefix "/" (String c s)) eqn:Hp.
  - constructor; [done|]. by apply IH.
  - apply IH, absent_in_slash_app; [done|]. split; [|done].
    by rewrite (prefix_slash c _ s).
Qed.

(** The segments of any path are segments. *)
Lemma segments_are_segments (path : string) : Forall is_segment (segments path).
Proof.
  unfold segments. apply Forall_forall. intros seg [Hne Hseg]%list_elem_of_filter.
  split; [done|]. clear Hne. revert seg Hseg. apply Forall_forall.
  by apply split_from_slash_free.
Qed.

(** [split] at the first slash. *)
Lemma split_slash (a rest : string) :
  absent_in "/" a "" → split "/" (a +:+ "/" +:+ rest) = a :: split "/" rest.
Proof. intros Ha. apply split_first; [done | by apply absent_in_slash]. Qed.

Lemma split_leading_slash (rest : string) : split "/" ("/" +:+ rest) = "" :: split "/" rest.
Proof. by apply (split_slash "" rest). Qed.

Lemma route_path_cons seg (segs : list string) :
  route_path (seg :: segs) = "/" +:+ seg +:+ route_path segs.
Proof. done. Qed.

(** The pieces of a path from its second on, the first being the empty
    text in front of the leading slash. *)
Lemma split_route_path (segs : list string) :
  Forall is_segment segs → split "/" (route_path segs) = "" :: segs.
Proof.
  induction 1 as [|seg segs [_ Hseg] _ IH]; [done|].
  rewrite route_path_cons, split_leading_slash. f_equal.
  destruct segs as [|seg' segs].
  - simpl. rewrite string_app_nil_r. by apply split_absent.
  - rewrite route_path_cons in *. rewrite split_leading_slash in IH.
    rewrite split_slash by done. f_equal. by injection IH.
Qed.

(** Round trip: the segments of the path of a list of segments are the
    list. *)
Lemma segments_route_path (segs : list string) :
  Forall is_segment segs → segments (route_path segs) = segs.
Proof.
  intros H. unfold segments. rewrite split_route_path by done.
  rewrite filter_cons_False by naive_solver. apply filter_all.
  eapply Forall_impl; [done|]. by intros seg [? _].
Qed.

(** From the root every reference leads to its own segments. *)
Lemma resolve_nil href : resolve [] href = segments href.
Proof. unfold resolve. by destruct (is_absolute href). Qed.

(** A path of segments is an absolute reference to its route. *)
Lemma resolve_route_path current (segs : list string) :
  Forall is_segment segs → segs ≠ [] → resolve current (route_path segs) = segs.
Proof.
  intros H Hne. unfold resolve. destruct segs as [|seg segs]; [done|].
  replace (is_absolute _) with true; [by apply segments_route_path|].
  rewrite route_path_cons. unfold is_absolute. simpl. by destruct (_ +:+ _).
Qed.

(** Paths of different routes differ. *)
Lemma route_path_inj (segs segs' : list string) :
  Forall is_segment segs → Forall is_segment segs' →
  route_path segs = route_path segs' → segs = segs'.
Proof.
  intros H H' E. by rewrite <-(segments_route_path segs), E, segments_route_path.
Qed.

Lemma resolve_absolute current current' href :
  is_absolute href = true → resolve current href = resolve current' href.
Proof. unfold resolve. by intros ->. Qed.

(** Every page is found under its own path. *)
Lemma route_of_path_of r : route_of (path_of r) = Some r.
Proof. by destruct r. Qed.

(** The header is shown on every page: each of its links leads to the same
    path from wherever it is followed. *)
Theorem Header_links_work_everywhere current current' :
  Forall (λ href, resolve current href = resolve current' href) (links Header).
Proof.
  apply Forall_forall. intros href Hin. apply resolve_absolute.
  revert href Hin. apply Forall_forall. by vm_compute; repeat constructor.
Qed.

(** Every link of the blog index leads to a blog post, and the post shows
    the slug of the link. *)
Theorem Blogs_links_reach_posts href :
  href ∈ links Blogs →
  ∃ slug, route_of (resolve (path_of RBlogs) href) = Some (RBlogPost slug) ∧
          href = "/blogs/" +:+ slug ∧
          elements "p" (render (RBlogPost slug)) = [([], [Val (AStr slug)])].
Proof.
  revert href. apply Forall_forall. vm_compute.
  repeat constructor; eexists; (split; [reflexivity|]); by split.
Qed.

(** The links of the services page are relative: they lead below /services
    only from /services itself, and elsewhere from a page one level
    down. *)
Theorem services_links_are_relative href :
  href ∈ links services →
  is_absolute href = false ∧
  resolve (path_of RServices) href = segments href ∧
  resolve (path_of RServices ++ ["web-dev"]) href = "services" :: segments href.
Proof.
  revert href. apply Forall_forall. vm_compute. by repeat constructor.
Qed.

Lemma Blogs_links_reach_posts_witness :
  ∃ slug, route_of (resolve (path_of RBlogs) "/blogs/post-2") = Some (RBlogPost slug) ∧
          "/blogs/post-2" = "/blogs/" +:+ slug ∧
          elements "p" (render (RBlogPost slug)) = [([], [Val (AStr slug)])].
Proof.
  apply (Blogs_links_reach_posts "/blogs/post-2"). by apply (bool_decide_unpack _).
Defined.

Lemma services_links_are_relative_witness :
  is_absolute "services/seo" = false ∧
  resolve (path_of RServices) "services/seo" = segments "services/seo" ∧
  resolve (path_of RServices ++ ["web-dev"]) "services/seo"
  = "services" :: segments "services/seo".
Proof.
  apply (services_links_are_relative "services/seo"). by apply (bool_decide_unpack _).
Defined.
