(* ===== verification/ArchiveCache.v ===== *)
(** * The archive behind the route cache

    The pages of archive/@archive/[[...filter]]/page.js are read through
    the tagged cache of ReadCache.v, one entry per route: the key of a
    route is its path ([archive_key], /archive/2024/05), its tag the list
    of its segments ([archive_route]), and the loader renders
    [FilteredNewsPage] from the table of news.  The sources have no
    mutation of that table; [publish] is the mutation the specification
    asks every writer to be: the row is persisted, then a scope of the
    cache is invalidated with everything nested under it.

    What is shown:

    - which rows a page reads ([FilteredNewsPage_year_frame],
      [FilteredNewsPage_root_frame]): the page of a year, and of a month of
      it, reads the rows of that year only; the page without a filter reads
      the years of the table only;
    - that the cache cannot be seen ([site_inv], [serve_archive_current]):
      on every site reached by visits of paths and by publications that
      invalidate a scope that [covers] the row, a visit is answered with
      the page of the table as it is;
    - that the scope of the year of the row covers it only when the year
      is not new: otherwise the page without a filter, which lists the
      years, stays as it was. *)

From stdpp Require Import prelude strings list gmap.
From S2P Require Import Prelude ReadCache News Pages.

(** The scope of the route of a filter, and the key of its page. *)
Definition archive_route (segs : list string) : Tag := "archive" :: segs.

Definition archive_key (segs : list string) : QueryKey := route_path (archive_route segs).

(** The cache of pages and the table of news. *)
Definition Site : Type := tagged (Html NewsData) * list NewsRow.

(** The catch-all route archive/[[...filter]]: the segments of a path
    behind /archive, for a path that has them.  The page reads a route
    without segments like the empty list. *)
Definition archive_filter (path : string) : option (list string) :=
  match segments path with
  | "archive" :: segs => Some segs
  | _ => None
  end.

Inductive SiteRequest :=
| Visit (path : string)
| Publish (scope : Tag) (r : NewsRow).

(** A cache that holds pages of the archive and the list of messages. *)
Definition scenario_cache : tagged (Html NewsData) :=
  fill_tagged "/messages" [["messages"]] no_news
    (fill_tagged (archive_key ["2024"; "05"]) [archive_route ["2024"; "05"]] no_news
       (fill_tagged (archive_key ["2024"]) [archive_route ["2024"]] no_news
          (fill_tagged (archive_key []) [archive_route []] no_news empty_tagged))).

(** A row of a year of which [sample_news] has news, and one of a year
    of which it has none. *)
Definition summer_news : NewsRow :=
  mkNews "n6" "Heat Wave" "Hot." "2024-08-01" "heat.jpg".

Definition future_news : NewsRow :=
  mkNews "n7" "Next Year" "Soon." "2031-01-01" "next.jpg".

(** The site after a visit of /archive/2024, a publication under the scope
    of the archive and one under the scope of the year. *)
Definition busy_site : Site :=
  (invalidate_subtree ["archive"; "2024"]
     (invalidate_subtree ["archive"]
        (get (V:=Html NewsData) (archive_key ["2024"]) [archive_route ["2024"]]
           (λ db, (FilteredNewsPage iso_strftime db (Some ["2024"]), db))
           (empty_tagged, sample_news)).2.1),
   sample_news ++ [future_news; summer_news]).

Section site.
Context {driver : Driver} (strftime : string → string → option string).
Implicit Types (db : list NewsRow) (r : NewsRow) (segs : list string) (st : Site)
  (scope : Tag) (y : string).

Definition archive_loader segs : Act (list NewsRow) (Html NewsData) :=
  λ db, (FilteredNewsPage strftime db (Some segs), db).

(** A visit of a route of the archive. *)
Definition serve_archive segs : Act Site (Html NewsData) :=
  get (archive_key segs) [archive_route segs] (archive_loader segs).

(** A row is added to the table; once it is, the scope is invalidated. *)
Definition publish scope r st : Site :=
  let db := st.2 ++ [r] in
  (invalidate_subtree scope st.1, db).

(** A visit of a path: of the archive when the path leads there; the
    other pages of the site do not touch these entries. *)
Definition visit (path : string) st : Site :=
  match archive_filter path with
  | Some segs => (serve_archive segs st).2
  | None => st
  end.

Definition site_step (q : SiteRequest) st : Site :=
  match q with
  | Visit path => visit path st
  | Publish scope r => publish scope r st
  end.

(** The scopes whose invalidation reaches every page a new row changes:
    the whole archive, or the year of the row when the table has news of
    that year already. *)
Definition covers db scope r : Prop :=
  scope = archive_route [] ∨
  ∃ y, year_of strftime r = Some y ∧ scope = archive_route [y] ∧ has_news strftime db y.

(** The requests of a site: visits of any path, and publications under a
    scope that covers the row. *)
Definition permitted (q : SiteRequest) st : Prop :=
  match q with
  | Visit path => True
  | Publish scope r => covers st.2 scope r
  end.

Inductive site_reachable (db0 : list NewsRow) : Site → Prop :=
| site_boot : site_reachable db0 (empty_tagged, db0)
| site_next st q :
    site_reachable db0 st → permitted q st → site_reachable db0 (site_step q st).

(** An entry that is served holds the page of its route, rendered from
    the table as it is, under the tag of the route. *)
Definition entry_current db (k : QueryKey) (e : Entry (Html NewsData)) : Prop :=
  stale e = false →
  ∃ segs, Forall is_segment segs ∧ k = archive_key segs ∧
          scopeTags e = [archive_route segs] ∧
          FilteredNewsPage strftime db (Some segs) = Done (value e).

Definition site_inv st : Prop := map_Forall (entry_current st.2) (entries st.1).

(** ** The rows a page reads *)

#[local] Notation rows_of y db := (filter (λ r, year_of strftime r = Some y) db).

Lemma rows_of_snoc db r y :
  year_of strftime r ≠ Some y → rows_of y (db ++ [r]) = rows_of y db.
Proof.
  intros Hy. by rewrite filter_app, filter_cons_False, filter_nil, app_nil_r.
Qed.

(** A row of a year the table has news of adds no year. *)
Lemma years_snoc_old db r y :
  year_of strftime r = Some y → has_news strftime db y →
  getAvailableNewsYears strftime (db ++ [r]) = getAvailableNewsYears strftime db.
Proof.
  intros Hr (r' & Hr' & Hy)%Exists_exists. unfold getAvailableNewsYears.
  rewrite fmap_app. simpl. rewrite distinct_snoc_old; [done|].
  apply list_elem_of_fmap. exists r'. by rewrite Hr, Hy.
Qed.

Lemma includes_years_frame db db' y :
  rows_of y db = rows_of y db' →
  includes (getAvailableNewsYears strftime db) (JStr y)
  = includes (getAvailableNewsYears strftime db') (JStr y).
Proof.
  intros E. apply bool_decide_ext. by rewrite !year_listed, !has_news_filter, E.
Qed.

Lemma FilterHeader_year_frame db db' y month :
  y ≠ "" → rows_of y db = rows_of y db' →
  FilterHeader strftime db (JStr y) month = FilterHeader strftime db' (JStr y) month.
Proof.
  intros Hy E. rewrite !FilterHeader_year, !months_of_year, E.
  rewrite (includes_years_frame db db') by done.
  simpl. by rewrite bool_decide_eq_false_2.
Qed.

Lemma filter_year_and (P : NewsRow → Prop) `{!∀ r, Decision (P r)} db y :
  filter (λ r, sql_eq (year_of strftime r) (SText y) ∧ P r) db = filter P (rows_of y db).
Proof.
  rewrite list_filter_filter. apply list_filter_iff. intros r.
  rewrite sql_eq_Some. tauto.
Qed.

Lemma FilteredNews_year_frame db db' y month :
  rows_of y db = rows_of y db' →
  FilteredNews strftime db (JStr y) month = FilteredNews strftime db' (JStr y) month.
Proof.
  intros E. unfold FilteredNews, getNewsForYear, getNewsForYearAndMonth. simpl.
  rewrite !filter_year, E. destruct (bind month); simpl; try done.
  by rewrite !filter_year_and, E.
Qed.

(** The page of a year, and of a month of it, reads the rows of the year
    only. *)
Lemma FilteredNewsPage_year_frame db db' y segs :
  y ≠ "" → rows_of y db = rows_of y db' →
  FilteredNewsPage strftime db (Some (y :: segs))
  = FilteredNewsPage strftime db' (Some (y :: segs)).
Proof.
  intros Hy E. unfold FilteredNewsPage. simpl.
  by rewrite (FilterHeader_year_frame db db'), (FilteredNews_year_frame db db').
Qed.

(** The page without a filter reads the years of the table only. *)
Lemma FilteredNewsPage_root_frame db db' :
  getAvailableNewsYears strftime db = getAvailableNewsYears strftime db' →
  FilteredNewsPage strftime db (Some []) = FilteredNewsPage strftime db' (Some []).
Proof. unfold FilteredNewsPage, FilterHeader. simpl. by intros ->. Qed.

(** A row changes no page outside a scope that covers it. *)
Lemma page_outside_scope db scope r segs :
  covers db scope r → Forall is_segment segs →
  ¬ scope `prefix_of` archive_route segs →
  FilteredNewsPage strftime (db ++ [r]) (Some segs) = FilteredNewsPage strftime db (Some segs).
Proof.
  intros [->|(y & Hr & -> & Hy)] Hsegs Hout.
  { destruct Hout. by exists segs. }
  destruct segs as [|y' segs].
  - by eapply FilteredNewsPage_root_frame, years_snoc_old.
  - apply Forall_cons in Hsegs as [[Hy' _] _].
    apply FilteredNewsPage_year_frame, rows_of_snoc; [done|].
    rewrite Hr. intros [= ->]. apply Hout. by exists segs.
Qed.

(** ** The cache cannot be seen *)

Lemma archive_key_inj segs segs' :
  Forall is_segment segs → Forall is_segment segs' →
  archive_key segs = archive_key segs' → segs = segs'.
Proof.
  intros H H' E. apply route_path_inj in E; [by injection E|..];
    (constructor; [by apply (bool_decide_unpack _) | done]).
Qed.

(** A visit is answered with the page of the table as it is, and leaves
    the table alone and the entries current. *)
Lemma serve_archive_inv st segs :
  site_inv st → Forall is_segment segs →
  ∃ c, serve_archive segs st = (FilteredNewsPage strftime st.2 (Some segs), (c, st.2)) ∧
       site_inv (c, st.2).
Proof.
  destruct st as [c db]. unfold site_inv. cbn [fst snd]. intros Hinv Hsegs.
  unfold serve_archive, get, archive_loader. simpl.
  destruct (find_tagged (archive_key segs) c) as [page|] eqn:Hfind.
  - exists c. split; [|done].
    apply find_tagged_Some in Hfind as (e & He & Hs & <-).
    destruct (Hinv _ _ He Hs) as (segs' & Hsegs' & Hk & _ & Hpage).
    apply archive_key_inj in Hk as <-; [|done..]. by rewrite Hpage.
  - destruct (FilteredNewsPage strftime db (Some segs)) as [page| | |] eqn:Hp;
      (eexists; split; [done|]); try done.
    apply map_Forall_insert_2; [|done]. intros _. by exists segs.
Qed.

Lemma publish_inv st scope r :
  site_inv st → covers st.2 scope r → site_inv (publish scope r st).
Proof.
  destruct st as [c db]. unfold site_inv. cbn [fst snd]. intros Hinv Hcov.
  apply map_Forall_fmap. intros k e He. simpl.
  destruct (under scope e) eqn:Hu; [by intros ?|]. intros Hs.
  destruct (Hinv k e He Hs) as (segs & Hsegs & -> & Ht & Hp).
  exists segs. split_and!; try done. simpl. rewrite <-Hp.
  apply page_outside_scope with scope; try done. intros Hpre.
  apply bool_decide_eq_false in Hu. apply Hu. rewrite Ht. by constructor.
Qed.

(** The filter of a path is a list of segments. *)
Lemma archive_filter_segments path segs :
  archive_filter path = Some segs → Forall is_segment segs.
Proof.
  unfold archive_filter. pose proof (segments_are_segments path) as H.
  destruct (segments path) as [|seg segs']; [done|].
  apply Forall_cons in H as [_ H]. repeat (case_match; try done). by intros [= <-].
Qed.

Lemma visit_inv path st : site_inv st → site_inv (visit path st).
Proof.
  intros Hinv. unfold visit. destruct (archive_filter path) as [segs|] eqn:Hp; [|done].
  apply archive_filter_segments in Hp.
  by destruct (serve_archive_inv st segs) as (c & -> & Hc).
Qed.

Lemma site_step_inv q st : site_inv st → permitted q st → site_inv (site_step q st).
Proof.
  destruct q as [path|scope r]; simpl; intros Hinv Hq;
    [by apply visit_inv | by apply publish_inv].
Qed.

Lemma site_reachable_inv db0 st : site_reachable db0 st → site_inv st.
Proof.
  induction 1 as [|st q _ IH Hq]; [apply map_Forall_empty | by apply site_step_inv].
Qed.

(** C26. Coherence of the route cache.  On every site reached by visits of
    paths and by publications under a scope that covers the row, a visit
    of a path of the archive is answered with the page the components
    render from the table as it is at the visit, errors included, and does
    not change the table. *)
Theorem serve_archive_current db0 st path segs :
  site_reachable db0 st → archive_filter path = Some segs →
  (serve_archive segs st).1 = FilteredNewsPage strftime st.2 (Some segs) ∧
  (serve_archive segs st).2.2 = st.2.
Proof.
  intros Hinv%site_reachable_inv Hsegs%archive_filter_segments.
  by destruct (serve_archive_inv st segs) as (c & -> & _).
Qed.

(** ** A scope that does not cover the row *)

Lemma root_page db :
  FilteredNewsPage strftime db (Some [])
  = Done (Fragment [suspense "Loading filter..."
                      (header_view JUndefined (getAvailableNewsYears strftime db));
                    suspense "Loading news..." no_news]).
Proof. done. Qed.

#[local] Instance filter_link_inj year : Inj (=) (=) (filter_link year).
Proof. unfold filter_link. by intros link link' [= ->]. Qed.

(** The first row of a year changes the page without a filter. *)
Lemma root_page_new_year db r y :
  year_of strftime r = Some y → ¬ has_news strftime db y →
  FilteredNewsPage strftime (db ++ [r]) (Some []) ≠ FilteredNewsPage strftime db (Some []).
Proof.
  intros Hr Hy. rewrite !root_page. intros [= E]. apply (inj (fmap (filter_link _))) in E.
  apply Hy, year_listed. rewrite <-E. apply year_listed, Exists_app. right. by constructor.
Qed.

Lemma root_first_visit db :
  ∃ page, FilteredNewsPage strftime db (Some []) = Done page ∧
    serve_archive [] (empty_tagged, db)
    = (Done page, (fill_tagged (archive_key []) [archive_route []] page empty_tagged, db)).
Proof. eexists. split; [apply root_page|]. by apply get_tagged_miss. Qed.

(** The page without a filter, once visited, survives the invalidation of
    the scope of a year. *)
Lemma root_survives_year_scope db r y :
  serve_archive [] (publish (archive_route [y]) r (serve_archive [] (empty_tagged, db)).2)
  = (FilteredNewsPage strftime db (Some []),
     (publish (archive_route [y]) r (serve_archive [] (empty_tagged, db)).2)).
Proof.
  destruct (root_first_visit db) as (page & -> & ->). apply get_tagged_hit. cbn [fst snd].
  rewrite find_invalidate_subtree_other; [apply find_fill_tagged|].
  intros e t. rewrite entries_fill_tagged. intros [= <-] ->%list_elem_of_singleton.
  by intros [? [=]].
Qed.

(** C28. When the scope of the year of a row is invalidated and the year is
    new, the page without a filter is served as it was before the row: it
    lacks the link to the year. *)
Theorem year_scope_misses_new_year db r y :
  year_of strftime r = Some y → ¬ has_news strftime db y →
  let st := publish (archive_route [y]) r (serve_archive [] (empty_tagged, db)).2 in
  (serve_archive [] st).1 = FilteredNewsPage strftime db (Some []) ∧
  (serve_archive [] st).1 ≠ FilteredNewsPage strftime st.2 (Some []).
Proof.
  intros Hr Hy st. unfold st. rewrite root_survives_year_scope. split; [done|].
  intros E. by eapply root_page_new_year.
Qed.

End site.

(** ** Examples *)

(** Subtree invalidation of the archive: its pages are read again, the
    list of messages is served as before. *)
Example archive_subtree_invalidation :
  let c := invalidate_subtree ["archive"] scenario_cache in
  find_tagged "/archive" c = None ∧ find_tagged "/archive/2024" c = None ∧
  find_tagged "/archive/2024/05" c = None ∧ find_tagged "/messages" c = Some no_news.
Proof. by vm_compute. Qed.

Lemma busy_site_reachable : site_reachable iso_strftime sample_news busy_site.
Proof.
  change busy_site with
    (site_step iso_strftime (Publish ["archive"; "2024"] summer_news)
       (site_step iso_strftime (Publish ["archive"] future_news)
          (site_step iso_strftime (Visit "/archive/2024") (empty_tagged, sample_news)))).
  apply (site_next _ _ _ (Publish ["archive"; "2024"] summer_news)).
  apply (site_next _ _ _ (Publish ["archive"] future_news)).
  apply (site_next _ _ _ (Visit "/archive/2024")).
  - apply site_boot.
  - done.
  - by left.
  - right. exists "2024". split_and!; [done..|]. by apply (bool_decide_unpack _).
Qed.

Lemma serve_archive_current_witness :
  (serve_archive iso_strftime ["2024"] busy_site).1
  = FilteredNewsPage iso_strftime busy_site.2 (Some ["2024"]) ∧
  (serve_archive iso_strftime ["2024"] busy_site).2.2 = busy_site.2.
Proof.
  apply (serve_archive_current iso_strftime sample_news busy_site "/archive//2024/" ["2024"]).
  - apply busy_site_reachable.
  - reflexivity.
Defined.

Lemma year_scope_misses_new_year_witness :
  let st := publish (archive_route ["2031"]) future_news
              (serve_archive iso_strftime [] (empty_tagged, sample_news)).2 in
  (serve_archive iso_strftime [] st).1 = FilteredNewsPage iso_strftime sample_news (Some []) ∧
  (serve_archive iso_strftime [] st).1 ≠ FilteredNewsPage iso_strftime st.2 (Some []).
Proof.
  apply (year_scope_misses_new_year iso_strftime sample_news future_news "2031"); [done|].
  by apply (bool_decide_unpack _).
Defined.
