(* ===== verification/ArchiveLinks.v ===== *)
(** * Links of the archive

    The header of archive/@archive/[[...filter]]/page.js links to the
    years of the table, and under a year to its months.  This file follows
    those links: [links] of Pages.v collects them from the tree of a page,
    [resolve] leads from a link to a route, and [FilteredNewsPage] renders
    the route.

    When every row has a date [strftime] reads ([dated]), the archive is
    closed under its links: every link of a page that renders leads to a
    route of the archive whose page renders.  A row with a date that
    [strftime] does not read has the year [NULL]; the header then links to
    /archive/null, and that page throws the error of an invalid filter. *)

From stdpp Require Import prelude strings list.
From S2P Require Import Prelude ReadCache News Pages ArchiveCache.

(** A row whose date [iso_strftime] does not read. *)
Definition undated_news : NewsRow :=
  mkNews "n9" "Coming Up" "Soon." "soon" "soon.jpg".

Section links.
Context {driver : Driver} (strftime : string → string → option string).
Implicit Types (db : list NewsRow) (r : NewsRow) (segs : list string) (y m href : string)
  (year month link : JsVal).

(** [strftime] reads the date of the row, and gives a year and a month
    that are segments of a route. *)
Definition dated r : Prop :=
  match year_of strftime r, month_of strftime r with
  | Some y, Some m => is_segment y ∧ is_segment m
  | _, _ => False
  end.

#[export] Instance dated_dec r : Decision (dated r).
Proof. unfold dated. repeat case_match; apply _. Defined.

Lemma dated_inv r :
  dated r → ∃ y m, year_of strftime r = Some y ∧ month_of strftime r = Some m ∧
                   is_segment y ∧ is_segment m.
Proof.
  unfold dated. destruct (year_of strftime r) as [y|], (month_of strftime r) as [m|];
    try done. intros [? ?]. by exists y, m.
Qed.

(** ** The links of a page *)

Lemma links_filter_link year link : links (filter_link year link) = [link_href year link].
Proof. done. Qed.

Lemma links_header_view year (ls : list JsVal) :
  links (header_view year ls) = link_href year <$> ls.
Proof.
  unfold header_view. repeat (rewrite links_node by done; csimpl; rewrite ?app_nil_r).
  rewrite <-list_fmap_compose. by apply mjoin_singletons.
Qed.

Lemma links_news_view (news : list NewsRow) : links (news_view news) = [].
Proof. unfold news_view. by case_bool_decide. Qed.

Lemma links_FilteredNews db year month (h : Html NewsData) :
  FilteredNews strftime db year month = Done h → links h = [].
Proof.
  unfold FilteredNews.
  match goal with |- context [mbind _ ?m] => destruct m as [[news|]| | |] end;
    simpl; try done; intros [= <-]; [apply links_news_view | done].
Qed.

(** The links of the page are those of its header. *)
Lemma links_FilteredNewsPage db filter (page : Html NewsData) :
  FilteredNewsPage strftime db filter = Done page →
  ∃ header, FilterHeader strftime db (segment filter 0) (segment filter 1) = Done header ∧
            links page = links header.
Proof.
  unfold FilteredNewsPage.
  destruct (FilterHeader _ _ _ _) as [header| | |]; simpl; try done.
  destruct (FilteredNews _ _ _ _) as [news| | |] eqn:Hn; simpl; try done.
  intros [= <-]. exists header. split; [done|].
  rewrite links_Fragment. csimpl. unfold suspense. rewrite !links_node by done. csimpl.
  by rewrite (links_FilteredNews _ _ _ _ Hn), !app_nil_r.
Qed.

(** ** Where the links lead *)

Lemma link_href_year y : link_href JUndefined (JStr y) = route_path ["archive"; y].
Proof. unfold link_href, route_path. simpl. by rewrite string_app_nil_r. Qed.

Lemma link_href_month y m :
  y ≠ "" → link_href (JStr y) (JStr m) = route_path ["archive"; y; m].
Proof.
  intros Hy. unfold link_href, route_path. simpl.
  rewrite bool_decide_eq_false_2 by done. simpl. by rewrite string_app_nil_r.
Qed.

(** The header of a year that renders. *)
Lemma header_of_year db y month header :
  y ≠ "" → FilterHeader strftime db (JStr y) month = Done header →
  header = header_view (JStr y)
             (if truthy month then []
              else sql_value <$> distinct (month_of strftime <$>
                     filter (λ r, year_of strftime r = Some y) db)).
Proof.
  intros Hy. rewrite FilterHeader_year, months_of_year. simpl.
  rewrite bool_decide_eq_false_2 by done. simpl.
  destruct (_ || _); [done|]. by intros [= <-].
Qed.

(** A page that renders has a header that does. *)
Lemma links_done_header db filter :
  is_done (FilteredNewsPage strftime db filter) →
  is_done (FilterHeader strftime db (segment filter 0) (segment filter 1)) = true.
Proof. unfold FilteredNewsPage. by destruct (FilterHeader _ _ _ _). Qed.

(** The page of a valid filter renders. *)
Lemma valid_page_renders db segs :
  valid_filter strftime db (segment (Some segs) 0) (segment (Some segs) 1) →
  is_done (FilteredNewsPage strftime db (Some segs)) = true.
Proof.
  intros Hv%FilterHeader_done_iff. unfold FilteredNewsPage.
  destruct (FilterHeader _ _ _ _) as [header| | |]; try done.
  destruct (segment_route (Some segs)) as [[-> _]|(y & -> & Hm)].
  - by rewrite FilteredNews_no_year.
  - by destruct (FilteredNews_route strftime db y _ Hm) as [h ->].
Qed.

Lemma archive_segments segs : Forall is_segment segs → Forall is_segment ("archive" :: segs).
Proof. constructor; [by apply (bool_decide_unpack _) | done]. Qed.

(** A link to a year of the table leads to the page of the year. *)
Lemma year_link_leads db r y :
  r ∈ db → year_of strftime r = Some y → is_segment y →
  (∀ current, resolve current (link_href JUndefined (JStr y)) = ["archive"; y]) ∧
  is_done (FilteredNewsPage strftime db (Some [y])) = true.
Proof.
  intros Hr Hy Hseg. rewrite link_href_year. split.
  - intros current. apply resolve_route_path; [|done].
    by apply archive_segments, Forall_singleton.
  - apply valid_page_renders, valid_filter_year. simpl. split; [|done].
    intros _. apply Exists_exists. eauto.
Qed.

(** A link to a month of a year leads to the page of the month. *)
Lemma month_link_leads db r y m :
  r ∈ db → year_of strftime r = Some y → month_of strftime r = Some m →
  is_segment y → is_segment m →
  (∀ current, resolve current (link_href (JStr y) (JStr m)) = ["archive"; y; m]) ∧
  is_done (FilteredNewsPage strftime db (Some [y; m])) = true.
Proof.
  intros Hr Hy Hm Hseg Hseg'. rewrite link_href_month by apply Hseg. split.
  - intros current. apply resolve_route_path; [|done].
    by apply archive_segments, Forall_cons, conj, Forall_singleton.
  - apply valid_page_renders, valid_filter_year. simpl.
    split; intros _; [|exists m; split; [done|]]; apply Exists_exists; eauto.
Qed.

(** From a route of the archive whose page renders, every link leads to
    a route of the archive whose page renders. *)
Lemma links_lead_from_route db segs (page : Html NewsData) href :
  Forall dated db → Forall is_segment segs →
  FilteredNewsPage strftime db (Some segs) = Done page → href ∈ links page →
  ∃ segs', (∀ current, resolve current href = "archive" :: segs') ∧
           is_done (FilteredNewsPage strftime db (Some segs')) = true.
Proof.
  intros Hdated Hsegs (header & Hh & ->)%links_FilteredNewsPage Hhref.
  rewrite Forall_forall in Hdated.
  destruct segs as [|y segs]; simpl in Hh.
  - rewrite FilterHeader_no_month in Hh by done. injection Hh as <-.
    rewrite links_header_view in Hhref.
    apply list_elem_of_fmap in Hhref as (v & -> & (r & Hr & <-)%elem_of_years).
    destruct (dated_inv r (Hdated r Hr)) as (y & m & Hy & _ & Hseg & _).
    rewrite Hy. exists [y]. by eapply year_link_leads.
  - apply Forall_cons in Hsegs as [[Hne Hy] Hsegs].
    apply header_of_year in Hh as ->; [|done]. rewrite links_header_view in Hhref.
    destruct (truthy _); [by apply elem_of_nil in Hhref|].
    apply list_elem_of_fmap in Hhref as (v & -> & Hv).
    apply list_elem_of_fmap in Hv as (o & -> & Ho).
    apply elem_of_distinct, list_elem_of_fmap in Ho as (r & -> & [Hy' Hr]%list_elem_of_filter).
    destruct (dated_inv r (Hdated r Hr)) as (? & m & ? & Hm & Hseg & Hseg').
    simplify_eq. rewrite Hm. exists [y; m]. by eapply month_link_leads.
Qed.
(** C27. The archive is closed under its links.  When [strftime] reads the
    date of every row, each link of the page of a path of the archive, if
    the page renders, is a path of the archive whose page renders, and
    leads there from wherever it is followed. *)
Theorem archive_links_lead_to_pages db path segs (page : Html NewsData) href current :
  Forall dated db → archive_filter path = Some segs →
  FilteredNewsPage strftime db (Some segs) = Done page → href ∈ links page →
  ∃ segs', archive_filter href = Some segs' ∧
           resolve current href = "archive" :: segs' ∧
           is_done (FilteredNewsPage strftime db (Some segs')) = true.
Proof.
  intros Hdated Hsegs%archive_filter_segments Hpage Hhref.
  destruct (links_lead_from_route db segs page href) as (segs' & Hres & Hdone); try done.
  exists segs'. split_and!; [|done..].
  unfold archive_filter. by rewrite <-resolve_nil, Hres.
Qed.

(** C29. A row with a date that [strftime] does not read puts a link to
    /archive/null into the header, and that page throws. *)
Theorem undated_row_breaks_link db r :
  r ∈ db → year_of strftime r = None → ¬ has_news strftime db "null" →
  ∃ page, FilteredNewsPage strftime db (Some []) = Done page ∧
          "/archive/null" ∈ links page ∧
          FilteredNewsPage strftime db (Some ["null"])
          = Throw (invalid_filter (JStr "null") JUndefined).
Proof.
  intros Hr Hy Hnone. eexists. split_and!; [done| |].
  - rewrite links_Fragment. csimpl. unfold suspense. rewrite !links_node by done. csimpl.
    rewrite links_header_view, !app_nil_r. apply list_elem_of_fmap. exists JNull.
    split; [done|]. apply elem_of_years. exists r. by rewrite Hy.
  - destruct (FilteredNewsPage_cases strftime db (Some ["null"])) as [[h Hh]|]; [|done].
    apply (f_equal is_done), Is_true_true in Hh. exfalso.
    apply links_done_header in Hh. apply FilterHeader_done_iff, valid_filter_year in Hh as [Hh _].
    by apply Hnone, Hh.
Qed.

End links.

(** ** Examples *)

(** The link to March on the page of 2024 leads to a page that renders. *)
Lemma archive_links_lead_to_pages_witness :
  ∃ segs', archive_filter "/archive/2024/03" = Some segs' ∧
           resolve ["archive"; "2024"] "/archive/2024/03" = "archive" :: segs' ∧
           is_done (FilteredNewsPage iso_strftime sample_news (Some segs')) = true.
Proof.
  pose (page := match FilteredNewsPage iso_strftime sample_news (Some ["2024"]) with
                | Done page => page
                | _ => no_news
                end).
  apply (archive_links_lead_to_pages iso_strftime sample_news "/archive/2024" ["2024"] page
           "/archive/2024/03" ["archive"; "2024"]).
  - by apply (bool_decide_unpack _).
  - reflexivity.
  - by vm_compute.
  - by apply (bool_decide_unpack _).
Defined.

Lemma undated_row_breaks_link_witness :
  ∃ page, FilteredNewsPage iso_strftime (sample_news ++ [undated_news]) (Some []) = Done page ∧
          "/archive/null" ∈ links page ∧
          FilteredNewsPage iso_strftime (sample_news ++ [undated_news]) (Some ["null"])
          = Throw (invalid_filter (JStr "null") JUndefined).
Proof.
  apply (undated_row_breaks_link iso_strftime (sample_news ++ [undated_news]) undated_news).
  - by apply (bool_decide_unpack _).
  - done.
  - by apply (bool_decide_unpack _).
Defined.
