(* ===== verification/Revalidation.v ===== *)
(** * The revalidation calls of new/page.js

    [createMessage] of src/6-caching/app/messages/new/page.js keeps four
    calls in comments between the insert and the redirect (lines 12 to
    17): [revalidatePath] of the page of the messages, of another page and
    of a layout with what is under it, and [revalidateTag].  The page
    (src/6-caching/app/messages/page.js, lines 13 to 25) keeps the read
    they would go with: a [fetch] tagged ['msg'].

    [createMessage_with] is the action with a list of those calls restored,
    [revalidate] what a call invalidates in the route cache
    (specification 4.2: exact scope, subtree scope), [serve_tagged] the
    GET of /messages with the tags of its reads.  [reaches] decides
    whether a call names an entry; the next GET shows the new message
    exactly when one of the calls restored reaches the entry of the page. *)

From stdpp Require Import prelude strings list gmap.
From S2P Require Import Prelude ReadCache Messages Pages.

(** The second argument of [revalidatePath]: the page of the path, or the
    layout of the path with every page under it. *)
Inductive PathType := PagePath | LayoutPath.

Inductive Revalidation :=
| RevalidatePath (path : string) (type : PathType)
| RevalidateTag (tag : string).

#[export] Instance PathType_eq_dec : EqDecision PathType.
Proof. solve_decision. Defined.

#[export] Instance Revalidation_eq_dec : EqDecision Revalidation.
Proof. solve_decision. Defined.

(** The scope of a tag given to a read.  The mark keeps it apart from
    the scopes of paths, whose first segment does not start with it. *)
Definition data_tag (tag : string) : Tag := ["#" +:+ tag].

(** What a call invalidates. *)
Definition revalidate {V} (r : Revalidation) (c : tagged V) : tagged V :=
  match r with
  | RevalidatePath path PagePath => invalidate (segments path) c
  | RevalidatePath path LayoutPath => invalidate_subtree (segments path) c
  | RevalidateTag tag => invalidate (data_tag tag) c
  end.

(** Whether a call names an entry with these tags. *)
Definition reaches (r : Revalidation) (ts : list Tag) : bool :=
  match r with
  | RevalidatePath path PagePath => bool_decide (segments path ∈ ts)
  | RevalidatePath path LayoutPath =>
      bool_decide (Exists (λ t, segments path `prefix_of` t) ts)
  | RevalidateTag tag => bool_decide (data_tag tag ∈ ts)
  end.

(** The four calls of lines 12 to 17, as written. *)
Definition line_12 : Revalidation := RevalidatePath "/messages" PagePath.
Definition line_13 : Revalidation := RevalidatePath "/some_other page" PagePath.
Definition line_15 : Revalidation := RevalidatePath "/message" LayoutPath.
Definition line_17 : Revalidation := RevalidateTag "msg".

(** The action with a list of the calls restored, in their order. *)
Definition createMessage_with (calls : list Revalidation) (formData : FormData)
  : Act Server () :=
  zoom env (λ e srv, mkServer e (routes srv))
    (addMessage (formData_get "message" formData));;
  modify_state (λ srv, mkServer (env srv) (foldl (λ c r, revalidate r c) (routes srv) calls));;
  unwind (Redirect "/messages").

(** The tags of the entry of /messages: the scope of the route, and the
    tags of the reads of the page. *)
Definition page_tags (tags : list string) : list Tag := messages_scope :: (data_tag <$> tags).

(** GET /messages when the reads of the page carry the tags. *)
Definition serve_tagged (tags : list string) (p : Policy) : Act Server (Html MsgData) :=
  λ srv,
  let '(o, (c, e)) :=
    get "/messages" (page_tags tags) render_messages (routes srv, env srv) in
  (o, mkServer e (end_cycle p c)).

(** ** What a call does to an entry *)

Section revalidate_facts.
Context {V : Type}.
Implicit Types (c : tagged V) (e : Entry V) (r : Revalidation) (k : QueryKey).

Lemma revalidate_mark r c : revalidate r c = mark_if (λ e, reaches r (scopeTags e)) c.
Proof. by destruct r as [path []|tag]. Qed.

(** A list of calls leaves value and tags of an entry, and marks it stale
    when one of the calls reaches its tags. *)
Lemma entries_revalidate_all (calls : list Revalidation) k c e :
  entries c !! k = Some e →
  ∃ e', entries (foldl (λ c r, revalidate r c) c calls) !! k = Some e' ∧
        value e' = value e ∧ scopeTags e' = scopeTags e ∧
        stale e' = stale e || existsb (λ r, reaches r (scopeTags e)) calls.
Proof.
  revert c e. induction calls as [|r calls IH]; intros c e He; simpl.
  { exists e. by rewrite orb_false_r. }
  edestruct (IH (revalidate r c)) as (e' & He' & Hv & Ht & Hs).
  { rewrite revalidate_mark. unfold mark_if. simpl. by rewrite lookup_fmap, He. }
  exists e'. split; [done|]. rewrite Hv, Ht, Hs.
  destruct (reaches r (scopeTags e)) eqn:Hr; simpl; rewrite ?Hr; simpl;
    [by rewrite orb_true_r | done].
Qed.

(** An entry that was served is served after the calls exactly when none
    of them reaches its tags. *)
Lemma find_revalidate_all (calls : list Revalidation) k c e :
  entries c !! k = Some e → stale e = false →
  find_tagged k (foldl (λ c r, revalidate r c) c calls)
  = if existsb (λ r, reaches r (scopeTags e)) calls then None else Some (value e).
Proof.
  intros He Hs. destruct (entries_revalidate_all calls k c e He) as (e' & He' & Hv & _ & Hs').
  unfold find_tagged, fresh_value. rewrite He'. simpl. rewrite Hs', Hs, Hv. simpl.
  by destruct (existsb _ _).
Qed.

End revalidate_facts.

(** ** The page after the action *)

Section action_facts.
Implicit Types (srv : Server) (p : Policy) (rows : list MessageRow) (fd : FormData)
  (tags : list string) (calls : list Revalidation).

Lemma serve_tagged_hit tags p srv page :
  find_tagged "/messages" (routes srv) = Some page →
  serve_tagged tags p srv = (Done page, mkServer (env srv) (end_cycle p (routes srv))).
Proof.
  intros H. unfold serve_tagged. by rewrite (get_tagged_hit _ _ _ _ _ page H).
Qed.

Lemma serve_tagged_miss tags p srv rows :
  find_tagged "/messages" (routes srv) = None → messages_db (env srv) = Some rows →
  serve_tagged tags p srv =
    (Done (messages_tree rows),
     mkServer (logged (env srv))
       (end_cycle p (fill_tagged "/messages" (page_tags tags) (messages_tree rows)
                       (routes srv)))).
Proof.
  intros H1 H2. unfold serve_tagged.
  by rewrite (get_tagged_miss _ _ _ _ _ _ _ H1 (render_messages_done _ _ H2)).
Qed.

(** The page as written reads without a tag. *)
Lemma serve_tagged_nil p : serve_tagged [] p = serve_messages p.
Proof. done. Qed.

Lemma createMessage_with_done calls srv fd rows :
  messages_db (env srv) = Some rows →
  createMessage_with calls fd srv =
    (Redirect "/messages",
     mkServer (set_db (Some (rows ++ [inserted rows fd])) (env srv))
       (foldl (λ c r, revalidate r c) (routes srv) calls)).
Proof.
  intros H. unfold createMessage_with, zoom.
  erewrite act_bind_done; [|by erewrite addMessage_done]. done.
Qed.

(** The action as written restores none of the calls; line 12 restored is
    the action of Messages.v. *)
Lemma createMessage_with_nil fd srv : createMessage_with [] fd srv = submit fd srv.
Proof.
  unfold createMessage_with, submit, createMessage, zoom. act_run.
  by destruct (addMessage _ _) as [[] ?].
Qed.

Lemma page_after_calls tags calls srv fd rows :
  find_tagged "/messages" (routes srv) = None → messages_db (env srv) = Some rows →
  ∃ srv1 srv2 srv3,
    serve_tagged tags UntilInvalidated srv = (Done (messages_tree rows), srv1) ∧
    createMessage_with calls fd srv1 = (Redirect "/messages", srv2) ∧
    serve_tagged tags UntilInvalidated srv2 =
      (Done (messages_tree (if existsb (λ r, reaches r (page_tags tags)) calls
                            then rows ++ [inserted rows fd] else rows)), srv3) ∧
    messages_db (env srv3) = Some (rows ++ [inserted rows fd]).
Proof.
  intros Hc Hdb.
  pose proof (find_revalidate_all calls "/messages"
                (end_cycle UntilInvalidated
                   (fill_tagged "/messages" (page_tags tags) (messages_tree rows) (routes srv)))
                _ (entries_fill_tagged "/messages" (page_tags tags) (messages_tree rows)
                     (routes srv)) eq_refl) as Hfind.
  simpl in Hfind.
  destruct (existsb _ calls); eexists _, _, _;
    (split; [by apply serve_tagged_miss|]);
    (split; [by apply createMessage_with_done|]).
  - split; [by apply serve_tagged_miss | done].
  - split; [by apply serve_tagged_hit | done].
Qed.

(** C25. Which of the calls show the new message.  With the route cached until
    invalidated, GET /messages, the action with a list of the calls
    restored, and GET /messages again: the second page shows the table
    with the new row exactly when one of the calls reaches the tags of the
    page, and the page of the first GET otherwise. *)
Theorem revalidation_shows_iff_reached tags calls srv fd rows :
  find_tagged "/messages" (routes srv) = None → messages_db (env srv) = Some rows →
  ∃ srv1 srv2 srv3,
    serve_tagged tags UntilInvalidated srv = (Done (messages_tree rows), srv1) ∧
    createMessage_with calls fd srv1 = (Redirect "/messages", srv2) ∧
    serve_tagged tags UntilInvalidated srv2 =
      (Done (messages_tree (if existsb (λ r, reaches r (page_tags tags)) calls
                            then rows ++ [inserted rows fd] else rows)), srv3) ∧
    messages_db (env srv3) = Some (rows ++ [inserted rows fd]).
Proof. apply page_after_calls. Qed.

End action_facts.

(** ** The calls of the comments, one at a time *)

(** Line 12 names the page and line 17 a tag: the first reaches the page
    as written, the second only a page whose read carries the tag.  Line
    13 names another page.  Line 15 names /message, which is not /messages
    and has nothing under it: it reaches the page only when the path is
    corrected. *)
Example lines_reach :
  reaches line_12 (page_tags []) = true ∧
  reaches line_13 (page_tags []) = false ∧
  reaches line_15 (page_tags []) = false ∧
  reaches (RevalidatePath "/messages" LayoutPath) (page_tags []) = true ∧
  reaches (RevalidatePath "/" LayoutPath) (page_tags []) = true ∧
  reaches line_17 (page_tags []) = false ∧
  reaches line_17 (page_tags ["msg"]) = true.
Proof. by vm_compute. Qed.

Lemma revalidation_shows_iff_reached_witness :
  ∃ srv1 srv2 srv3,
    serve_tagged [] UntilInvalidated sample_server = (Done (messages_tree sample_rows), srv1) ∧
    createMessage_with [line_15; line_17] sample_form srv1 = (Redirect "/messages", srv2) ∧
    serve_tagged [] UntilInvalidated srv2 = (Done (messages_tree sample_rows), srv3) ∧
    messages_db (env srv3) = Some (sample_rows ++ [inserted sample_rows sample_form]).
Proof.
  apply (revalidation_shows_iff_reached [] [line_15; line_17] sample_server sample_form
           sample_rows); reflexivity.
Defined.
